(** * prepare-for-web: staleness gate, favicon orchestration, manifest merge
      and root-path rewriting of [dist/index.js], embedded and verified.

    The development follows the source file function by function:
    [generateFavicons], [makeHtmlAttributes], [generateBasicIndexHTML],
    [replaceRootPaths], [generateApp] and the command line entry point
    ([main]).  Node's synchronous filesystem
    calls are modelled by a finite map from path strings to nodes, the
    promise/timer interplay of [generateFavicons] by a small event-driven
    state machine, and everything the program merely calls (the favicon
    renderer, [JSON.parse], Handlebars, the wall clock) by the fields of a
    [World] record. *)

From Stdlib Require Import ZArith String Ascii List Bool Lia.
From stdpp Require Import gmap strings list fin_maps pretty.

Open Scope string_scope.
Open Scope list_scope.

(* ===================================================================== *)
(** * Part I.  The embedding                                              *)
(* ===================================================================== *)

(** ** JavaScript string primitives used by the source *)

Module Str.

(** [p] is an initial segment of [s]. *)
Fixpoint is_prefix (p s : string) : bool :=
  match p, s with
  | EmptyString, _ => true
  | String a p', String b s' => Ascii.eqb a b && is_prefix p' s'
  | String _ _, EmptyString => false
  end.

(** [s.startsWith(p)] *)
Definition startsWith (s p : string) : bool := is_prefix p s.

(** [s.endsWith(p)]: some suffix of [s] is [p]. *)
Fixpoint endsWith (s p : string) : bool :=
  String.eqb s p ||
  match s with
  | EmptyString => false
  | String _ s' => endsWith s' p
  end.

(** [s.replace(new RegExp(pat, 'g'), rep)] for a pattern and a replacement
    without special characters: a left-to-right scan; at a position where
    [pat] matches, [rep] is emitted and the scan resumes after the match,
    otherwise the character is copied.  [skip] counts the characters of
    the current match that are still to be passed over. *)
Fixpoint replace_from (pat rep : string) (skip : nat) (s : string) : string :=
  match s with
  | EmptyString => EmptyString
  | String c s' =>
      match skip with
      | S k => replace_from pat rep k s'
      | O =>
          if is_prefix pat s
          then rep +:+ replace_from pat rep (String.length pat - 1) s'
          else String c (replace_from pat rep 0 s')
      end
  end.

Definition replace_all (pat rep s : string) : string :=
  replace_from pat rep 0 s.

(** [pat] occurs somewhere in [s]. *)
Fixpoint occurs (pat s : string) : bool :=
  is_prefix pat s ||
  match s with
  | EmptyString => false
  | String _ s' => occurs pat s'
  end.

(** Truthiness of a string value: the empty string is falsy. *)
Definition truthy (s : string) : bool := negb (String.eqb s "").

(** Truthiness of a possibly [undefined] string. *)
Definition truthy_opt (o : option string) : bool :=
  match o with
  | Some s => truthy s
  | None => false
  end.

(** String conversion of a possibly [undefined] value, as performed by
    [+] and by template literals. *)
Definition of_opt (o : option string) : string :=
  match o with
  | Some s => s
  | None => "undefined"
  end.

(** [s.slice(n)] *)
Fixpoint drop (n : nat) (s : string) : string :=
  match n, s with
  | O, _ => s
  | S k, String _ s' => drop k s'
  | S _, EmptyString => EmptyString
  end.

(** [s.slice(0, n)] for [0 <= n]. *)
Fixpoint take (n : nat) (s : string) : string :=
  match n, s with
  | S k, String c s' => String c (take k s')
  | _, _ => EmptyString
  end.

(** The double-quote character and the one-character string holding it. *)
Definition dq : ascii := "034"%char.
Definition dquote : string := String dq EmptyString.

(** The character [c] is one of the characters of [s]. *)
Fixpoint has_char (c : ascii) (s : string) : bool :=
  match s with
  | EmptyString => false
  | String d s' => Ascii.eqb c d || has_char c s'
  end.

(** [b] does not begin with a character of [q]. *)
Definition head_outside (q b : string) : Prop :=
  match b with
  | EmptyString => True
  | String d _ => has_char d q = false
  end.

(** [l.join(sep)] *)
Fixpoint join (sep : string) (l : list string) : string :=
  match l with
  | [] => ""
  | [x] => x
  | x :: rest => x +:+ sep +:+ join sep rest
  end.

End Str.

(** ** [path.join] (POSIX flavour of Node's [path] module) *)

Module Path.

Definition slash : ascii := "/"%char.

(** The segments of a path between separators. *)
Fixpoint segments (s : string) : list string :=
  match s with
  | EmptyString => [""]
  | String c s' =>
      let r := segments s' in
      if Ascii.eqb c slash then "" :: r
      else match r with
           | h :: t => String c h :: t
           | [] => [String c ""]
           end
  end.

(** [normalizeString]: the stack of kept segments, last one first.  Empty
    and ["."] segments are dropped; [".."] removes the last kept segment
    unless there is none or it is itself [".."], in which case it is kept
    only when the path may climb above its start. *)
Fixpoint normalize_segments (allowAboveRoot : bool) (stack : list string)
    (segs : list string) : list string :=
  match segs with
  | [] => stack
  | seg :: rest =>
      if String.eqb seg "" || String.eqb seg "." then
        normalize_segments allowAboveRoot stack rest
      else if String.eqb seg ".." then
        match stack with
        | top :: below =>
            if String.eqb top ".."
            then normalize_segments allowAboveRoot
                   (if allowAboveRoot then ".." :: stack else stack) rest
            else normalize_segments allowAboveRoot below rest
        | [] =>
            normalize_segments allowAboveRoot
              (if allowAboveRoot then [".."] else []) rest
        end
      else normalize_segments allowAboveRoot (seg :: stack) rest
  end.

Definition last_is_slash (s : string) : bool := Str.endsWith s "/".

(** A name that is a single ordinary path segment. *)
Definition simple (name : string) : Prop :=
  Str.has_char slash name = false /\ name <> EmptyString
  /\ name <> "." /\ name <> "..".

(** [path.normalize] *)
Definition normalize (p : string) : string :=
  if String.eqb p "" then "."
  else
    let isAbsolute := Str.startsWith p "/" in
    let trailingSeparator := last_is_slash p in
    let body :=
      Str.join "/" (rev (normalize_segments (negb isAbsolute) [] (segments p))) in
    if String.eqb body "" then
      if isAbsolute then "/" else if trailingSeparator then "./" else "."
    else
      let body' := if trailingSeparator then body +:+ "/" else body in
      if isAbsolute then "/" +:+ body' else body'.

(** [path.join(a, b)]: empty arguments are left out, the others are
    glued with a separator and the result is normalised. *)
Definition join (a b : string) : string :=
  match String.eqb a "", String.eqb b "" with
  | true, true => "."
  | true, false => normalize b
  | false, true => normalize a
  | false, false => normalize (a +:+ "/" +:+ b)
  end.

End Path.

(** ** JSON values and [JSON.stringify(v, null, '  ')] *)

Module Json.

(** The values [JSON.parse] produces, plus [undefined], which a variable
    or a property can hold and which [JSON.stringify] leaves out.  A number
    is carried as the text [JSON.stringify] prints for it; an object is
    the list of its own properties in insertion order. *)
#[warnings="-register-all"]
Inductive json : Type :=
| JUndef
| JNull
| JBool (b : bool)
| JNum (repr : string)
| JStr (s : string)
| JArr (items : list json)
| JObj (fields : list (string * json)).

Definition nl : string := String "010"%char EmptyString.
Definition gap : string := "  ".

Definition hex_digit (n : nat) : ascii :=
  match n with
  | 0 => "0" | 1 => "1" | 2 => "2" | 3 => "3" | 4 => "4" | 5 => "5"
  | 6 => "6" | 7 => "7" | 8 => "8" | 9 => "9" | 10 => "a" | 11 => "b"
  | 12 => "c" | 13 => "d" | 14 => "e" | _ => "f"
  end%char.

(** One character of a quoted string. *)
Definition escape_char (c : ascii) : string :=
  let n := nat_of_ascii c in
  if Ascii.eqb c Str.dq then "\" +:+ Str.dquote
  else if Ascii.eqb c "\"%char then "\\"
  else if Nat.eqb n 8 then "\b"
  else if Nat.eqb n 9 then "\t"
  else if Nat.eqb n 10 then "\n"
  else if Nat.eqb n 12 then "\f"
  else if Nat.eqb n 13 then "\r"
  else if Nat.ltb n 32 then
    "\u00" +:+ String (hex_digit (n / 16)) (String (hex_digit (n mod 16)) EmptyString)
  else String c EmptyString.

Fixpoint escape (s : string) : string :=
  match s with
  | EmptyString => EmptyString
  | String c s' => escape_char c +:+ escape s'
  end.

Definition quote (s : string) : string :=
  Str.dquote +:+ escape s +:+ Str.dquote.

Definition is_undef (v : json) : bool :=
  match v with JUndef => true | _ => false end.

(** The text of a value at a given indentation.  [undefined] prints as
    [null] here (its rendering as an array item); properties holding it
    are filtered out before they get here. *)
Fixpoint print (indent : string) (v : json) : string :=
  match v with
  | JUndef => "null"
  | JNull => "null"
  | JBool true => "true"
  | JBool false => "false"
  | JNum r => r
  | JStr s => quote s
  | JArr items =>
      match items with
      | [] => "[]"
      | _ =>
          let inner := indent +:+ gap in
          "[" +:+ nl +:+ inner
          +:+ Str.join ("," +:+ nl +:+ inner) (map (print inner) items)
          +:+ nl +:+ indent +:+ "]"
      end
  | JObj fields =>
      let inner := indent +:+ gap in
      let shown :=
        flat_map (fun kv : string * json =>
                    let (k, x) := kv in
                    if is_undef x then []
                    else [quote k +:+ ": " +:+ print inner x]) fields in
      match shown with
      | [] => "{}"
      | _ =>
          "{" +:+ nl +:+ inner
          +:+ Str.join ("," +:+ nl +:+ inner) shown
          +:+ nl +:+ indent +:+ "}"
      end
  end.

(** [JSON.stringify(v, null, '  ')]; [None] is the result [undefined]. *)
Definition stringify (v : json) : option string :=
  if is_undef v then None else Some (print EmptyString v).

(** [o[key]] on the property list of an object. *)
Fixpoint obj_get (key : string) (fields : list (string * json)) : json :=
  match fields with
  | [] => JUndef
  | (k, v) :: rest => if String.eqb k key then v else obj_get key rest
  end.

(** [o[key] = v]: an existing property keeps its place, a new one goes
    last. *)
Fixpoint obj_set (key : string) (v : json) (fields : list (string * json))
  : list (string * json) :=
  match fields with
  | [] => [(key, v)]
  | (k, x) :: rest =>
      if String.eqb k key then (k, v) :: rest
      else (k, x) :: obj_set key v rest
  end.

End Json.
Export Json(json(..)).

(** ** Data model *)

(** A maskable icon reference of the configuration. *)
Record MaskableIconRef : Type := mkMaskable {
  src : string;
  sizes : json;
  type : json
}.

(** The parsed configuration file: the properties the program reads.  A
    property that is absent is [None] ([undefined]). *)
Record AppConfig : Type := mkConfig {
  appName : option string;
  appShortDescription : option string;
  appShortName : option string;
  appDescription : option string;
  developerName : option string;
  developerURL : option string;
  background : option string;
  theme_color : option string;
  appleStatusBarStyle : option string;
  display : option string;
  url : option string;
  preview : option string;
  icon : option string;
  maskable_icons : option (list MaskableIconRef);
  ensName : option string;
  base : option string
}.

(** The [options] argument of [generateApp]. *)
Record Options : Type := mkOptions {
  configPath : string;
  templateFilePath : string;
  targetFolder : string;
  cachePath : option string;
  targetFile : option string;
  applicationURL : option string;
  version : option string;
  force : bool
}.

(** The configuration object handed to the favicon renderer. *)
Record FaviconOptions : Type := mkFaviconOptions {
  fo_appName : option string;
  fo_appShortName : option string;
  fo_appDescription : option string;
  fo_developerName : option string;
  fo_developerURL : option string;
  fo_background : option string;
  fo_theme_color : option string;
  fo_appleStatusBarStyle : option string;
  fo_display : option string;
  fo_scope : string;
  fo_start_url : string;
  fo_version : option string;
  fo_logging : bool;
  fo_pixel_art : bool;
  fo_path : string
}.

(** What the favicon renderer hands to its callback: named images, named
    auxiliary files, and HTML fragments. *)
Record FaviconResponse : Type := mkResponse {
  images : list (string * string);
  files : list (string * string);
  html : list string
}.

(** The two arguments of the renderer's callback: an error, or a response. *)
Inductive FavResult : Type :=
| FavError (e : string)
| FavOk (response : FaviconResponse).

(** The object the template is invoked with. *)
Record RenderContext : Type := mkRender {
  rc_title : string;
  rc_metaTags : string;
  rc_favicons : string;
  rc_metaTagsAndFavicons : string
}.

(** ** The filesystem and the outside world *)

(** A path names a file, with its content and modification time in
    milliseconds, or a directory.  Paths are compared as the strings the
    program builds, so that two spellings of one path are two paths here:
    what is said below about the paths a run leaves alone is said of runs
    whose paths are spelled in one way. *)
Inductive Node : Type :=
| File (content : string) (mtime : Z)
| Dir (mtime : Z).

Definition node_mtime (n : Node) : Z :=
  match n with
  | File _ t => t
  | Dir t => t
  end.

(** What the program calls but does not define. *)
Record World : Type := mkWorld {
  (** the successive readings of the wall clock, in milliseconds *)
  date_now : nat -> Z;
  (** [JSON.parse] of the configuration text, read at the type [AppConfig];
      [None] when the text is not JSON *)
  parse_config : string -> option AppConfig;
  (** [JSON.parse]; [None] when it throws *)
  JSON_parse : string -> option json;
  (** compiling a Handlebars template and applying it; [None] when it throws *)
  handlebars : string -> RenderContext -> option string;
  (** paths the filesystem lets the process create or overwrite *)
  writable : string -> bool;
  (** paths whose times the filesystem lets the process set *)
  touchable : string -> bool;
  (** whether [writeFileSync(path, undefined)] writes the text [undefined]
      (old Node releases) instead of throwing *)
  write_undefined : bool
}.

(** Observable effects, in the order they happen. *)
Inductive Effect : Type :=
| EStdout (msg : string)
| EConsoleLog (msg : string)
| EConsoleError (msg : string)
| EConsoleWarn (msg : string)
| EMkdir (path : string)
| EWrite (path content : string)
| EUtimes (path : string) (seconds : Z)
| EFavicons (icon : option string) (config : FaviconOptions)
| ESetTimeout (ms : Z)
| EClearTimeout.

Record State : Type := mkState {
  fs : gmap string Node;
  trace : list Effect;
  ticks : nat
}.

Inductive Error : Type :=
| FsError (op path : string)
| TypeError (msg : string)
| SyntaxError (msg : string)
| TemplateError (msg : string)
| FaviconFailure (e : string).

(** How a computation ends: with a value, with an exception, with
    [process.exit], or waiting for ever on a promise that never settles. *)
Inductive result (A : Type) : Type :=
| Ok (a : A)
| Throw (e : Error)
| Exit (code : Z)
| Hang.
Arguments Ok {A} a.
Arguments Throw {A} e.
Arguments Exit {A} code.
Arguments Hang {A}.

(** ** The state-and-exception monad of the program *)

Definition M (A : Type) : Type := State -> result A * State.

Definition ret {A} (a : A) : M A := fun st => (Ok a, st).

Definition bind {A B} (m : M A) (k : A -> M B) : M B :=
  fun st =>
    match m st with
    | (Ok a, st') => k a st'
    | (Throw e, st') => (Throw e, st')
    | (Exit c, st') => (Exit c, st')
    | (Hang, st') => (Hang, st')
    end.

Notation "x <- m ;; k" := (bind m (fun x => k))
  (at level 63, m at next level, right associativity).
Notation "m ;;; k" := (bind m (fun _ => k))
  (at level 63, right associativity).

Definition throw {A} (e : Error) : M A := fun st => (Throw e, st).
Definition process_exit {A} (code : Z) : M A := fun st => (Exit code, st).
Definition hang {A} : M A := fun st => (Hang, st).

(** [try { m } catch (e) { h e }] *)
Definition try_catch {A} (m : M A) (h : Error -> M A) : M A :=
  fun st =>
    match m st with
    | (Throw e, st') => h e st'
    | other => other
    end.

Definition emit (e : Effect) : M unit :=
  fun st => (Ok tt, mkState (fs st) (trace st ++ [e]) (ticks st)).

(** [for (const x of l) { body x }] *)
Fixpoint for_each {A} (l : list A) (body : A -> M unit) : M unit :=
  match l with
  | [] => ret tt
  | x :: rest => body x ;;; for_each rest body
  end.

(** [l.map(f)] for an effectful [f]. *)
Fixpoint map_M {A B} (f : A -> M B) (l : list A) : M (list B) :=
  match l with
  | [] => ret []
  | x :: rest => y <- f x ;; ys <- map_M f rest ;; ret (y :: ys)
  end.

Section Primitives.

Variable W : World.

(** [Date.now()] *)
Definition Date_now : M Z :=
  fun st => (Ok (date_now W (ticks st)), mkState (fs st) (trace st) (S (ticks st))).

Definition print (message : string) : M unit := emit (EStdout message).
Definition console_log (message : string) : M unit := emit (EConsoleLog message).
Definition console_error (message : string) : M unit := emit (EConsoleError message).
Definition console_warn (message : string) : M unit := emit (EConsoleWarn message).

(** [fs.existsSync] *)
Definition existsSync (p : string) : M bool :=
  fun st => (Ok (bool_decide (is_Some (fs st !! p))), st).

(** [fs.readFileSync(p).toString()] *)
Definition readFileSync (p : string) : M string :=
  fun st =>
    match fs st !! p with
    | Some (File c _) => (Ok c, st)
    | _ => (Throw (FsError "readFileSync" p), st)
    end.

(** [fs.statSync(p).mtime.getTime()] *)
Definition stat_mtime (p : string) : M Z :=
  fun st =>
    match fs st !! p with
    | Some n => (Ok (node_mtime n), st)
    | None => (Throw (FsError "statSync" p), st)
    end.

(** [fs.writeFileSync(p, content)]: the file is created or replaced and
    stamped with the current time, unless [p] is a directory or the
    filesystem refuses the write. *)
Definition writeFileSync (p content : string) : M unit :=
  fun st =>
    match fs st !! p with
    | Some (Dir _) => (Throw (FsError "writeFileSync" p), st)
    | _ =>
        if writable W p then
          (Ok tt,
           mkState (<[p := File content (date_now W (ticks st))]> (fs st))
                   (trace st ++ [EWrite p content])
                   (S (ticks st)))
        else (Throw (FsError "writeFileSync" p), st)
    end.

(** [fs.writeFileSync(p, JSON.stringify(..))], whose second argument may
    be [undefined]. *)
Definition writeFileSync_opt (p : string) (content : option string) : M unit :=
  match content with
  | Some c => writeFileSync p c
  | None =>
      if write_undefined W then writeFileSync p "undefined"
      else throw (TypeError "data must be a string or a buffer")
  end.

(** [fs.ensureDirSync(p)] *)
Definition ensureDirSync (p : string) : M unit :=
  fun st =>
    match fs st !! p with
    | Some (Dir _) => (Ok tt, st)
    | Some (File _ _) => (Throw (FsError "ensureDirSync" p), st)
    | None =>
        if writable W p then
          (Ok tt,
           mkState (<[p := Dir (date_now W (ticks st))]> (fs st))
                   (trace st ++ [EMkdir p])
                   (S (ticks st)))
        else (Throw (FsError "ensureDirSync" p), st)
    end.

(** [fs.utimesSync(p, t, t)] with [t] in seconds: it fails on a path
    that does not exist, and on one whose times the filesystem does not
    let the process set. *)
Definition utimesSync (p : string) (t : Z) : M unit :=
  fun st =>
    if touchable W p then
      match fs st !! p with
      | Some (File c _) =>
          (Ok tt, mkState (<[p := File c (t * 1000)]> (fs st))
                          (trace st ++ [EUtimes p t]) (ticks st))
      | Some (Dir _) =>
          (Ok tt, mkState (<[p := Dir (t * 1000)]> (fs st))
                          (trace st ++ [EUtimes p t]) (ticks st))
      | None => (Throw (FsError "utimesSync" p), st)
      end
    else (Throw (FsError "utimesSync" p), st).

End Primitives.

(** ** [generateFavicons]

    The function returns a promise and leaves two things running: the
    renderer call and a 30000 ms timeout.  What happens next is decided by
    the order in which the event loop delivers the renderer's callbacks and
    the timeout; that order is the [list Event] the model is run on. *)

Inductive Promise : Type :=
| Pending
| Fulfilled (r : list string)
| Rejected (e : Error).

Record Orchestrator : Type := mkOrch {
  (** the variable [timer] holds a handle (is truthy) *)
  timer : bool;
  (** the timeout is still queued in the event loop *)
  scheduled : bool;
  (** the promise [generateFavicons] returns *)
  promise : Promise;
  (** the first renderer call has not called back yet *)
  first_running : bool;
  (** the retry has been issued and has not called back yet *)
  retry_running : bool
}.

Inductive Event : Type :=
| FirstDone (r : FavResult)
| TimerFires
| RetryDone (r : FavResult).

Definition timeout_ms : Z := 30000.

Section GenerateFavicons.

Variable W : World.
Variables (exportFolder : string) (icon : option string) (config : FaviconOptions).

(** The two loops of the renderer callback that copy the response to the
    export folder.  The path of an entry is the export folder, a slash and
    the name as the response gives it; where a name with a slash or with
    dots would lead is left to the filesystem and is not followed up
    here. *)
Definition persist (response : FaviconResponse) : M unit :=
  for_each (images response)
    (fun image => writeFileSync W (exportFolder +:+ "/" +:+ fst image) (snd image)) ;;;
  for_each (files response)
    (fun file => writeFileSync W (exportFolder +:+ "/" +:+ fst file) (snd file)).

(** [resolve] of the promise: it settles at most once, and on fulfilment
    the [then] callback prints, and clears the timeout when [timer] is
    still set. *)
Definition resolve (r : list string) (o : Orchestrator) : M Orchestrator :=
  match promise o with
  | Pending =>
      print (" done" +:+ Json.nl) ;;;
      if timer o then
        emit EClearTimeout ;;;
        ret (mkOrch (timer o) false (Fulfilled r) (first_running o) (retry_running o))
      else
        ret (mkOrch (timer o) (scheduled o) (Fulfilled r) (first_running o) (retry_running o))
  | _ => ret o
  end.

(** [reject] of the promise; the [then] callback does not run. *)
Definition reject (e : Error) (o : Orchestrator) : M Orchestrator :=
  match promise o with
  | Pending =>
      ret (mkOrch (timer o) (scheduled o) (Rejected e) (first_running o) (retry_running o))
  | _ => ret o
  end.

(** The callback given to the renderer by [generateFav(resolve, reject)];
    its argument is the [error] it is called with, or the [response]. *)
Definition generateFav
    (resolve' : list string -> Orchestrator -> M Orchestrator)
    (reject' : Error -> Orchestrator -> M Orchestrator)
    (args : Error + FaviconResponse) (o : Orchestrator) : M Orchestrator :=
  match args with
  | inl error => reject' error o
  | inr response => persist response ;;; resolve' (html response) o
  end.

(** How the renderer calls back.  Given a callback [next], it ends with
    [.then((response) => next(null, response)).catch(next)]: an error of
    its own goes to the callback, and so does an exception thrown while
    the callback handles a response, because the callback is an [async]
    function and the promise it returns, once rejected, is what [catch]
    sees.  The second call follows the first before any timeout can
    fire. *)
Definition called_back
    (next : Error + FaviconResponse -> Orchestrator -> M Orchestrator)
    (r : FavResult) (o : Orchestrator) : M Orchestrator :=
  match r with
  | FavError e => next (inl (FaviconFailure e)) o
  | FavOk response =>
      try_catch (next (inr response) o) (fun error => next (inl error) o)
  end.

(** The wrappers the first attempt is given. *)
Definition guarded_resolve (r : list string) (o : Orchestrator) : M Orchestrator :=
  if timer o then resolve r o else ret o.
Definition guarded_reject (e : Error) (o : Orchestrator) : M Orchestrator :=
  if timer o then reject e o else ret o.

(** The executor of the promise: arm the timeout, start the first call. *)
Definition start : M Orchestrator :=
  emit (ESetTimeout timeout_ms) ;;;
  emit (EFavicons icon config) ;;;
  ret (mkOrch true true Pending true false).

(** One turn of the event loop.  An event that cannot happen in the
    current state (a callback of a call that is not running, a timeout that
    is not queued) changes nothing. *)
Definition on_event (ev : Event) (o : Orchestrator) : M Orchestrator :=
  match ev with
  | FirstDone r =>
      if first_running o then
        let o1 := mkOrch (timer o) (scheduled o) (promise o) false (retry_running o) in
        called_back (generateFav guarded_resolve guarded_reject) r o1
      else ret o
  | TimerFires =>
      if scheduled o then
        console_log "timed out, retrying..." ;;;
        emit (EFavicons icon config) ;;;
        ret (mkOrch false false (promise o) (first_running o) true)
      else ret o
  | RetryDone r =>
      if retry_running o then
        let o1 := mkOrch (timer o) (scheduled o) (promise o) (first_running o) false in
        called_back (generateFav resolve reject) r o1
      else ret o
  end.

(** The event loop delivering a whole schedule. *)
Fixpoint run_events (sched : list Event) (o : Orchestrator) : M Orchestrator :=
  match sched with
  | [] => ret o
  | ev :: rest => o' <- on_event ev o ;; run_events rest o'
  end.

(** [await] on the returned promise: the caller resumes as soon as the
    promise settles, and never if the schedule ends before that. *)
Fixpoint await (sched : list Event) (o : Orchestrator) : M (list string) :=
  match promise o with
  | Fulfilled r => ret r
  | Rejected e => throw e
  | Pending =>
      match sched with
      | [] => hang
      | ev :: rest => o' <- on_event ev o ;; await rest o'
      end
  end.

Definition generateFavicons (sched : list Event) : M (list string) :=
  print "generating favicons..." ;;;
  o <- start ;;
  await sched o.

End GenerateFavicons.

(** ** [makeHtmlAttributes] and [generateBasicIndexHTML] *)

Definition findSrc : string := Eval cbv in ("src=" +:+ Str.dquote +:+ "/").
Definition findHref : string := Eval cbv in ("href=" +:+ Str.dquote +:+ "/").
Definition findContent : string := Eval cbv in ("content=" +:+ Str.dquote +:+ "/").
Definition findDirect : string := Eval cbv in (Str.dquote +:+ "/").

(** An attribute object: its keys in order, each with its value. *)
Definition Attributes : Type := list (string * option string).

Definition makeHtmlAttributes (attributes : Attributes) : string :=
  fold_left
    (fun result kv =>
       result +:+ " " +:+ fst kv +:+ "=" +:+ Str.dquote +:+ Str.of_opt (snd kv) +:+ Str.dquote)
    attributes EmptyString.

Section GenerateBasicIndexHTML.

Variable W : World.

(** The three replacements applied to both blobs when a base is set.  The
    replacement text is put in as it is written, which is what [replace]
    does with a base that holds no dollar sign. *)
Definition rebase (base blob : string) : string :=
  Str.replace_all findContent ("content=" +:+ Str.dquote +:+ base)
    (Str.replace_all findHref ("href=" +:+ Str.dquote +:+ base)
       (Str.replace_all findSrc ("src=" +:+ Str.dquote +:+ base) blob)).

Definition generateBasicIndexHTML (templateFilePath folder title : string)
    (meta : list Attributes) (faviconsOutput : list string)
    (targetFile : option string) (base : option string) : M unit :=
  print "generating html..." ;;;
  templateContent <- readFileSync templateFilePath ;;
  let favicons :=
    fold_left (fun acc faviconHTML => acc +:+ faviconHTML +:+ Json.nl)
              faviconsOutput EmptyString in
  let metas :=
    Str.join Json.nl
      (map (fun input => "<meta" +:+ makeHtmlAttributes input +:+ ">") meta) in
  let metaTags := metas +:+ Json.nl +:+ Json.nl in
  let rebased :=
    match base with
    | Some b => negb (String.eqb b "/")
    | None => false
    end in
  let favicons' := if rebased then rebase (Str.of_opt base) favicons else favicons in
  let metaTags' := if rebased then rebase (Str.of_opt base) metaTags else metaTags in
  let metaTagsAndFavicons := metaTags' +:+ Json.nl +:+ favicons' in
  newHTMLString <-
    match handlebars W templateContent
            (mkRender title metaTags' favicons' metaTagsAndFavicons) with
    | Some text => ret text
    | None => throw (TemplateError "template")
    end ;;
  let dest :=
    if Str.truthy_opt targetFile then Str.of_opt targetFile
    else Path.join folder "index.html" in
  writeFileSync W dest newHTMLString ;;;
  print (" done" +:+ Json.nl).

End GenerateBasicIndexHTML.

(** ** [replaceRootPaths] *)

(** The two replacement texts. *)
Definition relSrc : string := Eval cbv in ("src=" +:+ Str.dquote +:+ "../").
Definition relDirect : string := Eval cbv in (Str.dquote +:+ "../").

(** The patterns and the replacement texts without their first character. *)
Definition src_tail : string := Eval cbv in Str.drop 1 findSrc.
Definition src_rtail : string := Eval cbv in Str.drop 1 relSrc.
Definition direct_tail : string := Eval cbv in Str.drop 1 findDirect.
Definition direct_rtail : string := Eval cbv in Str.drop 1 relDirect.

(** [file.endsWith('.html') || file.endsWith('.xml')] *)
Definition is_markup (file : string) : bool :=
  Str.endsWith file ".html" || Str.endsWith file ".xml".

Section ReplaceRootPaths.

Variable W : World.

(** The rewriting applied to the content of a listed file. *)
Definition rewrite_content (file content : string) : string :=
  if is_markup file
  then Str.replace_all findSrc relSrc content
  else Str.replace_all findDirect relDirect content.

(** One turn of the loop. *)
Definition rewrite_one (folder file : string) : M unit :=
  let filepath := Path.join folder file in
  present <- existsSync filepath ;;
  if present then
    content <- readFileSync filepath ;;
    writeFileSync W filepath (rewrite_content file content)
  else ret tt.

Definition replaceRootPaths (folder : string) (files : list string) : M unit :=
  for_each files (rewrite_one folder).

End ReplaceRootPaths.

(** ** The manifest merge of [generateApp] *)

(** [manifest.icons] when it is an array; anything else makes the loop over
    it and the call of [push] on it throw. *)
Definition manifest_icons (manifest : json) : option (list json) :=
  match manifest with
  | JObj fields =>
      match Json.obj_get "icons" fields with
      | JArr icons => Some icons
      | _ => None
      end
  | _ => None
  end.

(** The array [manifest.icons] after its elements were changed in place. *)
Definition set_icons (icons : list json) (manifest : json) : json :=
  match manifest with
  | JObj fields => JObj (Json.obj_set "icons" (JArr icons) fields)
  | other => other
  end.

(** [icon.src] when [icon.src.endsWith] can be called. *)
Definition icon_src (icon : json) : option string :=
  match icon with
  | JObj fields =>
      match Json.obj_get "src" fields with
      | JStr s => Some s
      | _ => None
      end
  | _ => None
  end.

(** [icon.purpose = 'any maskable'] *)
Definition mark_any_maskable (icon : json) : json :=
  match icon with
  | JObj fields => JObj (Json.obj_set "purpose" (JStr "any maskable") fields)
  | other => other
  end.

(** The scan [for (const icon of manifest.icons)]: the icons after the
    scan and the flag [found]; [None] when an element has no string [src]
    (a [TypeError]). *)
Fixpoint scan_icons (suffix : string) (icons : list json) : option (list json * bool) :=
  match icons with
  | [] => Some ([], false)
  | icon :: rest =>
      match icon_src icon with
      | None => None
      | Some s =>
          match scan_icons suffix rest with
          | None => None
          | Some (rest', found) =>
              if Str.endsWith s suffix
              then Some (mark_any_maskable icon :: rest', true)
              else Some (icon :: rest', found)
          end
      end
  end.

(** The entry pushed for a maskable icon that was not found. *)
Definition maskable_entry (maskableIcon : MaskableIconRef) : json :=
  JObj [("src", JStr ("../" +:+ src maskableIcon));
        ("sizes", sizes maskableIcon);
        ("type", type maskableIcon);
        ("purpose", JStr "maskable")].

Definition missing_icon_warning (maskableIconPath : string) : string :=
  "maskable icon file (" +:+ Str.dquote +:+ maskableIconPath +:+ Str.dquote
  +:+ ") does not exist".

Section ManifestMerge.

Variable W : World.
Variable publicFolder : string.

(** The scan, which only runs for a path starting with [pwa]. *)
Definition find_in_manifest (maskableIconPath : string) (manifest : json)
  : M (json * bool) :=
  if Str.startsWith maskableIconPath "pwa" then
    match manifest_icons manifest with
    | None => throw (TypeError "manifest.icons is not iterable")
    | Some icons =>
        match scan_icons ("/" +:+ maskableIconPath) icons with
        | None => throw (TypeError "icon.src.endsWith is not a function")
        | Some (icons', found) => ret (set_icons icons' manifest, found)
        end
    end
  else ret (manifest, false).

(** One turn of the loop over [config.maskable_icons]. *)
Definition merge_icon (maskableIcon : MaskableIconRef) (manifest : json) : M json :=
  let maskableIconPath := Path.join publicFolder (src maskableIcon) in
  present <- existsSync maskableIconPath ;;
  if present then
    scanned <- find_in_manifest maskableIconPath manifest ;;
    if snd scanned then ret (fst scanned)
    else
      match manifest_icons (fst scanned) with
      | None => throw (TypeError "manifest.icons cannot be pushed to")
      | Some icons =>
          ret (set_icons (icons ++ [maskable_entry maskableIcon]) (fst scanned))
      end
  else
    console_warn (missing_icon_warning maskableIconPath) ;;;
    ret manifest.

Fixpoint merge_icons (maskableIcons : list MaskableIconRef) (manifest : json) : M json :=
  match maskableIcons with
  | [] => ret manifest
  | maskableIcon :: rest =>
      manifest' <- merge_icon maskableIcon manifest ;;
      merge_icons rest manifest'
  end.

(** The block guarded by [if (config.maskable_icons)]. *)
Definition merge_manifest (faviconFolder : string)
    (maskableIcons : list MaskableIconRef) : M unit :=
  let manifestPath := Path.join faviconFolder "manifest.json" in
  manifest <-
    try_catch
      (text <- readFileSync manifestPath ;;
       match JSON_parse W text with
       | Some v => ret v
       | None => throw (SyntaxError "JSON.parse")
       end)
      (fun _ =>
         console_error ("failed to parse manifest (" +:+ Str.dquote +:+ manifestPath
                        +:+ Str.dquote +:+ ")") ;;;
         ret JUndef) ;;
  manifest' <- merge_icons maskableIcons manifest ;;
  try_catch
    (writeFileSync_opt W manifestPath (Json.stringify manifest'))
    (fun _ =>
       console_error ("failed to write manifest (" +:+ Str.dquote +:+ manifestPath
                      +:+ Str.dquote +:+ ")")).

End ManifestMerge.

(** ** [generateApp] *)

(** [Math.max(...l)]; [None] stands for the result on no argument, minus
    infinity. *)
Definition Math_max (l : list Z) : option Z :=
  match l with
  | [] => None
  | x :: rest => Some (fold_left Z.max rest x)
  end.

(** [lastTime >= maxTime] *)
Definition time_ge (lastTime : Z) (maxTime : option Z) : bool :=
  match maxTime with
  | None => true
  | Some m => (m <=? lastTime)%Z
  end.

(** The files of the favicon folder whose root paths are rewritten. *)
Definition rewritten_files : list string :=
  ["manifest.json"; "yandex-browser-manifest.json"; "manifest.webapp"; "browserconfig.xml"].

Definition favicon_options (config : AppConfig) (version : option string) : FaviconOptions :=
  {| fo_appName := appName config;
     fo_appShortName := appShortName config;
     fo_appDescription := appDescription config;
     fo_developerName := developerName config;
     fo_developerURL := developerURL config;
     fo_background := background config;
     fo_theme_color := theme_color config;
     fo_appleStatusBarStyle := appleStatusBarStyle config;
     fo_display := display config;
     fo_scope := "/";
     fo_start_url := "/";
     fo_version := version;
     fo_logging := false;
     fo_pixel_art := true;
     fo_path := "/pwa/" |}.

(** [config.url] after the override. *)
Definition effective_url (options : Options) (config : AppConfig) : option string :=
  if Str.truthy_opt (applicationURL options) then applicationURL options
  else url config.

(** The ENS name written to [robots.txt], if any. *)
Definition ens_name (config_url : option string) (config : AppConfig) : option string :=
  let ensName1 :=
    match ensName config with
    | Some n =>
        if Str.truthy n && negb (Str.endsWith n ".eth") then Some (n +:+ ".eth")
        else Some n
    | None => None
    end in
  let ensName2 :=
    if negb (Str.truthy_opt ensName1) then
      match config_url with
      | Some u =>
          if Str.truthy u && (Str.endsWith u ".eth.link" || Str.endsWith u ".eth.limo")
          then Some (Str.take (String.length u - 5) u)
          else ensName1
      | None => ensName1
      end
    else ensName1 in
  match ensName2 with
  | Some n =>
      if Str.truthy n then
        let n1 := if Str.startsWith n "https://" then Str.drop 8 n else n in
        let n2 := if Str.startsWith n1 "http://" then Str.drop 7 n1 else n1 in
        Some n2
      else None
  | None => None
  end.

Definition meta_tags (title : string) (config : AppConfig) (config_url : option string)
    (previewURL : string) : list Attributes :=
  [ [("charset", Some "utf-8")];
    [("name", Some "viewport"); ("content", Some "width=device-width,initial-scale=1")];
    [("name", Some "title"); ("content", Some title)];
    [("name", Some "description"); ("content", appDescription config)];
    [("property", Some "og:type"); ("content", Some "website")];
    [("property", Some "og:url"); ("content", config_url)];
    [("property", Some "og:title"); ("content", Some title)];
    [("property", Some "og:description"); ("content", appDescription config)];
    [("property", Some "og:image"); ("content", Some previewURL)];
    [("property", Some "twitter:card"); ("content", Some "summary_large_image")];
    [("property", Some "twitter:url"); ("content", config_url)];
    [("property", Some "twitter:title"); ("content", Some title)];
    [("property", Some "twitter:description"); ("content", appDescription config)];
    [("property", Some "twitter:image"); ("content", Some previewURL)] ].

(** What the staleness test decides. *)
Inductive Decision : Type :=
| Skip
| Proceed (config : AppConfig) (sources : list string) (CACHE_FILE : string) (now : Z).

Section GenerateApp.

Variable W : World.
Variable options : Options.

Definition publicFolder : string := targetFolder options.

(** The cache marker path. *)
Definition cache_file : M string :=
  if Str.truthy_opt (cachePath options) then ret (Str.of_opt (cachePath options))
  else
    nm <- existsSync "node_modules" ;;
    if nm then ret (Path.join "node_modules" ".prepare-for-web-cache")
    else ret ".prepare-for-web-cache".

(** The array [sources]. *)
Definition sources_of (config : AppConfig) : list string :=
  [configPath options; templateFilePath options]
  ++ (if Str.truthy_opt (icon config) then [Str.of_opt (icon config)] else [])
  ++ match maskable_icons config with
     | Some l => map (fun maskableIcon => Path.join publicFolder (src maskableIcon)) l
     | None => []
     end.

(** The modification time of a source, or the current time when it
    cannot be read. *)
Definition source_time (v : string) : M Z :=
  try_catch (stat_mtime v) (fun _ => Date_now W).

Definition max_time (sources : list string) : M (option Z) :=
  times <- map_M source_time sources ;;
  ret (Math_max times).

Definition last_time (CACHE_FILE : string) : M Z :=
  try_catch (stat_mtime CACHE_FILE) (fun _ => ret 0%Z).

(** From the end of the staleness test to the merged manifest: the
    statements that produce the files of the favicon folder.  The value is
    [faviconsOutput]. *)
Definition prepare_assets (config : AppConfig) (sched : list Event) : M (list string) :=
  let config_url := effective_url options config in
  match ens_name config_url config with
  | Some n => writeFileSync W (Path.join publicFolder "robots.txt") ("Dwebsite: " +:+ n)
  | None => ret tt
  end ;;;
  let faviconFolder := Path.join publicFolder "pwa" in
  ensureDirSync W faviconFolder ;;;
  faviconsOutput <-
    generateFavicons W faviconFolder (icon config)
      (favicon_options config (version options)) sched ;;
  match maskable_icons config with
  | Some maskableIcons => merge_manifest W publicFolder faviconFolder maskableIcons
  | None => ret tt
  end ;;;
  ret faviconsOutput.

(** From the end of the staleness test to the written document. *)
Definition build (config : AppConfig) (sched : list Event) : M unit :=
  let config_url := effective_url options config in
  let title :=
    Str.of_opt (appName config) +:+ " - " +:+ Str.of_opt (appShortDescription config) in
  let previewURL :=
    Str.of_opt config_url +:+ "/"
    +:+ (if Str.truthy_opt (preview config) then Str.of_opt (preview config)
         else "preview.png") in
  faviconsOutput <- prepare_assets config sched ;;
  let faviconFolder := Path.join publicFolder "pwa" in
  replaceRootPaths W faviconFolder rewritten_files ;;;
  generateBasicIndexHTML W (templateFilePath options) publicFolder title
    (meta_tags title config config_url previewURL) faviconsOutput
    (targetFile options) (base config).

(** The statements after [print('caching...')]. *)
Definition commit (sources : list string) (CACHE_FILE : string) (now : Z) : M unit :=
  for_each sources
    (fun source => try_catch (utimesSync W source now) (fun _ => ret tt)) ;;;
  stamp <- Date_now W ;;
  writeFileSync W CACHE_FILE (pretty stamp) ;;;
  utimesSync W CACHE_FILE now.

(** The first two statements: the log line, and the target folder. *)
Definition prologue : M unit :=
  console_log ("preparing from " +:+ configPath options +:+ " to " +:+ publicFolder
               +:+ "...") ;;;
  ensureDirSync W publicFolder.

(** From the checks of the two input files to the staleness test.
    [Skip] is the early [return]; [Proceed] carries the variables the
    rest of the function uses. *)
Definition staleness_test : M Decision :=
  has_config <- existsSync (configPath options) ;;
  if negb has_config then
    console_error ("The " +:+ configPath options
                   +:+ " file is required to prepare the web application") ;;;
    process_exit 1%Z
  else
  has_template <- existsSync (templateFilePath options) ;;
  if negb has_template then
    console_error ("The " +:+ templateFilePath options
                   +:+ " file is required to prepare the web application") ;;;
    process_exit 1%Z
  else
  CACHE_FILE <- cache_file ;;
  t0 <- Date_now W ;;
  let now := (t0 / 1000)%Z in
  text <- readFileSync (configPath options) ;;
  config <-
    match parse_config W text with
    | Some c => ret c
    | None => throw (SyntaxError "JSON.parse")
    end ;;
  let sources := sources_of config in
  maxTime <- max_time sources ;;
  lastTime <- last_time CACHE_FILE ;;
  if negb (force options) && time_ge lastTime maxTime then ret Skip
  else ret (Proceed config sources CACHE_FILE now).

(** The statements up to the staleness test. *)
Definition gate : M Decision := prologue ;;; staleness_test.

Definition generateApp (sched : list Event) : M unit :=
  decision <- gate ;;
  match decision with
  | Skip => ret tt
  | Proceed config sources CACHE_FILE now =>
      build config sched ;;;
      print "caching..." ;;;
      commit sources CACHE_FILE now ;;;
      print ("done" +:+ Json.nl)
  end.

End GenerateApp.

(** ** The command line entry point

    The asynchronous function the file ends with: it reads the parsed
    command line, picks the version, moves to the working directory it is
    given, runs [generateApp] and ends the process. *)

(** [yargs.options({...}).argv]: the options as the parser hands them
    over, the three with a default always present. *)
Record Args : Type := mkArgs {
  arg_config : string;
  arg_template : string;
  arg_target : string;
  arg_targetFile : option string;
  arg_url : option string;
  arg_cache : option string;
  arg_app_version : option string;
  arg_use_package_version : bool;
  arg_cwd : option string;
  arg_force : bool
}.

(** What the entry point takes from the process. *)
Record Process : Type := mkProcess {
  (** [process.env.WEB_APPLICATION_URL] *)
  env_WEB_APPLICATION_URL : option string;
  (** [JSON.parse(text).version] of a package description whose version,
      when present, is a string; [None] when the parse throws *)
  package_version : string -> option (option string);
  (** [process.chdir(dir)]: whatever moving to [dir] does to the paths
      the program uses afterwards *)
  chdir : string -> M unit
}.

Section Main.

Variable P : Process.
Variable W : World.

Definition main (args : Args) (sched : list Event) : M unit :=
  (if arg_use_package_version args && Str.truthy_opt (arg_app_version args) then
     console_error "cannot specify both --use-package-version and --app-version" ;;;
     process_exit 1%Z
   else ret tt) ;;;
  version <-
    (if arg_use_package_version args then
       text <- readFileSync "./package.json" ;;
       match package_version P text with
       | Some v => ret v
       | None => throw (SyntaxError "JSON.parse")
       end
     else if Str.truthy_opt (arg_app_version args) then ret (arg_app_version args)
     else ret None) ;;
  (if Str.truthy_opt (arg_cwd args) then chdir P (Str.of_opt (arg_cwd args))
   else ret tt) ;;;
  generateApp W
    (mkOptions (arg_config args) (arg_template args) (arg_target args)
       (arg_cache args) (arg_targetFile args)
       (if Str.truthy_opt (arg_url args) then arg_url args
        else env_WEB_APPLICATION_URL P)
       version (arg_force args))
    sched ;;;
  console_log "DONE" ;;;
  process_exit 0%Z.

End Main.

(** ** Predicates used in the statements *)

(** A path the filesystem lets the process write a file to. *)
Definition file_writable (W : World) (st : State) (p : string) : Prop :=
  writable W p = true /\ forall t, fs st !! p <> Some (Dir t).


(** The state after a successful [writeFileSync]. *)
Definition written (W : World) (p content : string) (st : State) : State :=
  mkState (<[p := File content (date_now W (ticks st))]> (fs st))
          (trace st ++ [EWrite p content]) (S (ticks st)).

(** A listed path that is absent, or a file that can be overwritten. *)
Definition rewritable (W : World) (st : State) (p : string) : Prop :=
  match fs st !! p with
  | None => True
  | Some (File _ _) => writable W p = true
  | Some (Dir _) => False
  end.

(** Listed names that resolve to one path are of one kind. *)
Definition same_kind (folder : string) (files : list string) : Prop :=
  forall f g, f ∈ files -> g ∈ files ->
              Path.join folder f = Path.join folder g -> is_markup f = is_markup g.

(** The number of renderer calls, and of timeouts armed, in a trace. *)
Fixpoint calls (tr : list Effect) : nat :=
  match tr with
  | [] => 0
  | EFavicons _ _ :: rest => S (calls rest)
  | _ :: rest => calls rest
  end.

Fixpoint timeouts (tr : list Effect) : nat :=
  match tr with
  | [] => 0
  | ESetTimeout _ :: rest => S (timeouts rest)
  | _ :: rest => timeouts rest
  end.

(** The number of times a timeout was cleared in a trace. *)
Fixpoint clears (tr : list Effect) : nat :=
  match tr with
  | [] => 0
  | EClearTimeout :: rest => S (clears rest)
  | _ :: rest => clears rest
  end.

(** The result the retry calls back with, if it does in this schedule. *)
Fixpoint first_retry (sched : list Event) : option FavResult :=
  match sched with
  | [] => None
  | RetryDone r :: _ => Some r
  | _ :: rest => first_retry rest
  end.

(** The files a response asks to write, in the order they are written. *)
Definition response_entries (response : FaviconResponse) : list (string * string) :=
  images response ++ files response.

(** The path a response entry is written to. *)
Definition export_path (exportFolder : string) (entry : string * string) : string :=
  exportFolder +:+ "/" +:+ fst entry.

(** A result that is a value or an exception. *)
Definition settles {A} (r : result A) : Prop :=
  match r with
  | Ok _ | Throw _ => True
  | Exit _ | Hang => False
  end.

(** No directory stands at the path. *)
Definition not_dir (st : State) (p : string) : Prop :=
  forall t, fs st !! p <> Some (Dir t).

(** A computation that neither calls the renderer nor arms a timeout, that
    ends with a value or an exception, and that puts no directory where
    there was none. *)
Definition quiet {A} (m : M A) : Prop :=
  forall st r st',
    m st = (r, st') ->
    calls (trace st') = calls (trace st)
    /\ timeouts (trace st') = timeouts (trace st)
    /\ settles r
    /\ forall p, not_dir st p -> not_dir st' p.

(** Every file of the response can be written to the export folder. *)
Definition exportable (W : World) (exportFolder : string) (st : State)
    (response : FaviconResponse) : Prop :=
  forall entry, entry ∈ response_entries response ->
    writable W (export_path exportFolder entry) = true
    /\ not_dir st (export_path exportFolder entry).

(** The exception of a write of the response that failed. *)
Definition write_error (exportFolder : string) (response : FaviconResponse)
    (e : Error) : Prop :=
  exists entry,
    entry ∈ response_entries response
    /\ e = FsError "writeFileSync" (export_path exportFolder entry).

(** The names of a response are plain file names, so that the files it
    asks to write lie in the export folder. *)
Definition plain_names (response : FaviconResponse) : Prop :=
  forall entry, entry ∈ response_entries response -> Path.simple (fst entry).

(** The response an event delivers, if it delivers one. *)
Definition delivered (ev : Event) : option FaviconResponse :=
  match ev with
  | FirstDone (FavOk response) | RetryDone (FavOk response) => Some response
  | _ => None
  end.

(** Every response of the schedule has plain names. *)
Definition plain_schedule (sched : list Event) : Prop :=
  forall ev response,
    ev ∈ sched -> delivered ev = Some response -> plain_names response.

(** The times the staleness test takes for the sources, in order: the
    modification time of a source that can be examined, and for one that
    cannot the reading of the clock taken in its place, [tick] counting
    the readings taken so far. *)
Fixpoint times_taken (W : World) (files : gmap string Node) (tick : nat)
    (sources : list string) : list Z :=
  match sources with
  | [] => []
  | s :: rest =>
      match files !! s with
      | Some n => node_mtime n :: times_taken W files tick rest
      | None => date_now W tick :: times_taken W files (S tick) rest
      end
  end.

(** No occurrence of [pat] in [a +:+ w] lies across the cut: no proper
    beginning of [pat] ends [a] while the rest of [pat] begins [w]. *)
Definition no_straddle (pat a w : string) : Prop :=
  forall p1 p2,
    pat = p1 +:+ p2 -> p1 <> EmptyString -> p2 <> EmptyString ->
    Str.endsWith a p1 = true -> Str.is_prefix p2 w = true -> False.

(** The three attributes whose root paths [generateBasicIndexHTML] puts
    under the base, each with its opening quote. *)
Definition rebased_attributes : list string :=
  Eval cbv in
    ["src=" +:+ Str.dquote; "href=" +:+ Str.dquote; "content=" +:+ Str.dquote].

(** The file of a maskable icon exists ([fs.existsSync(maskableIconPath)]). *)
Definition present_icon (publicFolder : string) (files : gmap string Node)
    (maskableIcon : MaskableIconRef) : bool :=
  bool_decide (is_Some (files !! Path.join publicFolder (src maskableIcon))).

(** The warning for a maskable icon whose file is missing. *)
Definition missing_icon_effect (publicFolder : string)
    (maskableIcon : MaskableIconRef) : Effect :=
  EConsoleWarn (missing_icon_warning (Path.join publicFolder (src maskableIcon))).

(** The two reports of the manifest merge. *)
Definition parse_failure_report (manifestPath : string) : Effect :=
  EConsoleError ("failed to parse manifest (" +:+ Str.dquote +:+ manifestPath
                 +:+ Str.dquote +:+ ")").
Definition write_failure_report (manifestPath : string) : Effect :=
  EConsoleError ("failed to write manifest (" +:+ Str.dquote +:+ manifestPath
                 +:+ Str.dquote +:+ ")").

(** A path [writeFileSync] fails on: the filesystem refuses the write, or
    a directory stands there. *)
Definition unwritable (W : World) (st : State) (p : string) : Prop :=
  writable W p = false \/ exists t, fs st !! p = Some (Dir t).

(** The value of [CACHE_FILE] on a given filesystem. *)
Definition cache_path_of (options : Options) (st : State) : string :=
  if Str.truthy_opt (cachePath options) then Str.of_opt (cachePath options)
  else if bool_decide (is_Some (fs st !! "node_modules"))
       then Path.join "node_modules" ".prepare-for-web-cache"
       else ".prepare-for-web-cache".

(** The modification time found at a path, zero when nothing is there:
    the value of [lastTime] when the path is that of the cache marker. *)
Definition mtime_at (st : State) (p : string) : Z :=
  match fs st !! p with
  | Some n => node_mtime n
  | None => 0%Z
  end.

(** The log line that opens a run. *)
Definition opening_line (options : Options) : string :=
  "preparing from " +:+ configPath options +:+ " to " +:+ targetFolder options +:+ "...".

(** Following the claims' words: the resolved path of a maskable icon lies
    inside the favicon output subfolder, the folder [pwa] of the target
    folder. *)
Definition in_favicon_folder (publicFolder maskableIconPath : string) : bool :=
  Str.startsWith maskableIconPath (Path.join publicFolder "pwa" +:+ "/").

(** The test of the scan on one manifest entry. *)
Definition matches (suffix : string) (icon : json) : bool :=
  match icon_src icon with
  | Some s => Str.endsWith s suffix
  | None => false
  end.

(** What the scan does to one manifest entry. *)
Definition mark_matching (suffix : string) (icon : json) : json :=
  if matches suffix icon then mark_any_maskable icon else icon.

(** [icon.purpose] *)
Definition purpose_of (icon : json) : json :=
  match icon with
  | JObj fields => Json.obj_get "purpose" fields
  | _ => JUndef
  end.

(** Every entry of the array has a string [src]. *)
Definition well_formed_icons (icons : list json) : Prop :=
  forall icon, icon ∈ icons -> icon_src icon <> None.

(** The paths the build may create or write, for given options: the
    [robots.txt] of the target folder, the favicon folder and everything
    under it, and the document. *)
Definition is_build_output (options : Options) (p : string) : bool :=
  let faviconFolder := Path.join (targetFolder options) "pwa" in
  String.eqb p (Path.join (targetFolder options) "robots.txt")
  || String.eqb p faviconFolder
  || Str.startsWith p (faviconFolder +:+ "/")
  || existsb (fun f => String.eqb p (Path.join faviconFolder f)) rewritten_files
  || String.eqb p (if Str.truthy_opt (targetFile options)
                   then Str.of_opt (targetFile options)
                   else Path.join (targetFolder options) "index.html").

(** The path of the written document. *)
Definition document_path (options : Options) : string :=
  if Str.truthy_opt (targetFile options) then Str.of_opt (targetFile options)
  else Path.join (targetFolder options) "index.html".

(** The path [p] is a file whose text is [c]. *)
Definition holds (st : State) (p c : string) : Prop :=
  exists t, fs st !! p = Some (File c t).

(** The path [p] is a file with the same text in both states, or a file
    in neither. *)
Definition same_text (p : string) (st st' : State) : Prop :=
  forall c, holds st p c <-> holds st' p c.

(** A computation whose every run relates the state before to the state
    after. *)
Definition respects (R : State -> State -> Prop) {A} (m : M A) : Prop :=
  forall st r st', m st = (r, st') -> R st st'.

(** Paths outside [P] keep their node. *)
Definition same_outside (P : string -> Prop) (st st' : State) : Prop :=
  forall p, ~ P p -> fs st' !! p = fs st !! p.

(** The path an effect on the filesystem is about. *)
Definition touched (e : Effect) : option string :=
  match e with
  | EMkdir p | EWrite p _ | EUtimes p _ => Some p
  | _ => None
  end.

(** From one state to the other the trace has only grown, and every
    effect on the filesystem that was added is about a path in [Q]. *)
Definition writes_within (Q : string -> Prop) (st st' : State) : Prop :=
  exists added,
    trace st' = trace st ++ added
    /\ forall e p, e ∈ added -> touched e = Some p -> Q p.

(** The result of a run that stopped before computing a value, at another
    type. *)
Definition failed_as {A} (B : Type) (r : result A) : result B :=
  match r with
  | Ok _ => Hang
  | Throw e => Throw e
  | Exit c => Exit c
  | Hang => Hang
  end.

(** The time the staleness test takes for the source [s]: its
    modification time when it can be examined, a reading of the clock
    otherwise. *)
Definition source_reading (W : World) (st : State) (s : string) (t : Z) : Prop :=
  match fs st !! s with
  | Some n => t = node_mtime n
  | None => exists k, ticks st <= k /\ t = date_now W k
  end.

(** The manifest fragment of the path-rewrite example, before and after. *)
Definition absolute_icon_src : string :=
  Eval cbv in
    (Str.dquote +:+ "src" +:+ Str.dquote +:+ ":" +:+ Str.dquote +:+ "/pwa/icon.png"
     +:+ Str.dquote).
Definition relative_icon_src : string :=
  Eval cbv in
    (Str.dquote +:+ "src" +:+ Str.dquote +:+ ":" +:+ Str.dquote +:+ "../pwa/icon.png"
     +:+ Str.dquote).

(** The manifest properties [scope] and [start_url] as [JSON.stringify]
    prints them, holding the root path and holding the parent path. *)
Definition scope_root : string :=
  Eval cbv in (Json.quote "scope" +:+ ": " +:+ Json.quote "/").
Definition scope_parent : string :=
  Eval cbv in (Json.quote "scope" +:+ ": " +:+ Json.quote "../").
Definition start_url_root : string :=
  Eval cbv in (Json.quote "start_url" +:+ ": " +:+ Json.quote "/").
Definition start_url_parent : string :=
  Eval cbv in (Json.quote "start_url" +:+ ": " +:+ Json.quote "../").

(** ** Sample inputs

    A small world and a few filesystems on which the statements below are
    instantiated. *)

Module Sample.

Definition config_plain : AppConfig :=
  {| appName := Some "App"; appShortDescription := Some "demo";
     appShortName := Some "A"; appDescription := Some "d";
     developerName := None; developerURL := None;
     background := Some "#fff"; theme_color := Some "#000";
     appleStatusBarStyle := None; display := Some "standalone";
     url := Some "https://example.eth.link"; preview := None;
     icon := Some "icon.svg"; maskable_icons := None;
     ensName := None; base := None |}.

Definition maskable : MaskableIconRef :=
  mkMaskable "maskable.png" (JStr "512x512") (JStr "image/png").

Definition config_maskable : AppConfig :=
  {| appName := Some "App"; appShortDescription := Some "demo";
     appShortName := Some "A"; appDescription := Some "d";
     developerName := None; developerURL := None;
     background := Some "#fff"; theme_color := Some "#000";
     appleStatusBarStyle := None; display := Some "standalone";
     url := Some "https://example.com"; preview := None;
     icon := Some "icon.svg"; maskable_icons := Some [maskable];
     ensName := None; base := Some "/app/" |}.

Definition manifest : json :=
  JObj [("name", JStr "App"); ("scope", JStr "/"); ("start_url", JStr "/");
        ("icons", JArr [JObj [("src", JStr "/pwa/a.png"); ("sizes", JStr "1x1")]])].

Definition manifest_text : string := Eval vm_compute in Json.print EmptyString manifest.

Definition browserconfig_text : string :=
  Eval vm_compute in
    ("<logo src=" +:+ Str.dquote +:+ "/pwa/a.png" +:+ Str.dquote +:+ "/>").

Definition world : World :=
  {| date_now := fun k => (1700000000123 + 1000 * Z.of_nat k)%Z;
     parse_config := fun text =>
       if String.eqb text "plain" then Some config_plain
       else if String.eqb text "maskable" then Some config_maskable
       else None;
     JSON_parse := fun text =>
       if String.eqb text manifest_text then Some manifest else None;
     handlebars := fun template context =>
       Some (template +:+ rc_title context +:+ rc_metaTagsAndFavicons context);
     writable := fun _ => true;
     touchable := fun _ => true;
     write_undefined := false |}.

Definition options : Options :=
  mkOptions "application.json" "index.template.html" "public" None None None None false.

Definition forced : Options :=
  mkOptions "application.json" "index.template.html" "public" None None None None true.

(** The inputs of a first build: no target folder, no cache marker. *)
Definition sources_only (config_text : string) : gmap string Node :=
  <["application.json" := File config_text 1000%Z]>
    (<["index.template.html" := File "<html>" 2000%Z]>
       (<["icon.svg" := File "svg" 3000%Z]> ∅)).

Definition fresh_build (config_text : string) : State :=
  mkState (sources_only config_text) [] 0.

(** The same inputs with a cache marker newer than all of them. *)
Definition cached (config_text : string) : State :=
  mkState (<[".prepare-for-web-cache" := File "5000" 5000%Z]>
             (sources_only config_text)) [] 0.

(** A favicon folder as the renderer leaves it. *)
Definition rendered : State :=
  mkState (<["public/pwa/manifest.json" := File manifest_text 4000%Z]>
             (<["public/pwa/browserconfig.xml" := File browserconfig_text 4000%Z]>
                (<["public/pwa" := Dir 4000%Z]> ∅))) [] 0.

Definition response : FaviconResponse :=
  mkResponse [("a.png", "PNG")]
             [("manifest.json", manifest_text); ("browserconfig.xml", browserconfig_text)]
             ["<link rel=icon href=/pwa/a.png>"].

(** A maskable icon kept in the favicon folder. *)
Definition pwa_icon : MaskableIconRef :=
  mkMaskable "pwa/a.png" (JStr "192x192") (JStr "image/png").

(** A manifest whose only icon entry has the given source. *)
Definition manifest_with (icon_source : string) : json :=
  JObj [("icons", JArr [JObj [("src", JStr icon_source)]])].

(** A filesystem holding one file. *)
Definition only_file (p : string) : State :=
  mkState (<[p := File "png" 3000%Z]> ∅) [] 0.

(** A response whose manifest is not JSON. *)
Definition response_with_broken_manifest : FaviconResponse :=
  mkResponse [("a.png", "PNG")]
             [("manifest.json", "{ broken"); ("browserconfig.xml", browserconfig_text)]
             ["<link rel=icon href=/pwa/a.png>"].

(** The inputs of a first build whose configuration declares the
    maskable icon [maskable.png], present in the target folder. *)
Definition first_build_with_icon : State :=
  mkState (<["public/maskable.png" := File "png" 3000%Z]>
             (<["public" := Dir 500%Z]> (sources_only "maskable"))) [] 0.

(** The favicon folder and the orchestrator once the timeout has fired
    and the retry has called back, the first attempt still running. *)
Definition after_retry : result Orchestrator * State :=
  bind (start (Some "icon.svg") (favicon_options config_plain None))
       (run_events world "public/pwa" (Some "icon.svg")
          (favicon_options config_plain None)
          [TimerFires; RetryDone (FavOk response)])
       rendered.

Definition late_orchestrator : Orchestrator :=
  match fst after_retry with
  | Ok o => o
  | _ => mkOrch true true Pending true false
  end.

Definition late_state : State := snd after_retry.

End Sample.

(** Further inputs the later statements are instantiated on. *)

Module Demo.

(** A cached project whose icon has been removed. *)
Definition cached_without_icon : State :=
  mkState (<[".prepare-for-web-cache" := File "5000" 5000%Z]>
             (<["application.json" := File "plain" 1000%Z]>
                (<["index.template.html" := File "<html>" 2000%Z]> ∅))) [] 0.

(** A project with a [node_modules] folder. *)
Definition with_node_modules : State :=
  mkState (<["node_modules" := Dir 100%Z]> (Sample.sources_only "plain")) [] 0.

(** Options that keep the cache marker at the path of that folder. *)
Definition marker_on_folder : Options :=
  mkOptions "application.json" "index.template.html" "public"
            (Some "node_modules") None None None false.

(** A project with a file the build has nothing to do with. *)
Definition with_readme : State :=
  mkState (<["README.md" := File "notes" 100%Z]> (Sample.sources_only "plain")) [] 0.

(** A configuration that names its ENS name, without the [.eth]. *)
Definition config_ens : AppConfig :=
  {| appName := Some "App"; appShortDescription := Some "demo";
     appShortName := Some "A"; appDescription := Some "d";
     developerName := None; developerURL := None;
     background := None; theme_color := None;
     appleStatusBarStyle := None; display := None;
     url := Some "https://example.com"; preview := None;
     icon := Some "icon.svg"; maskable_icons := None;
     ensName := Some "wighawag"; base := None |}.

(** A response whose second image is named like the favicon folder, for
    an export to the target folder of [Sample.rendered]. *)
Definition response_onto_folder : FaviconResponse :=
  mkResponse [("first.png", "PNG"); ("pwa", "PNG")] [] ["<link rel=icon href=/pwa>"].

(** A second maskable icon, whose file is nowhere. *)
Definition absent_icon : MaskableIconRef :=
  mkMaskable "missing.png" (JStr "192x192") (JStr "image/png").

(** A favicon folder as the renderer leaves it, with the file of
    [Sample.maskable] in the target folder. *)
Definition rendered_with_icon : State :=
  mkState (<["public/maskable.png" := File "png" 3000%Z]> (fs Sample.rendered)) [] 0.

(** A command line with nothing but the defaults, and a process that
    stays where it is. *)
Definition default_args : Args :=
  mkArgs "application.json" "index.template.html" "public"
         None None None None false None false.

Definition process : Process :=
  mkProcess None
    (fun text => if String.eqb text "pkg" then Some (Some "1.2.3") else None)
    (fun _ => ret tt).

End Demo.
(* ===================================================================== *)
(** * Part II.  Properties                                                *)
(* ===================================================================== *)

(** ** Strings *)

Module StrFacts.
Import Str.

Lemma app_cons (c : ascii) (a b : string) :
  String c a +:+ b = String c (a +:+ b).
Proof. reflexivity. Qed.

Lemma app_nil_l (b : string) : EmptyString +:+ b = b.
Proof. reflexivity. Qed.

Lemma app_nil_r (s : string) : s +:+ EmptyString = s.
Proof.
  induction s as [|c s IH]; [reflexivity |].
  now rewrite app_cons, IH.
Qed.

Lemma app_assoc (a b c : string) : (a +:+ b) +:+ c = a +:+ (b +:+ c).
Proof.
  induction a as [|x a IH]; [reflexivity |].
  now rewrite !app_cons, IH.
Qed.

Lemma length_app (a b : string) :
  String.length (a +:+ b) = String.length a + String.length b.
Proof.
  induction a as [|x a IH]; [reflexivity |].
  rewrite app_cons. simpl. now rewrite IH.
Qed.

Lemma is_prefix_app (p rest : string) : is_prefix p (p +:+ rest) = true.
Proof.
  induction p as [|c p IH]; [reflexivity |].
  rewrite app_cons. simpl. now rewrite Ascii.eqb_refl.
Qed.

Lemma is_prefix_spec (p s : string) :
  is_prefix p s = true <-> exists rest, s = p +:+ rest.
Proof.
  split.
  - revert s. induction p as [|c p IH]; intros s H.
    + now exists s.
    + destruct s as [|d s]; simpl in H; [discriminate |].
      apply andb_true_iff in H as [Hc Hp].
      apply Ascii.eqb_eq in Hc. subst d.
      destruct (IH _ Hp) as [rest ->]. now exists rest.
  - intros [rest ->]. apply is_prefix_app.
Qed.

Lemma is_prefix_length (p s : string) :
  is_prefix p s = true -> String.length p <= String.length s.
Proof.
  intros H. apply is_prefix_spec in H as [rest ->].
  rewrite length_app. lia.
Qed.

Lemma endsWith_spec (s p : string) :
  endsWith s p = true <-> exists pre, s = pre +:+ p.
Proof.
  split.
  - induction s as [|c s IH]; cbn [endsWith]; intros H.
    + rewrite orb_false_r in H. apply String.eqb_eq in H. subst p.
      now exists EmptyString.
    + apply orb_true_iff in H as [H | H].
      * apply String.eqb_eq in H. subst p. now exists EmptyString.
      * destruct (IH H) as [pre ->]. now exists (String c pre).
  - intros [pre ->]. induction pre as [|c pre IH].
    + rewrite app_nil_l. destruct p; cbn [endsWith];
        rewrite String.eqb_refl; reflexivity.
    + rewrite app_cons. cbn [endsWith]. rewrite IH. apply orb_true_r.
Qed.

(** A string that ends with [a +:+ p] ends with [p]. *)
Lemma endsWith_tail (s a p : string) :
  endsWith s (a +:+ p) = true -> endsWith s p = true.
Proof.
  intros H. apply endsWith_spec in H as [pre ->].
  apply endsWith_spec. exists (pre +:+ a). now rewrite app_assoc.
Qed.

Lemma occurs_spec (pat s : string) :
  occurs pat s = true <-> exists pre post, s = pre +:+ pat +:+ post.
Proof.
  split.
  - induction s as [|c s IH]; cbn [occurs]; intros H.
    + rewrite orb_false_r in H. apply is_prefix_spec in H as [rest ->].
      now exists EmptyString, rest.
    + apply orb_true_iff in H as [H | H].
      * apply is_prefix_spec in H as [rest ->]. now exists EmptyString, rest.
      * destruct (IH H) as (pre & post & ->). now exists (String c pre), post.
  - intros (pre & post & ->). induction pre as [|c pre IH].
    + rewrite app_nil_l.
      destruct (pat +:+ post) eqn:E; cbn [occurs];
        rewrite <- E, is_prefix_app; reflexivity.
    + rewrite app_cons. cbn [occurs]. rewrite IH. apply orb_true_r.
Qed.

Lemma is_prefix_app_l (q a b : string) :
  head_outside q b -> is_prefix q (a +:+ b) = is_prefix q a.
Proof.
  revert a. induction q as [|d q IH]; intros a Hb; [now destruct a |].
  assert (Hq : head_outside q b).
  { destruct b as [|e b]; simpl in *; [exact I |].
    apply orb_false_iff in Hb. tauto. }
  destruct a as [|c a]; simpl.
  - destruct b as [|e b]; simpl in *; [reflexivity |].
    apply orb_false_iff in Hb as [Hb _].
    rewrite Ascii.eqb_sym, Hb. reflexivity.
  - now rewrite IH.
Qed.

(** *** Global replacement of a pattern that begins with a character
        occurring nowhere else in it, by a text beginning with the same
        character. *)
Section Replace.

Variables (c0 : ascii) (ptail rtail : string).
Let pat := String c0 ptail.
Let rep := String c0 rtail.

Hypothesis c0_fresh : has_char c0 ptail = false.
(** No occurrence of the pattern begins inside the replacement text. *)
Hypothesis rep_clean : forall t, occurs pat (rep +:+ t) = occurs pat t.

Lemma is_prefix_back (q s : string) :
  has_char c0 q = false ->
  is_prefix q (replace_all pat rep s) = true -> is_prefix q s = true.
Proof.
  revert s. induction q as [|d q IH]; intros s Hq H; [now destruct s |].
  simpl in Hq. apply orb_false_iff in Hq as [Hd Hq].
  destruct s as [|c s]; [exact H |].
  unfold replace_all in H. simpl in H.
  destruct (Ascii.eqb c0 c && is_prefix ptail s) eqn:Em.
  - simpl in H. rewrite Ascii.eqb_sym, Hd in H. discriminate.
  - fold (replace_all pat rep s) in H. simpl in H |- *.
    apply andb_true_iff in H as [H1 H2]. rewrite H1. simpl.
    now apply IH.
Qed.

(** After the replacement the pattern occurs nowhere. *)
Lemma replace_from_clean (s : string) (k : nat) :
  occurs pat (replace_from pat rep k s) = false.
Proof.
  revert k. induction s as [|c s IH]; intros k; [reflexivity |].
  destruct k as [|k]; [| apply IH].
  cbn [replace_from].
  destruct (is_prefix pat (String c s)) eqn:Em.
  - rewrite rep_clean. apply IH.
  - cbn [occurs]. rewrite IH, orb_false_r.
    destruct (is_prefix pat (String c (replace_from pat rep 0 s))) eqn:E;
      [| reflexivity].
    unfold pat in E, Em. simpl in E, Em.
    apply andb_true_iff in E as [E1 E2].
    rewrite E1 in Em. simpl in Em.
    apply (is_prefix_back ptail s c0_fresh) in E2. congruence.
Qed.

Lemma replace_all_clean (s : string) : occurs pat (replace_all pat rep s) = false.
Proof. apply replace_from_clean. Qed.

(** A text without the pattern is left as it is. *)
Lemma replace_all_id (s : string) :
  occurs pat s = false -> replace_all pat rep s = s.
Proof.
  unfold replace_all. induction s as [|c s IH]; intros H; [reflexivity |].
  cbn [occurs] in H. apply orb_false_iff in H as [H1 H2].
  cbn [replace_from]. rewrite H1. now rewrite IH.
Qed.

Lemma replace_all_idem (s : string) :
  replace_all pat rep (replace_all pat rep s) = replace_all pat rep s.
Proof. apply replace_all_id, replace_all_clean. Qed.

(** The replacement works piecewise, provided no match can straddle
    the cut. *)
Lemma replace_from_app (a b : string) (k : nat) :
  head_outside ptail b -> k <= String.length a ->
  replace_from pat rep k (a +:+ b)
  = replace_from pat rep k a +:+ replace_from pat rep 0 b.
Proof.
  intros Hb. revert k. induction a as [|c a IH]; intros k Hk.
  - simpl in Hk. now replace k with 0 by lia.
  - destruct k as [|k].
    + change (String c a +:+ b) with (String c (a +:+ b)).
      cbn [replace_from].
      assert (E : is_prefix pat (String c (a +:+ b)) = is_prefix pat (String c a)).
      { unfold pat. simpl. now rewrite is_prefix_app_l. }
      rewrite E. destruct (is_prefix pat (String c a)) eqn:Em.
      * apply is_prefix_length in Em. simpl in Em.
        rewrite IH by (simpl; lia). now rewrite app_assoc.
      * now rewrite IH by lia.
    + simpl. apply IH. simpl in Hk. lia.
Qed.

Lemma replace_all_app (a b : string) :
  head_outside ptail b ->
  replace_all pat rep (a +:+ b) = replace_all pat rep a +:+ replace_all pat rep b.
Proof. intros Hb. apply replace_from_app; [exact Hb | lia]. Qed.

(** Once a match has been replaced, its characters are passed over. *)
Lemma replace_from_skip (q b : string) :
  replace_from pat rep (String.length q) (q +:+ b) = replace_from pat rep 0 b.
Proof.
  induction q as [|d q IH]; [reflexivity |].
  rewrite app_cons. exact IH.
Qed.

(** The text around an occurrence of the pattern is rewritten on its own,
    and the occurrence becomes the replacement text. *)
Lemma replace_all_at (a b : string) :
  replace_all pat rep (a +:+ (pat +:+ b))
  = replace_all pat rep a +:+ (rep +:+ replace_all pat rep b).
Proof.
  rewrite replace_all_app by (unfold pat; rewrite app_cons; exact c0_fresh).
  f_equal. unfold replace_all, pat. rewrite app_cons. cbn [replace_from].
  fold pat. change (String c0 (ptail +:+ b)) with (pat +:+ b).
  rewrite is_prefix_app. f_equal.
  replace (String.length pat - 1) with (String.length ptail)
    by (unfold pat; simpl; lia).
  apply replace_from_skip.
Qed.

(** The first character of a text beginning with [c0] stays. *)
Lemma replace_all_head (t : string) :
  exists u, replace_all pat rep (String c0 t) = String c0 u.
Proof.
  unfold replace_all. cbn [replace_from].
  destruct (is_prefix pat (String c0 t)); eauto.
Qed.

End Replace.

End StrFacts.

(** ** The two rewriting patterns of [replaceRootPaths] *)

Module Patterns.
Import Str StrFacts.

Lemma src_rep_clean (t : string) :
  occurs findSrc (relSrc +:+ t) = occurs findSrc t.
Proof. reflexivity. Qed.

Lemma direct_rep_clean (t : string) :
  occurs findDirect (relDirect +:+ t) = occurs findDirect t.
Proof. reflexivity. Qed.

Lemma src_clean (s : string) :
  occurs findSrc (replace_all findSrc relSrc s) = false.
Proof.
  exact (replace_all_clean "s" src_tail src_rtail eq_refl src_rep_clean s).
Qed.

Lemma direct_clean (s : string) :
  occurs findDirect (replace_all findDirect relDirect s) = false.
Proof.
  exact (replace_all_clean dq direct_tail direct_rtail eq_refl direct_rep_clean s).
Qed.

Lemma src_idem (s : string) :
  replace_all findSrc relSrc (replace_all findSrc relSrc s)
  = replace_all findSrc relSrc s.
Proof.
  exact (replace_all_idem "s" src_tail src_rtail eq_refl src_rep_clean s).
Qed.

Lemma direct_idem (s : string) :
  replace_all findDirect relDirect (replace_all findDirect relDirect s)
  = replace_all findDirect relDirect s.
Proof.
  exact (replace_all_idem dq direct_tail direct_rtail eq_refl direct_rep_clean s).
Qed.

Lemma src_at (a b : string) :
  replace_all findSrc relSrc (a +:+ (findSrc +:+ b))
  = replace_all findSrc relSrc a +:+ (relSrc +:+ replace_all findSrc relSrc b).
Proof. exact (replace_all_at "s" src_tail src_rtail eq_refl a b). Qed.

Lemma direct_at (a b : string) :
  replace_all findDirect relDirect (a +:+ (findDirect +:+ b))
  = replace_all findDirect relDirect a
    +:+ (relDirect +:+ replace_all findDirect relDirect b).
Proof. exact (replace_all_at dq direct_tail direct_rtail eq_refl a b). Qed.

Lemma src_id (s : string) :
  occurs findSrc s = false -> replace_all findSrc relSrc s = s.
Proof. exact (replace_all_id "s" src_tail src_rtail s). Qed.

Lemma direct_id (s : string) :
  occurs findDirect s = false -> replace_all findDirect relDirect s = s.
Proof. exact (replace_all_id dq direct_tail direct_rtail s). Qed.

Lemma direct_app (a b : string) :
  head_outside direct_tail b ->
  replace_all findDirect relDirect (a +:+ b)
  = replace_all findDirect relDirect a +:+ replace_all findDirect relDirect b.
Proof.
  exact (replace_all_app dq direct_tail direct_rtail a b).
Qed.

Lemma direct_head (t : string) :
  exists u, replace_all findDirect relDirect (String dq t) = String dq u.
Proof. exact (replace_all_head dq direct_tail direct_rtail t). Qed.

(** A quoted text [k] (given here without its closing quote) that occurs
    in [s] occurs rewritten in the rewriting of [s]. *)
Lemma direct_keeps_quoted (k s : string) :
  occurs (String dq k +:+ dquote) s = true ->
  occurs (replace_all findDirect relDirect (String dq k) +:+ dquote)
         (replace_all findDirect relDirect s) = true.
Proof.
  intros H. apply occurs_spec in H as (pre & post & ->).
  apply occurs_spec.
  rewrite !app_assoc.
  rewrite (direct_app pre) by reflexivity.
  change (dquote +:+ post) with (String dq post).
  rewrite (direct_app (String dq k)) by reflexivity.
  destruct (direct_head post) as [u ->].
  exists (replace_all findDirect relDirect pre), u.
  now rewrite !app_assoc.
Qed.

End Patterns.

(** ** Running the monad *)

Lemma bind_Ok {A B} (m : M A) (k : A -> M B) (st st1 : State) (a : A) :
  m st = (Ok a, st1) -> bind m k st = k a st1.
Proof. intros H. unfold bind. now rewrite H. Qed.

Lemma bind_Throw {A B} (m : M A) (k : A -> M B) (st st1 : State) (e : Error) :
  m st = (Throw e, st1) -> bind m k st = (Throw e, st1).
Proof. intros H. unfold bind. now rewrite H. Qed.

Lemma bind_Exit {A B} (m : M A) (k : A -> M B) (st st1 : State) (c : Z) :
  m st = (Exit c, st1) -> bind m k st = (Exit c, st1).
Proof. intros H. unfold bind. now rewrite H. Qed.

Lemma bind_Hang {A B} (m : M A) (k : A -> M B) (st st1 : State) :
  m st = (Hang, st1) -> bind m k st = (Hang, st1).
Proof. intros H. unfold bind. now rewrite H. Qed.

Lemma bind_assoc {A B C} (m : M A) (k1 : A -> M B) (k2 : B -> M C) (st : State) :
  bind (bind m k1) k2 st = bind m (fun a => bind (k1 a) k2) st.
Proof. unfold bind. destruct (m st) as [[a | e | c |] st1]; reflexivity. Qed.

(** A computation that is bound to a continuation and returns went through
    the continuation. *)
Lemma bind_inv_Ok {A B} (m : M A) (k : A -> M B) (st st' : State) (b : B) :
  bind m k st = (Ok b, st') ->
  exists a st1, m st = (Ok a, st1) /\ k a st1 = (Ok b, st').
Proof.
  unfold bind. destruct (m st) as [[a | e | c |] st1]; intros H;
    try discriminate. eauto.
Qed.

Lemma readFileSync_file (p c : string) (t : Z) (st : State) :
  fs st !! p = Some (File c t) -> readFileSync p st = (Ok c, st).
Proof. intros H. unfold readFileSync. now rewrite H. Qed.

Lemma writeFileSync_ok (W : World) (p content : string) (st : State) :
  file_writable W st p ->
  writeFileSync W p content st = (Ok tt, written W p content st).
Proof.
  intros [Hw Hd]. unfold writeFileSync, written.
  destruct (fs st !! p) as [[c t | t] |] eqn:E; rewrite ?Hw; try reflexivity.
  now destruct (Hd t).
Qed.

(** ** [replaceRootPaths] (claim C7) *)

Section ReplaceRootPathsFacts.

Variable W : World.
Variable folder : string.

Lemma rewrite_content_kind (f g c : string) :
  is_markup f = is_markup g -> rewrite_content f c = rewrite_content g c.
Proof. unfold rewrite_content. now intros ->. Qed.

Lemma rewrite_content_idem (f c : string) :
  rewrite_content f (rewrite_content f c) = rewrite_content f c.
Proof.
  unfold rewrite_content. destruct (is_markup f).
  - apply Patterns.src_idem.
  - apply Patterns.direct_idem.
Qed.

Lemma rewrite_one_absent (file : string) (st : State) :
  fs st !! Path.join folder file = None -> rewrite_one W folder file st = (Ok tt, st).
Proof.
  intros H. unfold rewrite_one, bind, existsSync. simpl. rewrite H.
  rewrite bool_decide_eq_false_2; [reflexivity |].
  intros [x Hx]. discriminate.
Qed.

Lemma rewrite_one_file (file c : string) (t : Z) (st : State) :
  fs st !! Path.join folder file = Some (File c t) ->
  writable W (Path.join folder file) = true ->
  rewrite_one W folder file st
  = (Ok tt, written W (Path.join folder file) (rewrite_content file c) st).
Proof.
  intros H Hw. unfold rewrite_one, bind, existsSync. simpl. rewrite H.
  rewrite bool_decide_eq_true_2 by eauto.
  rewrite (readFileSync_file _ _ _ _ H).
  apply writeFileSync_ok. split; [exact Hw |]. intros t'. rewrite H. discriminate.
Qed.

Lemma replaceRootPaths_cons (file : string) (rest : list string) (st : State) :
  replaceRootPaths W folder (file :: rest) st
  = bind (rewrite_one W folder file) (fun _ => replaceRootPaths W folder rest) st.
Proof. reflexivity. Qed.

Lemma replaceRootPaths_loop (files : list string) :
  same_kind folder files ->
  forall st,
    (forall f, f ∈ files -> rewritable W st (Path.join folder f)) ->
    exists st',
      replaceRootPaths W folder files st = (Ok tt, st')
      /\ (forall p, (forall f, f ∈ files -> Path.join folder f <> p) ->
                    fs st' !! p = fs st !! p)
      /\ (forall f c t, f ∈ files -> fs st !! Path.join folder f = Some (File c t) ->
                        exists t', fs st' !! Path.join folder f
                                   = Some (File (rewrite_content f c) t'))
      /\ (forall f, f ∈ files -> fs st !! Path.join folder f = None ->
                    fs st' !! Path.join folder f = None).
Proof.
  induction files as [|f0 rest IH]; intros Hkind st Hok.
  - exists st. split; [reflexivity |]. split; [reflexivity |].
    split; intros f; intros; exfalso; eapply not_elem_of_nil; eauto.
  - set (p0 := Path.join folder f0).
    assert (Hkind' : same_kind folder rest).
    { intros f g Hf Hg. apply Hkind; now apply list_elem_of_further. }
    assert (H0 : rewritable W st p0) by (apply Hok, list_elem_of_here).
    unfold rewritable in H0.
    destruct (fs st !! p0) as [[c0 t0 | t0] |] eqn:E0; [| contradiction |].
    + (* the first file is present: it is rewritten, then the rest *)
      set (st1 := written W p0 (rewrite_content f0 c0) st).
      assert (Hst1 : forall p, p <> p0 -> fs st1 !! p = fs st !! p).
      { intros p Hp. unfold st1, written. simpl. now rewrite lookup_insert_ne. }
      assert (Hst1' : fs st1 !! p0
                      = Some (File (rewrite_content f0 c0) (date_now W (ticks st)))).
      { unfold st1, written. simpl. now rewrite lookup_insert_eq. }
      destruct (IH Hkind' st1) as (st' & Hrun & HA & HB & HC).
      { intros f Hf. unfold rewritable.
        destruct (decide (Path.join folder f = p0)) as [-> | Hne].
        - now rewrite Hst1'.
        - rewrite (Hst1 _ Hne). apply Hok. now apply list_elem_of_further. }
      exists st'. split.
      { rewrite replaceRootPaths_cons.
        rewrite (bind_Ok _ _ _ _ _ (rewrite_one_file _ _ _ _ E0 H0)). exact Hrun. }
      assert (Hp0 : exists t', fs st' !! p0 = Some (File (rewrite_content f0 c0) t')).
      { destruct (decide (p0 ∈ (Path.join folder <$> rest))) as [Hin | Hout].
        - apply list_elem_of_fmap in Hin as (g & Hg & Hgin).
          assert (Hg1 : fs st1 !! Path.join folder g
                        = Some (File (rewrite_content f0 c0) (date_now W (ticks st))))
            by (rewrite <- Hg; exact Hst1').
          destruct (HB g _ _ Hgin Hg1) as [t' Ht'].
          exists t'. rewrite Hg. rewrite Ht'. f_equal. f_equal.
          rewrite (rewrite_content_kind g f0).
          + apply rewrite_content_idem.
          + symmetry. apply Hkind;
              [apply list_elem_of_here | now apply list_elem_of_further | exact Hg].
        - exists (date_now W (ticks st)). rewrite HA; [exact Hst1' |].
          intros f Hf Heq. apply Hout. apply list_elem_of_fmap. eauto. }
      split; [| split].
      * intros p Hp. rewrite HA.
        -- apply Hst1. intros ->. eapply Hp; [apply list_elem_of_here | reflexivity].
        -- intros f Hf. apply Hp. now apply list_elem_of_further.
      * intros f c t Hf Hfc.
        destruct (decide (Path.join folder f = p0)) as [Heq | Hne].
        -- rewrite Heq in Hfc |- *. fold p0 in E0.
           assert (c = c0) by congruence. subst c.
           destruct Hp0 as [t' Ht']. exists t'. rewrite Ht'. f_equal. f_equal.
           apply rewrite_content_kind. symmetry.
           apply Hkind; [exact Hf | apply list_elem_of_here | exact Heq].
        -- apply elem_of_cons in Hf as [-> | Hf]; [now destruct Hne |].
           apply (HB f c t Hf). now rewrite Hst1.
      * intros f Hf Hnone.
        destruct (decide (Path.join folder f = p0)) as [Heq | Hne].
        -- rewrite Heq in Hnone. fold p0 in E0. congruence.
        -- apply elem_of_cons in Hf as [-> | Hf]; [now destruct Hne |].
           apply (HC f Hf). now rewrite Hst1.
    + (* the first file is absent: it is skipped *)
      destruct (IH Hkind' st) as (st' & Hrun & HA & HB & HC).
      { intros f Hf. apply Hok. now apply list_elem_of_further. }
      exists st'. split.
      { rewrite replaceRootPaths_cons.
        rewrite (bind_Ok _ _ _ _ _ (rewrite_one_absent _ _ E0)). exact Hrun. }
      assert (Hp0 : fs st' !! p0 = None).
      { destruct (decide (p0 ∈ (Path.join folder <$> rest))) as [Hin | Hout].
        - apply list_elem_of_fmap in Hin as (g & Hg & Hgin).
          rewrite Hg. apply HC; [exact Hgin |]. now rewrite <- Hg.
        - rewrite HA; [exact E0 |].
          intros f Hf Heq. apply Hout. apply list_elem_of_fmap. eauto. }
      split; [| split].
      * intros p Hp. apply HA. intros f Hf. apply Hp. now apply list_elem_of_further.
      * intros f c t Hf Hfc.
        apply elem_of_cons in Hf as [-> | Hf]; [fold p0 in Hfc; congruence |].
        now apply (HB f c t).
      * intros f Hf Hnone.
        apply elem_of_cons in Hf as [-> | Hf]; [exact Hp0 |].
        now apply HC.
Qed.

End ReplaceRootPathsFacts.

Lemma replaceRootPaths_rewrites_listed_files_aux
    (W : World) (folder : string) (files : list string) (st : State) :
  (forall f, f ∈ files -> rewritable W st (Path.join folder f)) ->
  same_kind folder files ->
  exists st',
    replaceRootPaths W folder files st = (Ok tt, st')
    /\ (forall f c t,
           f ∈ files -> fs st !! Path.join folder f = Some (File c t) ->
           exists t',
             fs st' !! Path.join folder f = Some (File (rewrite_content f c) t'))
    /\ (forall f,
           f ∈ files -> fs st !! Path.join folder f = None ->
           fs st' !! Path.join folder f = None)
    /\ (forall p,
           (forall f, f ∈ files -> Path.join folder f <> p) ->
           fs st' !! p = fs st !! p).
Proof.
  intros Hok Hkind.
  destruct (replaceRootPaths_loop W folder files Hkind st Hok)
    as (st' & Hrun & HA & HB & HC).
  exists st'. auto.
Qed.

(** C7.  [replaceRootPaths] rewrites in place each listed file that is
    present.  A file whose name ends in [.html] or [.xml] has every
    occurrence of the text src= quote slash replaced by src= quote dot dot
    slash; any other file has every occurrence of quote slash replaced by
    quote dot dot slash.  Every occurrence is replaced: an occurrence
    becomes the replacement and the texts before and after it are rewritten
    in the same way, a text without the pattern is left as it is, and
    afterwards the pattern occurs nowhere in the file.  A [manifest.json]
    that contained the icon reference [absolute_icon_src] contains
    [relative_icon_src].  A listed file that is absent stays absent without
    an error, and a path that is not listed keeps its node.  The listed
    paths that are present must be files the filesystem lets the process
    overwrite, and names resolving to one path must be of one kind. *)
Theorem replaceRootPaths_rewrites_listed_files
    (W : World) (folder : string) (files : list string) (st : State) :
  let src_root := "src=" +:+ Str.dquote +:+ "/" in
  let src_up := "src=" +:+ Str.dquote +:+ "../" in
  let root := Str.dquote +:+ "/" in
  let up := Str.dquote +:+ "../" in
  let markup := fun f => Str.endsWith f ".html" || Str.endsWith f ".xml" in
  (forall f, f ∈ files -> rewritable W st (Path.join folder f)) ->
  (forall f g, f ∈ files -> g ∈ files ->
               Path.join folder f = Path.join folder g -> markup f = markup g) ->
  exists st',
    replaceRootPaths W folder files st = (Ok tt, st')
    /\ (forall f c t,
           f ∈ files -> fs st !! Path.join folder f = Some (File c t) ->
           exists t',
             fs st' !! Path.join folder f
             = Some (File (if markup f
                           then Str.replace_all src_root src_up c
                           else Str.replace_all root up c) t'))
    /\ (forall pattern replacement,
           (pattern = src_root /\ replacement = src_up)
           \/ (pattern = root /\ replacement = up) ->
           (forall a b,
              Str.replace_all pattern replacement (a +:+ (pattern +:+ b))
              = Str.replace_all pattern replacement a
                +:+ (replacement +:+ Str.replace_all pattern replacement b))
           /\ (forall c, Str.occurs pattern c = false ->
                         Str.replace_all pattern replacement c = c)
           /\ (forall c,
                 Str.occurs pattern (Str.replace_all pattern replacement c) = false))
    /\ (forall c t,
           "manifest.json" ∈ files ->
           fs st !! Path.join folder "manifest.json" = Some (File c t) ->
           Str.occurs absolute_icon_src c = true ->
           exists c' t',
             fs st' !! Path.join folder "manifest.json" = Some (File c' t')
             /\ Str.occurs relative_icon_src c' = true)
    /\ (forall f,
           f ∈ files -> fs st !! Path.join folder f = None ->
           fs st' !! Path.join folder f = None)
    /\ (forall p,
           (forall f, f ∈ files -> Path.join folder f <> p) ->
           fs st' !! p = fs st !! p).
Proof.
  intros src_root src_up root up markup Hok Hkind.
  destruct (replaceRootPaths_loop W folder files Hkind st Hok)
    as (st' & Hrun & HA & HB & HC).
  exists st'. split; [exact Hrun |]. split; [exact HB |].
  split; [| split; [| split]].
  - intros pattern replacement [[-> ->] | [-> ->]].
    + split; [exact Patterns.src_at |].
      split; [exact Patterns.src_id | exact Patterns.src_clean].
    + split; [exact Patterns.direct_at |].
      split; [exact Patterns.direct_id | exact Patterns.direct_clean].
  - intros c t Hin Hfile Hocc.
    destruct (HB "manifest.json" c t Hin Hfile) as [t' Ht'].
    eexists _, t'. split; [exact Ht' |].
    exact (Patterns.direct_keeps_quoted
             (Str.drop 1 (Str.take 20 absolute_icon_src)) c Hocc).
  - exact HC.
  - exact HA.
Qed.

Lemma replaceRootPaths_rewrites_listed_files_witness :
  exists st',
    replaceRootPaths Sample.world "public/pwa" rewritten_files Sample.rendered
    = (Ok tt, st')
    /\ (exists t',
          fs st' !! "public/pwa/browserconfig.xml"
          = Some (File ("<logo src=" +:+ Str.dquote +:+ "../pwa/a.png"
                        +:+ Str.dquote +:+ "/>") t'))
    /\ (exists t',
          fs st' !! "public/pwa/manifest.json"
          = Some (File (Json.print EmptyString
                          (JObj [("name", JStr "App"); ("scope", JStr "../");
                                 ("start_url", JStr "../");
                                 ("icons",
                                  JArr [JObj [("src", JStr "../pwa/a.png");
                                              ("sizes", JStr "1x1")]])]))
                       t'))
    /\ fs st' !! "public/pwa/manifest.webapp" = None.
Proof.
  destruct (replaceRootPaths_rewrites_listed_files
              Sample.world "public/pwa" rewritten_files Sample.rendered)
    as (st' & Hrun & Hfiles & _ & _ & Habsent & _).
  - intros f Hf. unfold rewritten_files in Hf.
    repeat (apply elem_of_cons in Hf as [-> | Hf]); try (vm_compute; tauto).
    now apply elem_of_nil in Hf.
  - intros f g Hf Hg Heq. unfold rewritten_files in Hf, Hg.
    repeat (apply elem_of_cons in Hf as [-> | Hf]);
      repeat (apply elem_of_cons in Hg as [-> | Hg]);
      try reflexivity; try (now apply elem_of_nil in Hf);
      try (now apply elem_of_nil in Hg); vm_compute in Heq; discriminate.
  - exists st'. split; [exact Hrun |]. split; [| split].
    + destruct (Hfiles "browserconfig.xml" Sample.browserconfig_text 4000%Z)
        as [t' Ht'].
      * unfold rewritten_files. set_solver.
      * reflexivity.
      * exists t'.
        change (Path.join "public/pwa" "browserconfig.xml")
          with "public/pwa/browserconfig.xml" in Ht'.
        rewrite Ht'. vm_compute. reflexivity.
    + destruct (Hfiles "manifest.json" Sample.manifest_text 4000%Z) as [t' Ht'].
      * apply list_elem_of_here.
      * reflexivity.
      * exists t'.
        change (Path.join "public/pwa" "manifest.json")
          with "public/pwa/manifest.json" in Ht'.
        rewrite Ht'. vm_compute. reflexivity.
    + apply (Habsent "manifest.webapp"); [unfold rewritten_files; set_solver |].
      reflexivity.
Defined.

(** ** [path.join] with a plain file name *)

Module PathFacts.
Import Str StrFacts Path.

Lemma segments_nonempty (s : string) : segments s <> [].
Proof.
  induction s as [|c s IH]; simpl; [discriminate |].
  destruct (Ascii.eqb c slash); [discriminate |].
  destruct (segments s); [contradiction | discriminate].
Qed.

Lemma segments_app (a b : string) :
  segments (a +:+ String slash b) = segments a ++ segments b.
Proof.
  induction a as [|c a IH]; [reflexivity |].
  rewrite app_cons. cbn [segments]. rewrite IH.
  destruct (Ascii.eqb c slash); [reflexivity |].
  pose proof (segments_nonempty a) as Hne.
  destruct (segments a); [contradiction | reflexivity].
Qed.

Lemma segments_simple (name : string) :
  has_char slash name = false -> segments name = [name].
Proof.
  induction name as [|c name IH]; intros H; [reflexivity |].
  cbn [has_char] in H. apply orb_false_iff in H as [Hc Hn].
  cbn [segments]. rewrite Ascii.eqb_sym, Hc, (IH Hn). reflexivity.
Qed.

Lemma normalize_segments_app (b : bool) (l1 l2 stack : list string) :
  normalize_segments b stack (l1 ++ l2)
  = normalize_segments b (normalize_segments b stack l1) l2.
Proof.
  revert stack. induction l1 as [|seg l1 IH]; intros stack; [reflexivity |].
  cbn [app normalize_segments].
  destruct (String.eqb seg "" || String.eqb seg "."); [apply IH |].
  destruct (String.eqb seg ".."); [| apply IH].
  destruct stack as [|top below]; [apply IH |].
  destruct (String.eqb top ".."); apply IH.
Qed.

Lemma normalize_segments_simple (b : bool) (stack : list string) (name : string) :
  simple name -> normalize_segments b stack [name] = name :: stack.
Proof.
  intros (_ & H1 & H2 & H3). cbn [normalize_segments].
  apply String.eqb_neq in H1, H2, H3. now rewrite H1, H2, H3.
Qed.

Lemma join_snoc (sep : string) (l : list string) (x : string) :
  Str.join sep (l ++ [x])
  = match l with
    | [] => x
    | _ => Str.join sep l +:+ sep +:+ x
    end.
Proof.
  induction l as [|y l IH]; [reflexivity |].
  cbn [app Str.join]. rewrite IH.
  destruct l as [|z l]; [reflexivity |].
  cbn [app]. now rewrite !app_assoc.
Qed.

Lemma endsWith_slash_app (a b : string) :
  b <> EmptyString -> endsWith (a +:+ b) "/" = endsWith b "/".
Proof.
  intros Hb. induction a as [|c a IH]; [reflexivity |].
  rewrite app_cons. cbn [endsWith]. rewrite IH.
  destruct (String.eqb_spec (String c (a +:+ b)) "/") as [E | _]; [| reflexivity].
  injection E as _ E. destruct a; [| discriminate]. now destruct Hb.
Qed.

Lemma endsWith_slash_simple (name : string) :
  has_char slash name = false -> endsWith name "/" = false.
Proof.
  induction name as [|c name IH]; intros H; [reflexivity |].
  cbn [has_char] in H. apply orb_false_iff in H as [Hc Hn].
  cbn [endsWith]. rewrite (IH Hn), orb_false_r.
  apply String.eqb_neq. intros E. injection E as -> _.
  now rewrite Ascii.eqb_refl in Hc.
Qed.

Lemma app_not_empty (a b : string) : b <> EmptyString -> a +:+ b <> EmptyString.
Proof. intros Hb. destruct a; [exact Hb | discriminate]. Qed.

(** Normalising a path that ends in a plain name keeps the name at the
    end, after a text that depends only on what came before it. *)
Lemma normalize_simple (segs : list string) (abs : bool) :
  exists pre, forall (p name : string),
    simple name ->
    p <> EmptyString ->
    startsWith p "/" = abs ->
    segments p = segs ++ [name] ->
    last_is_slash p = false ->
    normalize p = pre +:+ name.
Proof.
  set (stack := normalize_segments (negb abs) [] segs).
  exists ((if abs then "/" else "")
          +:+ match rev stack with
              | [] => ""
              | _ => Str.join "/" (rev stack) +:+ "/"
              end).
  intros p name Hs Hp Habs Hsegs Hlast.
  unfold normalize.
  apply String.eqb_neq in Hp. rewrite Hp, Habs, Hlast, Hsegs.
  rewrite normalize_segments_app, (normalize_segments_simple _ _ _ Hs).
  fold stack. cbn [rev]. rewrite join_snoc.
  assert (Hname : name <> EmptyString) by apply Hs.
  assert (Hbody : forall pre, String.eqb (pre +:+ name) "" = false).
  { intros pre. apply String.eqb_neq. now apply app_not_empty. }
  destruct (rev stack) as [|y l].
  - assert (H0 : String.eqb name "" = false) by now apply String.eqb_neq.
    rewrite H0. destruct abs; reflexivity.
  - rewrite <- app_assoc, Hbody. destruct abs; now rewrite ?app_assoc.
Qed.

(** [path.join(folder, name)] is a text that depends on the folder alone,
    followed by the name. *)
Lemma join_simple (folder : string) :
  exists pre, forall name, simple name -> join folder name = pre +:+ name.
Proof.
  destruct (String.eqb_spec folder "") as [-> | Hf].
  - destruct (normalize_simple [] false) as [pre Hpre].
    exists pre. intros name Hs. unfold join.
    assert (Hname : name <> EmptyString) by apply Hs.
    apply String.eqb_neq in Hname. rewrite Hname. simpl.
    apply String.eqb_neq in Hname.
    apply Hpre; try assumption.
    + destruct name as [|c name]; [contradiction |].
      destruct Hs as (Hc & _). cbn [has_char] in Hc.
      apply orb_false_iff in Hc as [Hc _].
      unfold startsWith. cbn [is_prefix]. unfold slash in Hc. now rewrite Hc.
    + apply segments_simple, Hs.
    + apply endsWith_slash_simple, Hs.
  - destruct (normalize_simple (segments folder) (startsWith folder "/")) as [pre Hpre].
    exists pre. intros name Hs. unfold join.
    assert (Hname : name <> EmptyString) by apply Hs.
    apply String.eqb_neq in Hf. rewrite Hf.
    apply String.eqb_neq in Hname. rewrite Hname.
    apply String.eqb_neq in Hname, Hf.
    apply Hpre; try assumption.
    + apply app_not_empty, app_not_empty, Hname.
    + destruct folder; [contradiction | reflexivity].
    + change ("/" +:+ name) with (String slash name).
      rewrite segments_app, (segments_simple name); [reflexivity | apply Hs].
    + unfold last_is_slash.
      rewrite endsWith_slash_app by (apply app_not_empty, Hname).
      rewrite endsWith_slash_app by exact Hname.
      apply endsWith_slash_simple, Hs.
Qed.

(** Different plain names in one folder are different paths. *)
Lemma join_simple_inj (folder n1 n2 : string) :
  simple n1 -> simple n2 -> join folder n1 = join folder n2 -> n1 = n2.
Proof.
  intros H1 H2. destruct (join_simple folder) as [pre Hpre].
  rewrite (Hpre _ H1), (Hpre _ H2). apply String.app_inj.
Qed.

End PathFacts.

(** ** [JSON.stringify] shows the properties of an object *)

Module JsonFacts.
Import Str StrFacts.

Lemma print_obj (indent : string) (fields : list (string * json)) :
  Json.print indent (JObj fields)
  = let inner := indent +:+ Json.gap in
    let shown :=
      flat_map (fun kv : string * json =>
                  let (k, x) := kv in
                  if Json.is_undef x then []
                  else [Json.quote k +:+ ": " +:+ Json.print inner x]) fields in
    match shown with
    | [] => "{}"
    | _ => "{" +:+ Json.nl +:+ inner
           +:+ Str.join ("," +:+ Json.nl +:+ inner) shown
           +:+ Json.nl +:+ indent +:+ "}"
    end.
Proof. reflexivity. Qed.

Lemma join_has (sep x : string) (l : list string) :
  In x l -> exists pre post, Str.join sep l = pre +:+ x +:+ post.
Proof.
  induction l as [|y l IH]; intros H; [contradiction |].
  destruct H as [-> | H].
  - destruct l as [|z l].
    + exists EmptyString, EmptyString. cbn [Str.join].
      now rewrite app_nil_l, app_nil_r.
    + exists EmptyString, (sep +:+ Str.join sep (z :: l)). reflexivity.
  - destruct (IH H) as (pre & post & E).
    destruct l as [|z l]; [contradiction |].
    exists (y +:+ sep +:+ pre), post.
    cbn [Str.join]. cbn [Str.join] in E. rewrite E. now rewrite !app_assoc.
Qed.

Lemma field_shown (inner key : string) (fields : list (string * json)) :
  Json.is_undef (Json.obj_get key fields) = false ->
  In (Json.quote key +:+ ": " +:+ Json.print inner (Json.obj_get key fields))
     (flat_map (fun kv : string * json =>
                  let (k, x) := kv in
                  if Json.is_undef x then []
                  else [Json.quote k +:+ ": " +:+ Json.print inner x]) fields).
Proof.
  induction fields as [|[k x] rest IH]; intros H; [discriminate |].
  cbn [Json.obj_get flat_map] in *. apply in_or_app.
  destruct (String.eqb_spec k key) as [-> | Hne].
  - left. rewrite H. now left.
  - right. now apply IH.
Qed.

(** A property that is set is printed, with its value, in the text of the
    object. *)
Lemma print_has_field (indent key : string) (fields : list (string * json)) :
  Json.is_undef (Json.obj_get key fields) = false ->
  occurs (Json.quote key +:+ ": "
          +:+ Json.print (indent +:+ Json.gap) (Json.obj_get key fields))
         (Json.print indent (JObj fields)) = true.
Proof.
  intros H. rewrite print_obj. cbv zeta.
  pose proof (field_shown (indent +:+ Json.gap) key fields H) as Hin.
  set (shown := flat_map _ fields) in *.
  destruct (join_has ("," +:+ Json.nl +:+ (indent +:+ Json.gap)) _ _ Hin)
    as (pre & post & E).
  destruct shown as [|s0 shown']; [contradiction |].
  rewrite E. apply occurs_spec.
  exists ("{" +:+ Json.nl +:+ (indent +:+ Json.gap) +:+ pre),
         (post +:+ Json.nl +:+ indent +:+ "}").
  now rewrite !app_assoc.
Qed.

Lemma occurs_trans (a b s : string) :
  occurs a b = true -> occurs b s = true -> occurs a s = true.
Proof.
  intros Hab Hbs.
  apply occurs_spec in Hab as (p1 & q1 & ->).
  apply occurs_spec in Hbs as (p2 & q2 & ->).
  apply occurs_spec. exists (p2 +:+ p1), (q1 +:+ q2).
  now rewrite !app_assoc.
Qed.

End JsonFacts.

(** ** The manifest's [scope] and [start_url] under the rewriting (claim C9) *)

Lemma rewritten_files_simple (f : string) : f ∈ rewritten_files -> Path.simple f.
Proof.
  intros Hf. unfold rewritten_files in Hf.
  repeat (apply elem_of_cons in Hf as [-> | Hf]);
    try (now apply elem_of_nil in Hf);
    (split; [reflexivity | repeat split; discriminate]).
Qed.

Lemma rewritten_files_same_kind (folder : string) : same_kind folder rewritten_files.
Proof.
  intros f g Hf Hg Heq.
  f_equal. eapply PathFacts.join_simple_inj; eauto using rewritten_files_simple.
Qed.

(** The text of a manifest whose [scope] and [start_url] are the root
    path, once rewritten as [manifest.json] is: both hold the parent path,
    neither the root path. *)
Lemma rewritten_manifest_text (fields : list (string * json)) :
  Json.obj_get "scope" fields = JStr "/" ->
  Json.obj_get "start_url" fields = JStr "/" ->
  let text := rewrite_content "manifest.json" (Json.print EmptyString (JObj fields)) in
  Str.occurs scope_parent text = true
  /\ Str.occurs start_url_parent text = true.
Proof.
  intros Hscope Hstart.
  change (rewrite_content "manifest.json" (Json.print EmptyString (JObj fields)))
    with (Str.replace_all findDirect relDirect (Json.print EmptyString (JObj fields))).
  set (text := Json.print EmptyString (JObj fields)).
  assert (H1 : Str.occurs scope_root text = true).
  { pose proof (JsonFacts.print_has_field EmptyString "scope" fields) as H.
    rewrite Hscope in H. exact (H eq_refl). }
  assert (H2 : Str.occurs start_url_root text = true).
  { pose proof (JsonFacts.print_has_field EmptyString "start_url" fields) as H.
    rewrite Hstart in H. exact (H eq_refl). }
  cbv zeta. split.
  - exact (Patterns.direct_keeps_quoted
             (Str.drop 1 (Str.take 11 scope_root)) text H1).
  - exact (Patterns.direct_keeps_quoted
             (Str.drop 1 (Str.take 15 start_url_root)) text H2).
Qed.

(** A text rewritten as [manifest.json] holds no quoted root path, so
    neither a [scope] nor a [start_url] that is the root path. *)
Lemma rewritten_manifest_clean (c : string) :
  let text := rewrite_content "manifest.json" c in
  Str.occurs scope_root text = false /\ Str.occurs start_url_root text = false.
Proof.
  change (rewrite_content "manifest.json" c)
    with (Str.replace_all findDirect relDirect c).
  assert (Hclean : forall a, Str.occurs findDirect a = true ->
                             Str.occurs a (Str.replace_all findDirect relDirect c) = false).
  { intros a Ha.
    destruct (Str.occurs a (Str.replace_all findDirect relDirect c)) eqn:E;
      [| reflexivity].
    pose proof (JsonFacts.occurs_trans _ _ _ Ha E) as Hbad.
    now rewrite Patterns.direct_clean in Hbad. }
  cbv zeta. split; now apply Hclean.
Qed.

(** ** [generateFavicons]: the promise, the timeout and the retry *)

Section GenerateFaviconsFacts.

Variable W : World.
Variables (exportFolder : string) (icon : option string) (config : FaviconOptions).


Lemma calls_app (a b : list Effect) : calls (a ++ b) = calls a + calls b.
Proof.
  induction a as [|e a IH]; [reflexivity |].
  destruct e; simpl; rewrite IH; reflexivity.
Qed.

Lemma timeouts_app (a b : list Effect) : timeouts (a ++ b) = timeouts a + timeouts b.
Proof.
  induction a as [|e a IH]; [reflexivity |].
  destruct e; simpl; rewrite IH; reflexivity.
Qed.

Lemma clears_app (a b : list Effect) : clears (a ++ b) = clears a + clears b.
Proof.
  induction a as [|e a IH]; [reflexivity |].
  destruct e; simpl; rewrite IH; reflexivity.
Qed.

Lemma quiet_ret {A} (a : A) : quiet (ret a).
Proof. intros st r st' [= <- <-]. simpl. auto. Qed.

Lemma quiet_bind {A B} (m : M A) (k : A -> M B) :
  quiet m -> (forall a, quiet (k a)) -> quiet (bind m k).
Proof.
  intros Hm Hk st r st' H. unfold bind in H.
  destruct (m st) as [[a | e | c |] st1] eqn:E;
    pose proof (Hm _ _ _ E) as (H1 & H2 & H3 & H4).
  - destruct (Hk a _ _ _ H) as (H5 & H6 & H7 & H8).
    repeat split; try congruence. auto.
  - injection H as <- <-. auto.
  - contradiction.
  - contradiction.
Qed.

Lemma quiet_try_catch {A} (m : M A) (h : Error -> M A) :
  quiet m -> (forall e, quiet (h e)) -> quiet (try_catch m h).
Proof.
  intros Hm Hh st r st' H. unfold try_catch in H.
  destruct (m st) as [[a | e | c |] st1] eqn:E;
    pose proof (Hm _ _ _ E) as (H1 & H2 & H3 & H4).
  - injection H as <- <-. auto.
  - destruct (Hh e _ _ _ H) as (H5 & H6 & H7 & H8).
    repeat split; try congruence. auto.
  - contradiction.
  - contradiction.
Qed.

Lemma quiet_emit (e : Effect) :
  calls [e] = 0 -> timeouts [e] = 0 -> quiet (emit e).
Proof.
  intros Hc Ht st r st' [= <- <-]. simpl.
  rewrite calls_app, timeouts_app, Hc, Ht. repeat split; try lia. auto.
Qed.

Lemma quiet_writeFileSync (p c : string) : quiet (writeFileSync W p c).
Proof.
  intros st r st' H. unfold writeFileSync in H.
  assert (Hw : forall q, not_dir st q ->
                 not_dir (mkState (<[p := File c (date_now W (ticks st))]> (fs st))
                                  (trace st ++ [EWrite p c]) (S (ticks st))) q).
  { intros q Hq t. simpl. destruct (decide (p = q)) as [-> | Hne].
    - rewrite lookup_insert_eq. discriminate.
    - rewrite lookup_insert_ne by exact Hne. apply Hq. }
  destruct (fs st !! p) as [[? ? | ?] |]; try (injection H as <- <-; simpl; auto);
    destruct (writable W p); injection H as <- <-; simpl;
    rewrite ?calls_app, ?timeouts_app; simpl; auto with lia.
Qed.

Lemma quiet_for_each {A} (l : list A) (body : A -> M unit) :
  (forall x, quiet (body x)) -> quiet (for_each l body).
Proof.
  intros Hb. induction l as [|x l IH]; [apply quiet_ret |].
  apply quiet_bind; [apply Hb | intros _; exact IH].
Qed.

Lemma quiet_persist (response : FaviconResponse) : quiet (persist W exportFolder response).
Proof.
  apply quiet_bind; [| intros _];
    apply quiet_for_each; intros x; apply quiet_writeFileSync.
Qed.

Lemma quiet_resolve (r : list string) (o : Orchestrator) : quiet (resolve r o).
Proof.
  unfold resolve. destruct (promise o); try apply quiet_ret.
  apply quiet_bind; [now apply quiet_emit | intros _].
  destruct (timer o); [| apply quiet_ret].
  apply quiet_bind; [now apply quiet_emit | intros _; apply quiet_ret].
Qed.

Lemma quiet_reject (e : Error) (o : Orchestrator) : quiet (reject e o).
Proof. unfold reject. destruct (promise o); apply quiet_ret. Qed.

Lemma quiet_generateFav resolve' reject' (args : Error + FaviconResponse)
    (o : Orchestrator) :
  (forall h o, quiet (resolve' h o)) -> (forall e o, quiet (reject' e o)) ->
  quiet (generateFav W exportFolder resolve' reject' args o).
Proof.
  intros Hres Hrej. destruct args as [e | response]; [apply Hrej |].
  apply quiet_bind; [apply quiet_persist | intros _; apply Hres].
Qed.

Lemma quiet_called_back next (r : FavResult) (o : Orchestrator) :
  (forall args o, quiet (next args o)) -> quiet (called_back next r o).
Proof.
  intros Hnext. destruct r as [e | response]; [apply Hnext |].
  apply quiet_try_catch; [apply Hnext | intros e; apply Hnext].
Qed.

Lemma quiet_guarded_resolve (r : list string) (o : Orchestrator) :
  quiet (guarded_resolve r o).
Proof.
  unfold guarded_resolve. destruct (timer o); [apply quiet_resolve | apply quiet_ret].
Qed.

Lemma quiet_guarded_reject (e : Error) (o : Orchestrator) :
  quiet (guarded_reject e o).
Proof.
  unfold guarded_reject. destruct (timer o); [apply quiet_reject | apply quiet_ret].
Qed.

(** The callbacks of the two attempts. *)
Lemma quiet_first_callback (r : FavResult) (o : Orchestrator) :
  quiet (called_back (generateFav W exportFolder guarded_resolve guarded_reject) r o).
Proof.
  apply quiet_called_back. intros args o'.
  apply quiet_generateFav; [apply quiet_guarded_resolve | apply quiet_guarded_reject].
Qed.

Lemma quiet_retry_callback (r : FavResult) (o : Orchestrator) :
  quiet (called_back (generateFav W exportFolder resolve reject) r o).
Proof.
  apply quiet_called_back. intros args o'.
  apply quiet_generateFav; [apply quiet_resolve | apply quiet_reject].
Qed.

End GenerateFaviconsFacts.

(** ** Copying a response to the export folder *)

Lemma for_each_app {A} (l1 l2 : list A) (body : A -> M unit) (st : State) :
  for_each (l1 ++ l2) body st = bind (for_each l1 body) (fun _ => for_each l2 body) st.
Proof.
  revert st. induction l1 as [|x l1 IH]; intros st; [reflexivity |].
  cbn [app for_each]. unfold bind.
  destruct (body x st) as [[[] | e | c |] st1]; try reflexivity.
  rewrite IH. reflexivity.
Qed.

Section Persist.

Variable W : World.
Variable exportFolder : string.

Local Abbreviation write_entry :=
  (fun entry : string * string =>
     writeFileSync W (exportFolder +:+ "/" +:+ fst entry) (snd entry)).

Lemma persist_entries (response : FaviconResponse) (st : State) :
  persist W exportFolder response st
  = for_each (response_entries response) write_entry st.
Proof. unfold persist, response_entries. now rewrite for_each_app. Qed.

Lemma not_dir_written (p q c : string) (st : State) :
  not_dir st q -> not_dir (written W p c st) q.
Proof.
  intros H t. unfold written. simpl.
  destruct (decide (p = q)) as [-> | Hne].
  - rewrite lookup_insert_eq. discriminate.
  - rewrite lookup_insert_ne by exact Hne. apply H.
Qed.

(** When every target can be written, all entries are written, in
    order; each target then holds the content of an entry written to it. *)
Lemma write_entries_ok (entries : list (string * string)) :
  forall st,
    (forall entry, entry ∈ entries ->
       writable W (export_path exportFolder entry) = true
       /\ not_dir st (export_path exportFolder entry)) ->
    exists st',
      for_each entries write_entry st = (Ok tt, st')
      /\ trace st'
         = trace st
           ++ map (fun entry => EWrite (export_path exportFolder entry) (snd entry))
                  entries
      /\ (forall p, not_dir st p -> not_dir st' p)
      /\ (forall p, (forall entry, entry ∈ entries ->
                       export_path exportFolder entry <> p) ->
                    fs st' !! p = fs st !! p)
      /\ (forall entry, entry ∈ entries ->
            exists c t,
              fs st' !! export_path exportFolder entry = Some (File c t)
              /\ exists entry', entry' ∈ entries
                   /\ export_path exportFolder entry'
                      = export_path exportFolder entry
                   /\ snd entry' = c).
Proof.
  induction entries as [|e0 rest IH]; intros st Hok.
  - exists st. split; [reflexivity |]. split; [now rewrite app_nil_r |].
    split; [auto |]. split; [auto |].
    intros entry Hin. now apply elem_of_nil in Hin.
  - set (p0 := export_path exportFolder e0).
    destruct (Hok e0 (list_elem_of_here _ _)) as [Hw Hd].
    set (st1 := written W p0 (snd e0) st).
    assert (Hstep : write_entry e0 st = (Ok tt, st1)).
    { apply writeFileSync_ok. split; assumption. }
    destruct (IH st1) as (st' & Hrun & Htr & Hnd & Hframe & Hheld).
    { intros entry Hin.
      destruct (Hok entry (list_elem_of_further _ _ _ Hin)) as [Hw' Hd'].
      split; [exact Hw' | now apply not_dir_written]. }
    exists st'. split.
    { cbn [for_each]. rewrite (bind_Ok _ _ _ _ _ Hstep). exact Hrun. }
    split.
    { rewrite Htr. unfold st1, written. simpl. now rewrite <- app_assoc. }
    split.
    { intros p Hp. apply Hnd. now apply not_dir_written. }
    split.
    { intros p Hp. rewrite Hframe.
      - unfold st1, written. simpl. apply lookup_insert_ne.
        apply Hp, list_elem_of_here.
      - intros entry Hin. apply Hp. now apply list_elem_of_further. }
    intros entry Hin.
    destruct (decide (export_path exportFolder entry
                      ∈ (export_path exportFolder <$> rest))) as [Hlater | Hlast].
    + apply list_elem_of_fmap in Hlater as (e1 & He1 & Hin1).
      destruct (Hheld e1 Hin1) as (c & t & Hc & e2 & Hin2 & Hp2 & Hs2).
      exists c, t. rewrite He1. split; [exact Hc |].
      exists e2. split; [now apply list_elem_of_further |].
      split; [congruence | exact Hs2].
    + apply elem_of_cons in Hin as [-> | Hin].
      * exists (snd e0), (date_now W (ticks st)). split.
        -- rewrite Hframe.
           ++ unfold st1, written. simpl. apply lookup_insert_eq.
           ++ intros e1 Hin1 Heq. apply Hlast.
              apply list_elem_of_fmap. exists e1. split; [now symmetry | exact Hin1].
        -- exists e0. split; [apply list_elem_of_here | auto].
      * exfalso. apply Hlast. apply list_elem_of_fmap. now exists entry.
Qed.

(** A list of writes ends with all of them done, or stops at an entry
    with the exception of its write. *)
Lemma write_entries_end (entries : list (string * string)) :
  forall st,
    exists r st',
      for_each entries write_entry st = (r, st')
      /\ (r = Ok tt
          \/ exists entry,
               entry ∈ entries
               /\ r = Throw (FsError "writeFileSync" (export_path exportFolder entry))).
Proof.
  induction entries as [|e0 rest IH]; intros st.
  - exists (Ok tt), st. split; [reflexivity | now left].
  - cbn [for_each]. unfold bind at 1.
    destruct (writeFileSync W (exportFolder +:+ "/" +:+ fst e0) (snd e0) st)
      as [[[] | e | c |] st1] eqn:E.
    + destruct (IH st1) as (r & st' & Hrun & Hr).
      exists r, st'. split; [exact Hrun |].
      destruct Hr as [-> | (entry & Hin & ->)]; [now left | right].
      exists entry. split; [now apply list_elem_of_further | reflexivity].
    + eexists _, _. split; [reflexivity |]. right. exists e0.
      split; [apply list_elem_of_here |].
      unfold writeFileSync in E.
      destruct (fs st !! _) as [[? ? | ?] |]; try destruct (writable W _);
        try discriminate E; now injection E as <- _.
    + exfalso. unfold writeFileSync in E.
      destruct (fs st !! _) as [[? ? | ?] |]; try destruct (writable W _);
        discriminate E.
    + exfalso. unfold writeFileSync in E.
      destruct (fs st !! _) as [[? ? | ?] |]; try destruct (writable W _);
        discriminate E.
Qed.

Lemma persist_end (response : FaviconResponse) (st : State) :
  exists r st',
    persist W exportFolder response st = (r, st')
    /\ (r = Ok tt
        \/ exists entry,
             entry ∈ response_entries response
             /\ r = Throw (FsError "writeFileSync" (export_path exportFolder entry))).
Proof. rewrite persist_entries. apply write_entries_end. Qed.

(** Writes that stop at the first entry that cannot be written: the
    entries before it are written, in order, and the exception is that of
    the write that failed. *)
Lemma write_entries_stop (pre : list (string * string)) (entry : string * string)
    (post : list (string * string)) (st : State) :
  (forall e, e ∈ pre ->
     writable W (export_path exportFolder e) = true
     /\ not_dir st (export_path exportFolder e)) ->
  unwritable W st (export_path exportFolder entry) ->
  exists st',
    for_each (pre ++ entry :: post) write_entry st
    = (Throw (FsError "writeFileSync" (export_path exportFolder entry)), st')
    /\ trace st'
       = trace st
         ++ map (fun e => EWrite (export_path exportFolder e) (snd e)) pre
    /\ (forall p, (forall e, e ∈ pre -> export_path exportFolder e <> p) ->
                  fs st' !! p = fs st !! p).
Proof.
  intros Hpre Hbad.
  destruct (write_entries_ok pre st Hpre) as (st1 & Hrun & Htr & _ & Hframe & _).
  exists st1. rewrite for_each_app, (bind_Ok _ _ _ _ _ Hrun).
  split; [| split; [exact Htr | exact Hframe]].
  cbn [for_each]. unfold bind at 1. fold (export_path exportFolder entry).
  unfold writeFileSync.
  destruct Hbad as [Hw | [t Hdir]].
  - rewrite Hw. now destruct (fs st1 !! _) as [[? ? | ?] |].
  - rewrite Hframe, Hdir; [reflexivity |].
    intros e He Heq. destruct (Hpre e He) as [_ Hnd].
    apply (Hnd t). now rewrite Heq.
Qed.

End Persist.

(** ** The event loop of [generateFavicons] *)

Section Orchestration.

Variable W : World.
Variables (exportFolder : string) (icon : option string) (config : FaviconOptions).


Lemma start_run (st : State) :
  start icon config st
  = (Ok (mkOrch true true Pending true false),
     mkState (fs st)
             ((trace st ++ [ESetTimeout timeout_ms]) ++ [EFavicons icon config])
             (ticks st)).
Proof. reflexivity. Qed.

Lemma timer_fires_run (o : Orchestrator) (st : State) :
  scheduled o = true ->
  on_event W exportFolder icon config TimerFires o st
  = (Ok (mkOrch false false (promise o) (first_running o) true),
     mkState (fs st)
             ((trace st ++ [EConsoleLog "timed out, retrying..."])
              ++ [EFavicons icon config])
             (ticks st)).
Proof. intros H. cbn [on_event]. rewrite H. reflexivity. Qed.

Lemma persist_exportable (response : FaviconResponse) (st : State) :
  exportable W exportFolder st response ->
  exists st',
    persist W exportFolder response st = (Ok tt, st')
    /\ trace st'
       = trace st
         ++ map (fun entry => EWrite (export_path exportFolder entry) (snd entry))
                (response_entries response)
    /\ (forall entry, entry ∈ response_entries response ->
          exists c t,
            fs st' !! export_path exportFolder entry = Some (File c t)
            /\ exists entry', entry' ∈ response_entries response
                 /\ export_path exportFolder entry'
                    = export_path exportFolder entry
                 /\ snd entry' = c).
Proof.
  intros Hex. rewrite persist_entries.
  destruct (write_entries_ok W exportFolder (response_entries response) st Hex)
    as (st' & Hrun & Htr & _ & _ & Hheld).
  eauto.
Qed.

(** What a callback of the first attempt can do to the orchestrator when
    [timer] has been set to [null]: nothing but note that the call is
    over. *)
Lemma first_callback_late (r : FavResult) (o1 : Orchestrator) (st : State) :
  timer o1 = false ->
  exists st',
    called_back (generateFav W exportFolder guarded_resolve guarded_reject) r o1 st
    = (Ok o1, st').
Proof.
  intros Ht. unfold called_back, try_catch, generateFav.
  destruct r as [e | response].
  - unfold guarded_reject. rewrite Ht. eauto.
  - unfold bind.
    destruct (persist W exportFolder response st) as [[[] | e | c |] st1] eqn:Ep.
    + unfold guarded_resolve. rewrite Ht. eauto.
    + unfold guarded_reject. rewrite Ht. eauto.
    + now destruct (quiet_persist W exportFolder response _ _ _ Ep) as (_ & _ & F & _).
    + now destruct (quiet_persist W exportFolder response _ _ _ Ep) as (_ & _ & F & _).
Qed.

(** What the callback of the retry does to the orchestrator. *)
Lemma retry_callback (r : FavResult) (o1 : Orchestrator) (st : State) :
  timer o1 = false ->
  exists o' st',
    called_back (generateFav W exportFolder resolve reject) r o1 st = (Ok o', st')
    /\ timer o' = timer o1 /\ scheduled o' = scheduled o1
    /\ first_running o' = first_running o1 /\ retry_running o' = retry_running o1
    /\ match promise o1 with
       | Pending =>
           match r with
           | FavError e => promise o' = Rejected (FaviconFailure e)
           | FavOk response =>
               (promise o' = Fulfilled (html response)
                \/ exists e, write_error exportFolder response e /\ promise o' = Rejected e)
               /\ (exportable W exportFolder st response ->
                   promise o' = Fulfilled (html response))
           end
       | _ => promise o' = promise o1
       end.
Proof.
  intros Ht. unfold called_back, try_catch, generateFav.
  destruct r as [e | response].
  - unfold reject. destruct (promise o1) eqn:Ep; eexists _, _;
      (split; [reflexivity |]); simpl; rewrite ?Ep; auto.
  - unfold bind.
    destruct (persist_end W exportFolder response st) as (rp & st1 & Epers & Hrp).
    rewrite Epers.
    destruct Hrp as [-> | (entry & Hin & ->)].
    + unfold resolve, bind, print, emit. rewrite Ht.
      destruct (promise o1) eqn:Ep; eexists _, _;
        (split; [reflexivity |]); simpl; rewrite ?Ep; auto 10.
    + unfold reject.
      destruct (promise o1) eqn:Ep; eexists _, _;
        (split; [reflexivity |]); simpl; rewrite ?Ep; auto 10.
      split; [reflexivity |]. split; [reflexivity |].
      split; [reflexivity |]. split; [reflexivity |]. split.
      * right. eexists. split; [exists entry; eauto | reflexivity].
      * intros Hex.
        destruct (persist_exportable response st Hex) as (st' & Hrun & _).
        congruence.
Qed.

Lemma quiet_on_event_unscheduled (ev : Event) (o : Orchestrator) :
  scheduled o = false -> quiet (on_event W exportFolder icon config ev o).
Proof.
  intros Hs. destruct ev as [r | | r]; cbn [on_event].
  - destruct (first_running o); [apply quiet_first_callback | apply quiet_ret].
  - rewrite Hs. apply quiet_ret.
  - destruct (retry_running o); [apply quiet_retry_callback | apply quiet_ret].
Qed.

Lemma exportable_mono (response : FaviconResponse) (st st' : State) :
  (forall p, not_dir st p -> not_dir st' p) ->
  exportable W exportFolder st response -> exportable W exportFolder st' response.
Proof.
  intros Hnd Hex entry Hin. destruct (Hex entry Hin) as [Hw Hd]. auto.
Qed.

(** One event after the timeout has fired. *)
Lemma on_event_after_timeout (ev : Event) (o : Orchestrator) (st : State) :
  timer o = false -> scheduled o = false ->
  exists o' st',
    on_event W exportFolder icon config ev o st = (Ok o', st')
    /\ timer o' = false /\ scheduled o' = false
    /\ calls (trace st') = calls (trace st)
    /\ timeouts (trace st') = timeouts (trace st)
    /\ (forall p, not_dir st p -> not_dir st' p)
    /\ match ev with
       | RetryDone r =>
           if retry_running o then
             retry_running o' = false
             /\ match promise o with
                | Pending =>
                    match r with
                    | FavError e => promise o' = Rejected (FaviconFailure e)
                    | FavOk response =>
                        (promise o' = Fulfilled (html response)
                         \/ exists e, write_error exportFolder response e
                                      /\ promise o' = Rejected e)
                        /\ (exportable W exportFolder st response ->
                            promise o' = Fulfilled (html response))
                    end
                | _ => promise o' = promise o
                end
           else o' = o
       | _ => promise o' = promise o /\ retry_running o' = retry_running o
       end.
Proof.
  intros Ht Hs.
  pose proof (quiet_on_event_unscheduled ev o Hs st) as Hq.
  destruct ev as [r | | r]; cbn [on_event] in *.
  - destruct (first_running o) eqn:Ef.
    + destruct (first_callback_late r
                  (mkOrch (timer o) (scheduled o) (promise o) false (retry_running o))
                  st Ht) as [st' Hrun].
      destruct (Hq _ _ Hrun) as (Hc & Hto & _ & Hnd).
      eexists _, st'. split; [exact Hrun |]. simpl. auto 10.
    + exists o, st. split; [reflexivity |]. auto 10.
  - rewrite Hs in *. exists o, st. split; [reflexivity |]. auto 10.
  - destruct (retry_running o) eqn:Er.
    + destruct (retry_callback r
                  (mkOrch (timer o) (scheduled o) (promise o) (first_running o) false)
                  st Ht) as (o' & st' & Hrun & H1 & H2 & H3 & H4 & H5).
      destruct (Hq _ _ Hrun) as (Hc & Hto & _ & Hnd).
      exists o', st'. split; [exact Hrun |]. simpl in *.
      repeat split; try congruence; auto.
    + exists o, st. split; [reflexivity |]. auto 10.
Qed.

(** A schedule delivered after the timeout has fired: no further call,
    no further timeout, and the promise is settled by the retry alone. *)
Lemma run_events_after_timeout (rest : list Event) :
  forall (o : Orchestrator) (st : State),
    timer o = false -> scheduled o = false ->
    exists o' st',
      run_events W exportFolder icon config rest o st = (Ok o', st')
      /\ timer o' = false /\ scheduled o' = false
      /\ calls (trace st') = calls (trace st)
      /\ timeouts (trace st') = timeouts (trace st)
      /\ (retry_running o = false -> promise o' = promise o)
      /\ (retry_running o = true -> promise o = Pending ->
          match first_retry rest with
          | None => promise o' = Pending
          | Some (FavError e) => promise o' = Rejected (FaviconFailure e)
          | Some (FavOk response) =>
              (promise o' = Fulfilled (html response)
               \/ exists e, write_error exportFolder response e /\ promise o' = Rejected e)
              /\ (exportable W exportFolder st response ->
                  promise o' = Fulfilled (html response))
          end).
Proof.
  induction rest as [|ev rest IH]; intros o st Ht Hs.
  - exists o, st. split; [reflexivity |]. auto 10.
  - destruct (on_event_after_timeout ev o st Ht Hs)
      as (o1 & st1 & Hstep & Ht1 & Hs1 & Hc1 & Hto1 & Hnd & Hev).
    destruct (IH o1 st1 Ht1 Hs1) as (o' & st' & Hrun & Ht' & Hs' & Hc' & Hto' & Hdead & Hlive).
    exists o', st'. split.
    { cbn [run_events]. rewrite (bind_Ok _ _ _ _ _ Hstep). exact Hrun. }
    repeat split; try congruence.
    + intros Hr. destruct ev as [r | | r].
      * destruct Hev as [Hp Hrr]. rewrite Hdead; congruence.
      * destruct Hev as [Hp Hrr]. rewrite Hdead; congruence.
      * rewrite Hr in Hev. subst o1. auto.
    + intros Hr Hp.
      assert (Hmono : forall response,
                 exportable W exportFolder st response ->
                 exportable W exportFolder st1 response)
        by (intros response; now apply exportable_mono).
      destruct ev as [r | | r]; cbn [first_retry].
      * destruct Hev as [Hp1 Hrr].
        assert (Hl := Hlive ltac:(congruence) ltac:(congruence)).
        destruct (first_retry rest) as [[e | response] |]; auto.
        destruct Hl as [Hl1 Hl2]. split; auto.
      * destruct Hev as [Hp1 Hrr].
        assert (Hl := Hlive ltac:(congruence) ltac:(congruence)).
        destruct (first_retry rest) as [[e | response] |]; auto.
        destruct Hl as [Hl1 Hl2]. split; auto.
      * rewrite Hr, Hp in Hev. destruct Hev as [Hrr Hev].
        rewrite (Hdead Hrr). destruct r as [e | response]; tauto.
Qed.

(** Waiting after the timeout has fired: the caller gets what the retry
    calls back with. *)
Lemma await_after_timeout (rest : list Event) :
  forall (o : Orchestrator) (st : State),
    timer o = false -> scheduled o = false -> retry_running o = true ->
    promise o = Pending ->
    exists r st',
      await W exportFolder icon config rest o st = (r, st')
      /\ match first_retry rest with
         | None => r = Hang
         | Some (FavError e) => r = Throw (FaviconFailure e)
         | Some (FavOk response) =>
             (r = Ok (html response)
              \/ exists e, write_error exportFolder response e /\ r = Throw e)
             /\ (exportable W exportFolder st response -> r = Ok (html response))
         end.
Proof.
  induction rest as [|ev rest IH]; intros o st Ht Hs Hr Hp.
  - exists Hang, st. cbn [await first_retry]. now rewrite Hp.
  - destruct (on_event_after_timeout ev o st Ht Hs)
      as (o1 & st1 & Hstep & Ht1 & Hs1 & _ & _ & Hnd & Hev).
    cbn [await]. rewrite Hp. rewrite (bind_Ok _ _ _ _ _ Hstep).
    destruct ev as [r0 | | r0]; cbn [first_retry].
    + destruct Hev as [Hp1 Hr1].
      destruct (IH o1 st1 Ht1 Hs1) as (r & st' & Hrun & Hres); try congruence.
      exists r, st'. split; [exact Hrun |].
      destruct (first_retry rest) as [[e | response] |]; auto.
      destruct Hres as [H1 H2]. split; [exact H1 |].
      intros Hex. apply H2. eapply exportable_mono; eauto.
    + destruct Hev as [Hp1 Hr1].
      destruct (IH o1 st1 Ht1 Hs1) as (r & st' & Hrun & Hres); try congruence.
      exists r, st'. split; [exact Hrun |].
      destruct (first_retry rest) as [[e | response] |]; auto.
      destruct Hres as [H1 H2]. split; [exact H1 |].
      intros Hex. apply H2. eapply exportable_mono; eauto.
    + rewrite Hr, Hp in Hev. destruct Hev as [Hr1 Hev].
      destruct r0 as [e | response].
      * exists (Throw (FaviconFailure e)), st1.
        split; [| reflexivity].
        destruct rest; cbn [await]; now rewrite Hev.
      * destruct Hev as [[Hful | (e & He & Hrej)] Hlive].
        -- exists (Ok (html response)), st1.
           split; [| auto].
           destruct rest; cbn [await]; now rewrite Hful.
        -- exists (Throw e), st1. split.
           ++ destruct rest; cbn [await]; now rewrite Hrej.
           ++ split; [right; eauto |].
              intros Hex. rewrite (Hlive Hex) in Hrej. discriminate.
Qed.

(** Every event is handled: no exception leaves a callback. *)
Lemma on_event_returns (ev : Event) (o : Orchestrator) (st : State) :
  exists o' st', on_event W exportFolder icon config ev o st = (Ok o', st').
Proof.
  destruct ev as [r | | r]; cbn [on_event].
  - destruct (first_running o); [| eauto].
    unfold called_back, try_catch, generateFav, guarded_resolve, guarded_reject,
      resolve, reject, bind, print, emit. cbn [timer promise].
    destruct r as [e | response].
    + destruct (timer o), (promise o); eauto.
    + destruct (persist_end W exportFolder response st) as (rp & st1 & -> & Hrp).
      destruct Hrp as [-> | (entry & _ & ->)];
        destruct (timer o), (promise o); eauto.
  - destruct (scheduled o); eexists _, _; reflexivity.
  - destruct (retry_running o); [| eauto].
    unfold called_back, try_catch, generateFav, resolve, reject, bind, print, emit.
    cbn [timer promise].
    destruct r as [e | response].
    + destruct (promise o); eauto.
    + destruct (persist_end W exportFolder response st) as (rp & st1 & -> & Hrp).
      destruct Hrp as [-> | (entry & _ & ->)];
        destruct (timer o), (promise o); eauto.
Qed.

(** No callback touches the flag of the timeout, unless it clears it. *)
Lemma on_event_scheduled (ev : Event) (o o' : Orchestrator) (st st' : State) :
  on_event W exportFolder icon config ev o st = (Ok o', st') ->
  scheduled o = false -> scheduled o' = false.
Proof.
  intros E Hs. destruct ev as [r | | r]; cbn [on_event] in E.
  - destruct (first_running o); [| now injection E as <- _].
    revert E.
    unfold called_back, try_catch, generateFav, guarded_resolve, guarded_reject,
      resolve, reject, bind, print, emit. cbn [timer promise scheduled].
    destruct r as [e | response].
    + destruct (timer o), (promise o); intros [= <- _]; exact Hs.
    + destruct (persist W exportFolder response st) as [[[] | e | c |] st1];
        try discriminate;
        destruct (timer o), (promise o); intros [= <- _];
        first [exact Hs | reflexivity].
  - rewrite Hs in E. now injection E as <- _.
  - destruct (retry_running o); [| now injection E as <- _].
    revert E.
    unfold called_back, try_catch, generateFav, resolve, reject, bind, print, emit.
    cbn [timer promise scheduled].
    destruct r as [e | response].
    + destruct (promise o); intros [= <- _]; exact Hs.
    + destruct (persist W exportFolder response st) as [[[] | e | c |] st1];
        try discriminate;
        destruct (timer o), (promise o); intros [= <- _];
        first [exact Hs | reflexivity].
Qed.

(** One event in any state: the renderer is called again only by the
    timeout, which fires at most once. *)
Lemma on_event_calls (ev : Event) (o : Orchestrator) (st : State) :
  exists o' st',
    on_event W exportFolder icon config ev o st = (Ok o', st')
    /\ timeouts (trace st') = timeouts (trace st)
    /\ calls (trace st') + (if scheduled o' then 1 else 0)
       <= calls (trace st) + (if scheduled o then 1 else 0).
Proof.
  destruct (on_event_returns ev o st) as (o' & st' & E).
  exists o', st'. split; [exact E |].
  destruct (scheduled o) eqn:Hs.
  - destruct ev as [r | | r]; cbn [on_event] in E.
    + destruct (first_running o).
      * destruct (quiet_first_callback W exportFolder r _ _ _ _ E) as (Hc & Hto & _).
        split; [exact Hto |]. destruct (scheduled o'); lia.
      * injection E as <- <-. rewrite Hs. auto.
    + rewrite Hs in E. injection E as <- <-. simpl.
      rewrite !calls_app, !timeouts_app. simpl. lia.
    + destruct (retry_running o).
      * destruct (quiet_retry_callback W exportFolder r _ _ _ _ E) as (Hc & Hto & _).
        split; [exact Hto |]. destruct (scheduled o'); lia.
      * injection E as <- <-. rewrite Hs. auto.
  - destruct (quiet_on_event_unscheduled ev o Hs _ _ _ E) as (Hc & Hto & _).
    split; [exact Hto |].
    rewrite (on_event_scheduled ev o o' st st' E Hs). lia.
Qed.

Lemma run_events_calls (sched : list Event) :
  forall (o : Orchestrator) (st : State),
    exists o' st',
      run_events W exportFolder icon config sched o st = (Ok o', st')
      /\ timeouts (trace st') = timeouts (trace st)
      /\ calls (trace st') + (if scheduled o' then 1 else 0)
         <= calls (trace st) + (if scheduled o then 1 else 0).
Proof.
  induction sched as [|ev rest IH]; intros o st.
  - exists o, st. split; [reflexivity |]. auto.
  - destruct (on_event_calls ev o st) as (o1 & st1 & Hstep & Hto1 & Hc1).
    destruct (IH o1 st1) as (o' & st' & Hrun & Hto' & Hc').
    exists o', st'. split.
    { cbn [run_events]. rewrite (bind_Ok _ _ _ _ _ Hstep). exact Hrun. }
    split; [congruence | lia].
Qed.

End Orchestration.

(** ** The claims about [generateFavicons] *)

(** C2 (the code departs from the claim).  When the first attempt reports
    an error before the timeout, the error is propagated: the promise is
    rejected and the caller's [await] throws.  But the [then] callback that
    clears the timeout runs on fulfilment only: after the rejection no
    timeout has been cleared, the timeout is still queued, and when it
    fires the renderer is called a second time. *)
Theorem rejection_leaves_the_timeout_armed
    (W : World) (exportFolder : string) (icon : option string)
    (config : FaviconOptions) (e : string) (st : State) :
  (exists st1,
     generateFavicons W exportFolder icon config [FirstDone (FavError e)] st
     = (Throw (FaviconFailure e), st1)
     /\ clears (trace st1) = clears (trace st))
  /\ (exists o1 st1,
        bind (start icon config)
             (on_event W exportFolder icon config (FirstDone (FavError e))) st
        = (Ok o1, st1)
        /\ promise o1 = Rejected (FaviconFailure e)
        /\ timer o1 = true /\ scheduled o1 = true
        /\ clears (trace st1) = clears (trace st)
        /\ calls (trace st1) = calls (trace st) + 1
        /\ exists o2 st2,
             on_event W exportFolder icon config TimerFires o1 st1 = (Ok o2, st2)
             /\ trace st2
                = trace st1 ++ [EConsoleLog "timed out, retrying..."] ++ [EFavicons icon config]
             /\ retry_running o2 = true
             /\ calls (trace st2) = calls (trace st) + 2).
Proof.
  split.
  - eexists. split; [reflexivity |]. simpl.
    rewrite !clears_app. simpl. lia.
  - eexists _, _. split; [reflexivity |]. simpl.
    rewrite !clears_app, !calls_app. simpl.
    repeat split; try lia.
    eexists _, _. split; [reflexivity |]. simpl.
    rewrite !calls_app. simpl. rewrite <- !app_assoc.
    repeat split; try lia.
Qed.

(** C3.  Whatever the order of events, [generateFavicons] arms one timeout
    and calls the renderer at most twice.  When the timeout fires before
    the first attempt calls back, the renderer is called once more with the
    same arguments and no timeout is armed for that call; from then on a
    callback of the first attempt leaves the promise as it is, and what the
    caller gets is what the retry ends with: the fragments of its response
    when the files of the response are written (they are when the export
    folder takes them all), the exception of the write that failed when
    they are not, the error the retry reports, or no answer at all when
    the retry never calls back. *)
Theorem timeout_triggers_exactly_one_retry
    (W : World) (exportFolder : string) (icon : option string)
    (config : FaviconOptions) (st : State) :
  (forall sched,
     exists o' st',
       bind (start icon config) (run_events W exportFolder icon config sched) st
       = (Ok o', st')
       /\ calls (trace st') <= calls (trace st) + 2
       /\ timeouts (trace st') = timeouts (trace st) + 1)
  /\ (exists st1,
        bind (start icon config) (on_event W exportFolder icon config TimerFires) st
        = (Ok (mkOrch false false Pending true true), st1)
        /\ trace st1
           = trace st
             ++ [ESetTimeout timeout_ms; EFavicons icon config;
                 EConsoleLog "timed out, retrying..."; EFavicons icon config])
  /\ (forall rest,
        exists o' st',
          bind (start icon config)
               (run_events W exportFolder icon config (TimerFires :: rest)) st
          = (Ok o', st')
          /\ calls (trace st') = calls (trace st) + 2
          /\ timeouts (trace st') = timeouts (trace st) + 1
          /\ timer o' = false /\ scheduled o' = false
          /\ match first_retry rest with
             | None => promise o' = Pending
             | Some (FavError e) => promise o' = Rejected (FaviconFailure e)
             | Some (FavOk response) =>
                 (promise o' = Fulfilled (html response)
                  \/ exists entry,
                       entry ∈ response_entries response
                       /\ promise o'
                          = Rejected (FsError "writeFileSync"
                                        (export_path exportFolder entry)))
                 /\ (exportable W exportFolder st response ->
                     promise o' = Fulfilled (html response))
             end)
  /\ (forall r o st1,
        timer o = false ->
        exists o' st1',
          on_event W exportFolder icon config (FirstDone r) o st1 = (Ok o', st1')
          /\ promise o' = promise o)
  /\ (forall rest,
        exists r st',
          generateFavicons W exportFolder icon config (TimerFires :: rest) st = (r, st')
          /\ match first_retry rest with
             | None => r = Hang
             | Some (FavError e) => r = Throw (FaviconFailure e)
             | Some (FavOk response) =>
                 (r = Ok (html response)
                  \/ exists entry,
                       entry ∈ response_entries response
                       /\ r = Throw (FsError "writeFileSync"
                                       (export_path exportFolder entry)))
                 /\ (exportable W exportFolder st response -> r = Ok (html response))
             end).
Proof.
  split; [| split; [| split; [| split]]].
  - intros sched. rewrite (bind_Ok _ _ _ _ _ (start_run icon config st)).
    destruct (run_events_calls W exportFolder icon config sched
                (mkOrch true true Pending true false)
                (mkState (fs st)
                   ((trace st ++ [ESetTimeout timeout_ms]) ++ [EFavicons icon config])
                   (ticks st)))
      as (o' & st' & Hrun & Hto & Hc).
    exists o', st'. split; [exact Hrun |]. simpl in Hto, Hc.
    rewrite !calls_app in Hc. rewrite !timeouts_app in Hto. simpl in Hto, Hc.
    split; [destruct (scheduled o') |]; lia.
  - eexists. split; [reflexivity |]. simpl. now rewrite <- !app_assoc.
  - intros rest. rewrite (bind_Ok _ _ _ _ _ (start_run icon config st)).
    cbn [run_events].
    rewrite (bind_Ok _ _ _ _ _ (timer_fires_run W exportFolder icon config
                              (mkOrch true true Pending true false) _ eq_refl)).
    match goal with
    | |- context [run_events _ _ _ _ rest ?o ?s] =>
        destruct (run_events_after_timeout W exportFolder icon config rest o s
                    eq_refl eq_refl)
          as (o' & st' & Hrun & Ht & Hs & Hc & Hto & _ & Hlive)
    end.
    exists o', st'. split; [exact Hrun |]. simpl in Hc, Hto.
    rewrite !calls_app in Hc. rewrite !timeouts_app in Hto. simpl in Hc, Hto.
    repeat split; try lia; try assumption.
    pose proof (Hlive eq_refl eq_refl) as Hl.
    destruct (first_retry rest) as [[e | response] |]; try exact Hl.
    destruct Hl as [[Hful | (e & (entry & Hin & ->) & Hrej)] Hex].
    + split; [now left | exact Hex].
    + split; [right; eauto | exact Hex].
  - intros r o st1 Ht. cbn [on_event].
    destruct (first_running o).
    + destruct (first_callback_late W exportFolder r
                  (mkOrch (timer o) (scheduled o) (promise o) false (retry_running o))
                  st1 Ht) as [st1' Hrun].
      eexists _, st1'. split; [exact Hrun | reflexivity].
    + exists o, st1. split; reflexivity.
  - intros rest. unfold generateFavicons.
    unfold bind at 1. cbn [print emit].
    rewrite (bind_Ok _ _ _ _ _ (start_run icon config _)).
    cbn [await promise].
    rewrite (bind_Ok _ _ _ _ _ (timer_fires_run W exportFolder icon config
                              (mkOrch true true Pending true false) _ eq_refl)).
    match goal with
    | |- context [await _ _ _ _ rest ?o ?s] =>
        destruct (await_after_timeout W exportFolder icon config rest o s
                    eq_refl eq_refl eq_refl eq_refl)
          as (r & st' & Hrun & Hres)
    end.
    exists r, st'. split; [exact Hrun |].
    destruct (first_retry rest) as [[e | response] |]; try exact Hres.
    destruct Hres as [[Hok | (e & (entry & Hin & ->) & Hthrow)] Hex].
    + split; [now left | exact Hex].
    + split; [right; eauto | exact Hex].
Qed.

Lemma timeout_triggers_exactly_one_retry_witness :
  fst (generateFavicons Sample.world "public/pwa" (Some "icon.svg")
         (favicon_options Sample.config_plain None)
         [TimerFires; FirstDone (FavOk (mkResponse [] [] ["<late>"]));
          RetryDone (FavOk Sample.response)]
         Sample.rendered)
  = Ok (html Sample.response).
Proof.
  destruct (timeout_triggers_exactly_one_retry
              Sample.world "public/pwa" (Some "icon.svg")
              (favicon_options Sample.config_plain None) Sample.rendered)
    as (_ & _ & _ & _ & Hretry).
  destruct (Hretry [FirstDone (FavOk (mkResponse [] [] ["<late>"]));
                    RetryDone (FavOk Sample.response)])
    as (r & st' & Hrun & Hres).
  rewrite Hrun. cbn [first_retry fst] in Hres |- *.
  destruct Hres as [_ Hres]. apply Hres.
  intros entry Hin. unfold response_entries in Hin. simpl in Hin.
  repeat (apply elem_of_cons in Hin as [-> | Hin]);
    try (now apply elem_of_nil in Hin);
    (split; [reflexivity | intros t; vm_compute; discriminate]).
Defined.

(** C10.  The guard on [timer] only keeps the first attempt from settling
    the promise.  When the first attempt calls back with a response after
    the timeout has set [timer] to [null], and the export folder can be
    written, its callback writes every image and every file of the response
    to the export folder, in order, and each of those paths then holds a
    file with the content of an entry written to it, while the promise
    stays as it was. *)
Theorem late_first_attempt_still_writes_its_files
    (W : World) (exportFolder : string) (icon : option string)
    (config : FaviconOptions) (o : Orchestrator) (st : State)
    (response : FaviconResponse) :
  timer o = false ->
  first_running o = true ->
  exportable W exportFolder st response ->
  exists o' st',
    on_event W exportFolder icon config (FirstDone (FavOk response)) o st = (Ok o', st')
    /\ promise o' = promise o
    /\ trace st'
       = trace st
         ++ map (fun entry => EWrite (export_path exportFolder entry) (snd entry))
                (images response ++ files response)
    /\ forall entry, entry ∈ images response ++ files response ->
         exists c t,
           fs st' !! export_path exportFolder entry = Some (File c t)
           /\ exists entry', entry' ∈ images response ++ files response
                /\ export_path exportFolder entry' = export_path exportFolder entry
                /\ snd entry' = c.
Proof.
  intros Ht Hf Hex.
  destruct (persist_exportable W exportFolder response st Hex)
    as (st' & Hrun & Htr & Hheld).
  exists (mkOrch (timer o) (scheduled o) (promise o) false (retry_running o)), st'.
  split.
  - cbn [on_event]. rewrite Hf.
    unfold called_back, try_catch, generateFav.
    rewrite (bind_Ok _ _ _ _ _ Hrun).
    unfold guarded_resolve. cbn [timer]. now rewrite Ht.
  - split; [reflexivity |]. split; [exact Htr | exact Hheld].
Qed.

Lemma late_first_attempt_still_writes_its_files_witness :
  exists o' st',
    on_event Sample.world "public/pwa" (Some "icon.svg")
      (favicon_options Sample.config_plain None)
      (FirstDone (FavOk Sample.response)) Sample.late_orchestrator Sample.late_state
    = (Ok o', st')
    /\ promise o' = Fulfilled (html Sample.response)
    /\ exists t, fs st' !! "public/pwa/a.png" = Some (File "PNG" t).
Proof.
  destruct (late_first_attempt_still_writes_its_files
              Sample.world "public/pwa" (Some "icon.svg")
              (favicon_options Sample.config_plain None)
              Sample.late_orchestrator Sample.late_state Sample.response)
    as (o' & st' & Hrun & Hp & _ & Hheld).
  - reflexivity.
  - reflexivity.
  - intros entry Hin. unfold response_entries in Hin. simpl in Hin.
    repeat (apply elem_of_cons in Hin as [-> | Hin]);
      try (now apply elem_of_nil in Hin);
      (split; [reflexivity | intros t; vm_compute; discriminate]).
  - exists o', st'. split; [exact Hrun |]. split; [exact Hp |].
    destruct (Hheld ("a.png", "PNG")) as (c & t & Hc & e' & Hin & Hpath & Hsnd).
    { simpl. apply list_elem_of_here. }
    change (export_path "public/pwa" ("a.png", "PNG")) with "public/pwa/a.png" in Hc.
    exists t. rewrite Hc. f_equal. f_equal. subst c.
    simpl in Hin.
    repeat (apply elem_of_cons in Hin as [-> | Hin]);
      try (now apply elem_of_nil in Hin); try reflexivity;
      vm_compute in Hpath; discriminate.
Defined.

(** ** The manifest merge (claims C4 and C5) *)

Section MergeFacts.

Variable publicFolder : string.

Lemma obj_get_set (key : string) (v : json) (fields : list (string * json)) :
  Json.obj_get key (Json.obj_set key v fields) = v.
Proof.
  induction fields as [|[k x] rest IH]; cbn [Json.obj_set Json.obj_get].
  - now rewrite String.eqb_refl.
  - destruct (String.eqb k key) eqn:E; cbn [Json.obj_get]; now rewrite E.
Qed.

Lemma obj_set_set (key : string) (v1 v2 : json) (fields : list (string * json)) :
  Json.obj_set key v2 (Json.obj_set key v1 fields) = Json.obj_set key v2 fields.
Proof.
  induction fields as [|[k x] rest IH]; cbn [Json.obj_set].
  - now rewrite String.eqb_refl.
  - destruct (String.eqb k key) eqn:E; cbn [Json.obj_set]; rewrite E;
      [reflexivity | now rewrite IH].
Qed.

(** A manifest that has an icons array has the array it is given. *)
Lemma manifest_icons_set (icons icons' : list json) (manifest : json) :
  manifest_icons manifest = Some icons ->
  manifest_icons (set_icons icons' manifest) = Some icons'.
Proof.
  destruct manifest as [| | | | | |fields]; try discriminate.
  intros _. cbn [set_icons manifest_icons]. now rewrite obj_get_set.
Qed.

Lemma set_icons_set (icons1 icons2 : list json) (manifest : json) :
  set_icons icons2 (set_icons icons1 manifest) = set_icons icons2 manifest.
Proof.
  destruct manifest as [| | | | | |fields]; try reflexivity.
  cbn [set_icons]. now rewrite obj_set_set.
Qed.

(** The scan over well-formed entries marks the matching ones and tells
    whether there was one. *)
Lemma scan_icons_spec (suffix : string) (icons : list json) :
  well_formed_icons icons ->
  scan_icons suffix icons
  = Some (map (mark_matching suffix) icons, existsb (matches suffix) icons).
Proof.
  induction icons as [|icon rest IH]; intros Hwf; [reflexivity |].
  cbn [scan_icons map existsb].
  assert (Hicon : icon_src icon <> None) by apply Hwf, list_elem_of_here.
  rewrite IH by (intros i Hi; apply Hwf; now apply list_elem_of_further).
  unfold mark_matching, matches.
  destruct (icon_src icon) as [s |]; [| contradiction].
  destruct (Str.endsWith s suffix); reflexivity.
Qed.

Lemma existsb_matches (suffix : string) (icons : list json) :
  existsb (matches suffix) icons = true <->
  exists icon, icon ∈ icons /\ matches suffix icon = true.
Proof.
  rewrite existsb_exists. split; intros (icon & Hin & Hm); exists icon;
    (split; [now apply list_elem_of_In | exact Hm]).
Qed.

Lemma map_mark_none (suffix : string) (icons : list json) :
  existsb (matches suffix) icons = false ->
  map (mark_matching suffix) icons = icons.
Proof.
  induction icons as [|icon rest IH]; [reflexivity |].
  cbn [existsb map]. intros H. apply orb_false_iff in H as [H1 H2].
  unfold mark_matching at 1. rewrite H1. now rewrite IH.
Qed.

Lemma purpose_of_marked (icon : json) :
  icon_src icon <> None ->
  purpose_of (mark_any_maskable icon) = JStr "any maskable".
Proof.
  destruct icon as [| | | | | |fields]; try (intros H; now destruct H).
  intros _. cbn [mark_any_maskable purpose_of]. apply obj_get_set.
Qed.

Lemma existsSync_run (p : string) (st : State) :
  existsSync p st = (Ok (bool_decide (is_Some (fs st !! p))), st).
Proof. reflexivity. Qed.

(** The turn of the loop for an icon whose file is present and whose path
    the scan applies to. *)
Lemma merge_icon_scanned (maskableIcon : MaskableIconRef) (manifest : json)
    (icons : list json) (st : State) :
  let maskableIconPath := Path.join publicFolder (src maskableIcon) in
  let suffix := "/" +:+ maskableIconPath in
  is_Some (fs st !! maskableIconPath) ->
  Str.startsWith maskableIconPath "pwa" = true ->
  manifest_icons manifest = Some icons ->
  well_formed_icons icons ->
  merge_icon publicFolder maskableIcon manifest st
  = (Ok (if existsb (matches suffix) icons
         then set_icons (map (mark_matching suffix) icons) manifest
         else set_icons (icons ++ [maskable_entry maskableIcon]) manifest),
     st).
Proof.
  intros p suffix Hex Hpwa Hicons Hwf.
  unfold merge_icon. fold p.
  rewrite (bind_Ok _ _ _ _ _ (existsSync_run p st)).
  rewrite bool_decide_eq_true_2 by exact Hex.
  unfold find_in_manifest. rewrite Hpwa, Hicons.
  fold suffix. rewrite (scan_icons_spec suffix icons Hwf).
  unfold bind, ret. cbn [fst snd].
  destruct (existsb (matches suffix) icons) eqn:E; [reflexivity |].
  rewrite (manifest_icons_set icons _ manifest Hicons).
  rewrite (map_mark_none _ _ E), set_icons_set. reflexivity.
Qed.

(** The turn of the loop for an icon whose file is present and whose path
    does not start with [pwa]. *)
Lemma merge_icon_unscanned (maskableIcon : MaskableIconRef) (manifest : json)
    (icons : list json) (st : State) :
  let maskableIconPath := Path.join publicFolder (src maskableIcon) in
  is_Some (fs st !! maskableIconPath) ->
  Str.startsWith maskableIconPath "pwa" = false ->
  manifest_icons manifest = Some icons ->
  merge_icon publicFolder maskableIcon manifest st
  = (Ok (set_icons (icons ++ [maskable_entry maskableIcon]) manifest), st).
Proof.
  intros p Hex Hpwa Hicons.
  unfold merge_icon. fold p.
  rewrite (bind_Ok _ _ _ _ _ (existsSync_run p st)).
  rewrite bool_decide_eq_true_2 by exact Hex.
  unfold find_in_manifest. rewrite Hpwa.
  unfold bind, ret. cbn [fst snd]. now rewrite Hicons.
Qed.

Lemma merge_icon_missing (maskableIcon : MaskableIconRef) (manifest : json)
    (st : State) :
  let maskableIconPath := Path.join publicFolder (src maskableIcon) in
  fs st !! maskableIconPath = None ->
  merge_icon publicFolder maskableIcon manifest st
  = (Ok manifest,
     mkState (fs st)
             (trace st ++ [EConsoleWarn (missing_icon_warning maskableIconPath)])
             (ticks st)).
Proof.
  intros p Hex.
  unfold merge_icon. fold p.
  rewrite (bind_Ok _ _ _ _ _ (existsSync_run p st)).
  rewrite bool_decide_eq_false_2; [reflexivity |].
  rewrite Hex. intros [x Hx]. discriminate.
Qed.

End MergeFacts.

(** C4, as the code has it.  For a maskable icon whose resolved file is
    present and whose resolved path starts with [pwa], when the manifest
    has an icons array of entries with a string [src] and the [src] of one
    of them ends with a slash followed by the resolved path, the turn of the
    loop returns the manifest with the same number of entries, nothing
    appended: every entry whose [src] ends that way is the old entry with
    [purpose] set to [any maskable], and every other entry is as it was. *)
Theorem icon_under_pwa_marks_the_existing_entry
    (publicFolder : string) (maskableIcon : MaskableIconRef) (manifest : json)
    (icons : list json) (st : State) :
  let maskableIconPath := Path.join publicFolder (src maskableIcon) in
  let suffix := "/" +:+ maskableIconPath in
  is_Some (fs st !! maskableIconPath) ->
  Str.startsWith maskableIconPath "pwa" = true ->
  manifest_icons manifest = Some icons ->
  well_formed_icons icons ->
  (exists icon s, icon ∈ icons /\ icon_src icon = Some s
                  /\ Str.endsWith s suffix = true) ->
  exists manifest',
    merge_icon publicFolder maskableIcon manifest st = (Ok manifest', st)
    /\ manifest_icons manifest' = Some (map (mark_matching suffix) icons)
    /\ length (map (mark_matching suffix) icons) = length icons
    /\ (forall icon, icon ∈ icons -> matches suffix icon = true ->
          mark_matching suffix icon = mark_any_maskable icon
          /\ purpose_of (mark_matching suffix icon) = JStr "any maskable")
    /\ (forall icon, icon ∈ icons -> matches suffix icon = false ->
          mark_matching suffix icon = icon).
Proof.
  intros p suffix Hex Hpwa Hicons Hwf (icon0 & s0 & Hin0 & Hsrc0 & Hends0).
  assert (Hfound : existsb (matches suffix) icons = true).
  { apply existsb_matches. exists icon0. split; [exact Hin0 |].
    unfold matches. now rewrite Hsrc0. }
  exists (set_icons (map (mark_matching suffix) icons) manifest).
  split.
  { rewrite (merge_icon_scanned publicFolder maskableIcon manifest icons st
               Hex Hpwa Hicons Hwf).
    fold p suffix. now rewrite Hfound. }
  split; [now apply (manifest_icons_set icons) |].
  split; [apply length_map |].
  split.
  - intros icon Hin Hm. unfold mark_matching. rewrite Hm.
    split; [reflexivity |]. apply purpose_of_marked. now apply Hwf.
  - intros icon Hin Hm. unfold mark_matching. now rewrite Hm.
Qed.

Lemma icon_under_pwa_marks_the_existing_entry_witness :
  exists manifest',
    merge_icon "." Sample.pwa_icon (Sample.manifest_with "/pwa/a.png")
               (Sample.only_file "pwa/a.png")
    = (Ok manifest', Sample.only_file "pwa/a.png")
    /\ manifest_icons manifest'
       = Some [JObj [("src", JStr "/pwa/a.png"); ("purpose", JStr "any maskable")]].
Proof.
  destruct (icon_under_pwa_marks_the_existing_entry
              "." Sample.pwa_icon (Sample.manifest_with "/pwa/a.png")
              [JObj [("src", JStr "/pwa/a.png")]] (Sample.only_file "pwa/a.png"))
    as (manifest' & Hrun & Hicons & _).
  - vm_compute. eauto.
  - reflexivity.
  - reflexivity.
  - intros icon Hin. apply list_elem_of_singleton in Hin as ->. discriminate.
  - exists (JObj [("src", JStr "/pwa/a.png")]), "/pwa/a.png".
    split; [apply list_elem_of_here | split; reflexivity].
  - exists manifest'. split; [exact Hrun | exact Hicons].
Defined.

(** C4 as stated fails on the code.  With the root directory as target
    folder the favicon folder is [/pwa], and the renderer, told to use the
    path [/pwa/], gives the manifest an entry whose [src] is [/pwa/a.png].
    A maskable icon declared as [pwa/a.png] resolves to [/pwa/a.png]: its
    file exists, its path lies inside the favicon folder, and the [src] of
    the entry ends with that path (it is that path).  Yet the entry is not
    marked and a second entry is appended: the code asks whether the
    resolved path starts with [pwa], and this one starts with a slash. *)
Lemma icon_in_favicon_folder_is_duplicated :
  Path.join "/" (src Sample.pwa_icon) = "/pwa/a.png"
  /\ is_Some (fs (Sample.only_file "/pwa/a.png") !! Path.join "/" (src Sample.pwa_icon))
  /\ in_favicon_folder "/" (Path.join "/" (src Sample.pwa_icon)) = true
  /\ Str.endsWith "/pwa/a.png" (Path.join "/" (src Sample.pwa_icon)) = true
  /\ merge_icon "/" Sample.pwa_icon (Sample.manifest_with "/pwa/a.png")
                (Sample.only_file "/pwa/a.png")
     = (Ok (JObj [("icons",
                   JArr [JObj [("src", JStr "/pwa/a.png")];
                         JObj [("src", JStr "../pwa/a.png");
                               ("sizes", JStr "192x192");
                               ("type", JStr "image/png");
                               ("purpose", JStr "maskable")]])]),
        Sample.only_file "/pwa/a.png").
Proof.
  split; [reflexivity |].
  split; [vm_compute; eauto |].
  split; [reflexivity |]. split; reflexivity.
Qed.

(** C5, as the code has it.  For a maskable icon whose resolved file is
    present, when the manifest has an icons array and either the resolved
    path does not start with [pwa] or no entry has a [src] ending with a
    slash followed by the resolved path, exactly one entry is appended to
    the array, and the entries before it are as they were: its [src] is the
    declared one behind [../], its sizes and type are the declared ones
    and its purpose is [maskable].  For a maskable icon whose resolved file
    is absent, a warning is printed and the manifest is returned as it
    was. *)
Theorem unmatched_icon_is_appended_and_missing_icon_skipped
    (publicFolder : string) (maskableIcon : MaskableIconRef) (manifest : json)
    (st : State) :
  let maskableIconPath := Path.join publicFolder (src maskableIcon) in
  let suffix := "/" +:+ maskableIconPath in
  (forall icons,
     is_Some (fs st !! maskableIconPath) ->
     manifest_icons manifest = Some icons ->
     Str.startsWith maskableIconPath "pwa" = false
     \/ (forall icon, icon ∈ icons ->
           exists s, icon_src icon = Some s /\ Str.endsWith s suffix = false) ->
     exists manifest',
       merge_icon publicFolder maskableIcon manifest st = (Ok manifest', st)
       /\ manifest_icons manifest'
          = Some (icons
                  ++ [JObj [("src", JStr ("../" +:+ src maskableIcon));
                            ("sizes", sizes maskableIcon);
                            ("type", type maskableIcon);
                            ("purpose", JStr "maskable")]]))
  /\ (fs st !! maskableIconPath = None ->
      merge_icon publicFolder maskableIcon manifest st
      = (Ok manifest,
         mkState (fs st)
                 (trace st ++ [EConsoleWarn (missing_icon_warning maskableIconPath)])
                 (ticks st))).
Proof.
  intros p suffix. split.
  - intros icons Hex Hicons Hno.
    exists (set_icons (icons ++ [maskable_entry maskableIcon]) manifest).
    split; [| now apply (manifest_icons_set icons)].
    destruct (Str.startsWith p "pwa") eqn:Hpwa.
    + destruct Hno as [Hno | Hno]; [discriminate |].
      assert (Hwf : well_formed_icons icons).
      { intros icon Hin. destruct (Hno icon Hin) as (s & Hs & _). congruence. }
      rewrite (merge_icon_scanned publicFolder maskableIcon manifest icons st
                 Hex Hpwa Hicons Hwf).
      fold p suffix.
      destruct (existsb (matches suffix) icons) eqn:E; [| reflexivity].
      apply existsb_matches in E as (icon & Hin & Hm).
      destruct (Hno icon Hin) as (s & Hs & Hends).
      unfold matches in Hm. rewrite Hs in Hm. congruence.
    + exact (merge_icon_unscanned publicFolder maskableIcon manifest icons st
               Hex Hpwa Hicons).
  - apply merge_icon_missing.
Qed.

Lemma unmatched_icon_is_appended_and_missing_icon_skipped_witness :
  (exists manifest',
     merge_icon "public" Sample.maskable Sample.manifest
                (Sample.only_file "public/maskable.png")
     = (Ok manifest', Sample.only_file "public/maskable.png")
     /\ manifest_icons manifest'
        = Some [JObj [("src", JStr "/pwa/a.png"); ("sizes", JStr "1x1")];
                JObj [("src", JStr "../maskable.png"); ("sizes", JStr "512x512");
                      ("type", JStr "image/png"); ("purpose", JStr "maskable")]])
  /\ merge_icon "public" Sample.maskable Sample.manifest (Sample.only_file "other.png")
     = (Ok Sample.manifest,
        mkState (fs (Sample.only_file "other.png"))
                [EConsoleWarn (missing_icon_warning "public/maskable.png")] 0).
Proof.
  split.
  - refine (proj1 (unmatched_icon_is_appended_and_missing_icon_skipped
                     "public" Sample.maskable Sample.manifest
                     (Sample.only_file "public/maskable.png"))
                  [JObj [("src", JStr "/pwa/a.png"); ("sizes", JStr "1x1")]] _ eq_refl
                  (or_introl eq_refl)).
    vm_compute. eauto.
  - exact (proj2 (unmatched_icon_is_appended_and_missing_icon_skipped
                    "public" Sample.maskable Sample.manifest
                    (Sample.only_file "other.png")) eq_refl).
Defined.

(** C5 as stated fails on the code.  With [pwa] as target folder, an icon
    kept at [pwa/icon.png] lies outside the favicon folder [pwa/pwa] and
    its file is present; the code scans the manifest all the same, because
    the resolved path starts with [pwa], finds the entry of the renderer
    and marks it, and appends nothing. *)
Lemma icon_outside_favicon_folder_is_not_appended :
  is_Some (fs (Sample.only_file "pwa/icon.png") !! Path.join "pwa" "icon.png")
  /\ in_favicon_folder "pwa" (Path.join "pwa" "icon.png") = false
  /\ merge_icon "pwa" (mkMaskable "icon.png" (JStr "512x512") (JStr "image/png"))
                (Sample.manifest_with "/pwa/icon.png") (Sample.only_file "pwa/icon.png")
     = (Ok (JObj [("icons",
                   JArr [JObj [("src", JStr "/pwa/icon.png");
                               ("purpose", JStr "any maskable")]])]),
        Sample.only_file "pwa/icon.png").
Proof.
  split; [vm_compute; eauto | split; reflexivity].
Qed.

(** ** The staleness test (claim C1) *)

Section GateFacts.

Variable W : World.
Variable options : Options.

Lemma cache_file_run (st : State) :
  cache_file options st = (Ok (cache_path_of options st), st).
Proof.
  unfold cache_file, cache_path_of.
  destruct (Str.truthy_opt (cachePath options)); [reflexivity |].
  unfold bind, existsSync.
  destruct (bool_decide (is_Some (fs st !! "node_modules"))); reflexivity.
Qed.

Lemma last_time_run (CACHE_FILE : string) (st : State) :
  last_time CACHE_FILE st = (Ok (mtime_at st CACHE_FILE), st).
Proof.
  unfold last_time, try_catch, stat_mtime, mtime_at.
  destruct (fs st !! CACHE_FILE); reflexivity.
Qed.

Lemma fold_max_le (times : list Z) (t L : Z) :
  (t <= L)%Z -> (forall x, x ∈ times -> (x <= L)%Z) ->
  (fold_left Z.max times t <= L)%Z.
Proof.
  revert t. induction times as [|x rest IH]; intros t Ht Hall; [exact Ht |].
  cbn [fold_left]. apply IH.
  - apply Z.max_lub; [exact Ht | apply Hall, list_elem_of_here].
  - intros y Hy. apply Hall. now apply list_elem_of_further.
Qed.

Lemma time_ge_max (times : list Z) (L : Z) :
  (forall x, x ∈ times -> (x <= L)%Z) -> time_ge L (Math_max times) = true.
Proof.
  intros Hall. destruct times as [|t rest]; [reflexivity |].
  cbn [Math_max time_ge]. apply Z.leb_le. apply fold_max_le.
  - apply Hall, list_elem_of_here.
  - intros y Hy. apply Hall. now apply list_elem_of_further.
Qed.

(** The times the test takes, sources missing or not. *)
Lemma source_times_taken (sources : list string) :
  forall st,
    exists st2,
      map_M (source_time W) sources st
      = (Ok (times_taken W (fs st) (ticks st) sources), st2)
      /\ fs st2 = fs st /\ trace st2 = trace st.
Proof.
  induction sources as [|s0 rest IH]; intros st.
  - exists st. repeat split.
  - cbn [map_M times_taken]. unfold bind at 1.
    unfold source_time at 1, try_catch, stat_mtime.
    destruct (fs st !! s0) as [n0 |] eqn:E.
    + destruct (IH st) as (st2 & Hrun & Hfs & Htr).
      exists st2. rewrite (bind_Ok _ _ _ _ _ Hrun). auto.
    + cbn [Date_now].
      destruct (IH (mkState (fs st) (trace st) (S (ticks st))))
        as (st2 & Hrun & Hfs & Htr).
      exists st2. rewrite (bind_Ok _ _ _ _ _ Hrun). auto.
Qed.

(** The test on a configuration that is read and parsed and a template
    that is present, when no time taken for a source exceeds the time of
    the cache marker. *)
Lemma staleness_test_skips (st : State) (text : string) (tc : Z) (config : AppConfig) :
  fs st !! configPath options = Some (File text tc) ->
  parse_config W text = Some config ->
  is_Some (fs st !! templateFilePath options) ->
  force options = false ->
  Forall (fun t => (t <= mtime_at st (cache_path_of options st))%Z)
         (times_taken W (fs st) (S (ticks st)) (sources_of options config)) ->
  exists st',
    staleness_test W options st = (Ok Skip, st')
    /\ fs st' = fs st /\ trace st' = trace st.
Proof.
  intros Hconfig Hparse Htemplate Hforce Hfresh.
  set (st1 := mkState (fs st) (trace st) (S (ticks st))).
  destruct (source_times_taken (sources_of options config) st1)
    as (st2 & Hrun & Hfs2 & Htr2).
  exists st2. split; [| split; [exact Hfs2 | exact Htr2]].
  unfold staleness_test.
  unfold bind at 1. cbn [existsSync]. rewrite Hconfig.
  rewrite bool_decide_eq_true_2 by eauto. cbn [negb].
  unfold bind at 1. cbn [existsSync].
  rewrite bool_decide_eq_true_2 by exact Htemplate. cbn [negb].
  rewrite (bind_Ok _ _ _ _ _ (cache_file_run st)).
  unfold bind at 1. cbn [Date_now]. fold st1.
  rewrite (bind_Ok _ _ _ _ _ (readFileSync_file _ _ _ st1 Hconfig)).
  rewrite Hparse. unfold bind at 1. cbn [ret].
  unfold max_time.
  rewrite (bind_Ok _ _ _ _ _ (bind_Ok _ _ _ _ _ Hrun)).
  rewrite (bind_Ok _ _ _ _ _ (last_time_run _ st2)).
  rewrite Hforce. cbn [negb andb].
  assert (Hm : mtime_at st2 (cache_path_of options st)
               = mtime_at st (cache_path_of options st)).
  { unfold mtime_at. now rewrite Hfs2. }
  rewrite Hm, time_ge_max; [reflexivity |].
  intros x Hx. rewrite Forall_forall in Hfresh. apply Hfresh. exact Hx.
Qed.

Lemma prologue_run (st0 : State) :
  prologue W options st0
  = ensureDirSync W (publicFolder options)
      (mkState (fs st0) (trace st0 ++ [EConsoleLog (opening_line options)])
               (ticks st0)).
Proof. reflexivity. Qed.

(** What the prologue can do: print its line, and create the target
    folder when it is missing. *)
Lemma prologue_effects (st0 st : State) :
  prologue W options st0 = (Ok tt, st) ->
  (fs st = fs st0
   /\ trace st = trace st0 ++ [EConsoleLog (opening_line options)])
  \/ (fs st0 !! publicFolder options = None
      /\ fs st = <[publicFolder options := Dir (date_now W (ticks st0))]> (fs st0)
      /\ trace st
         = trace st0
           ++ [EConsoleLog (opening_line options); EMkdir (publicFolder options)]).
Proof.
  rewrite prologue_run. unfold ensureDirSync. simpl.
  destruct (fs st0 !! publicFolder options) as [[c t | t] |] eqn:E.
  - discriminate.
  - intros [= <-]. left. auto.
  - destruct (writable W (publicFolder options)); [| discriminate].
    intros [= <-]. right. simpl. rewrite <- app_assoc. auto.
Qed.

End GateFacts.

(** C1, as the code has it.  When the force flag is not set and the
    target folder is a directory or can be created, the first two
    statements of [generateApp] return, having printed the opening line
    and created the target folder if it was missing.  If then the
    configuration is a readable file that parses, the template is present,
    and the time taken for every source (the configuration, the template,
    the icon when one is named, and the resolved path of each maskable
    icon) is no greater than the time of the cache marker, [generateApp]
    returns at the staleness test with the filesystem and the trace exactly
    as those two statements left them: no favicon is generated and no
    manifest, document or cache marker is written.  The time taken for a
    source is its modification time, or, when the source cannot be
    examined, the reading of the clock taken in its place; the time of a
    cache marker that is absent counts as zero. *)
Theorem fresh_cache_returns_after_the_prologue
    (W : World) (options : Options) (sched : list Event) (st0 : State) :
  force options = false ->
  (exists t, fs st0 !! targetFolder options = Some (Dir t))
  \/ (fs st0 !! targetFolder options = None
      /\ writable W (targetFolder options) = true) ->
  exists st,
    prologue W options st0 = (Ok tt, st)
    /\ ((fs st = fs st0
         /\ trace st = trace st0 ++ [EConsoleLog (opening_line options)])
        \/ (fs st0 !! targetFolder options = None
            /\ fs st = <[targetFolder options := Dir (date_now W (ticks st0))]> (fs st0)
            /\ trace st
               = trace st0
                 ++ [EConsoleLog (opening_line options);
                     EMkdir (targetFolder options)]))
    /\ forall text tc config,
         fs st !! configPath options = Some (File text tc) ->
         parse_config W text = Some config ->
         is_Some (fs st !! templateFilePath options) ->
         let sources :=
           [configPath options; templateFilePath options]
           ++ (if Str.truthy_opt (icon config) then [Str.of_opt (icon config)] else [])
           ++ match maskable_icons config with
              | Some l =>
                  map (fun maskableIcon =>
                         Path.join (targetFolder options) (src maskableIcon)) l
              | None => []
              end in
         Forall (fun t => (t <= mtime_at st (cache_path_of options st))%Z)
                (times_taken W (fs st) (S (ticks st)) sources) ->
         exists st',
           generateApp W options sched st0 = (Ok tt, st')
           /\ fs st' = fs st /\ trace st' = trace st.
Proof.
  intros Hforce Htarget.
  assert (Hpro : exists st, prologue W options st0 = (Ok tt, st)).
  { rewrite prologue_run. unfold ensureDirSync, publicFolder. cbn [fs].
    destruct Htarget as [[t ->] | [-> ->]]; eauto. }
  destruct Hpro as [st Hpro]. exists st.
  split; [exact Hpro |].
  split; [exact (prologue_effects W options st0 st Hpro) |].
  intros text tc config Hconfig Hparse Htemplate sources Hfresh.
  destruct (staleness_test_skips W options st text tc config
              Hconfig Hparse Htemplate Hforce Hfresh)
    as (st' & Htest & Hfs & Htr).
  exists st'. split; [| split; [exact Hfs | exact Htr]].
  unfold generateApp, gate.
  rewrite bind_assoc, (bind_Ok _ _ _ _ _ Hpro).
  rewrite (bind_Ok _ _ _ _ _ Htest). reflexivity.
Qed.

Lemma fresh_cache_returns_after_the_prologue_witness :
  exists st',
    generateApp Sample.world Sample.options [FirstDone (FavOk Sample.response)]
                (Sample.cached "plain")
    = (Ok tt, st')
    /\ trace st'
       = [EConsoleLog "preparing from application.json to public...";
          EMkdir "public"].
Proof.
  destruct (fresh_cache_returns_after_the_prologue
              Sample.world Sample.options [FirstDone (FavOk Sample.response)]
              (Sample.cached "plain") eq_refl)
    as (st & Hpro & _ & Hskip).
  - right. split; reflexivity.
  - assert (Hst : st = snd (prologue Sample.world Sample.options (Sample.cached "plain")))
      by now rewrite Hpro.
    destruct (Hskip "plain" 1000%Z Sample.config_plain) as (st' & Hrun & _ & Htr).
    + rewrite Hst. reflexivity.
    + reflexivity.
    + rewrite Hst. vm_compute. eauto.
    + rewrite Hst. vm_compute. repeat constructor; discriminate.
    + exists st'. split; [exact Hrun |]. rewrite Htr, Hst. reflexivity.
Defined.

(** C1 as stated fails on the code.  The run below is not forced and its
    cache marker is newer than every source, so the run returns at the
    staleness test; but the target folder does not exist, and the run has
    created it by then: it is not without side effects. *)
Lemma skipped_run_creates_the_target_folder :
  force Sample.options = false
  /\ Forall (fun s => (mtime_at (Sample.cached "plain") s
                       <= mtime_at (Sample.cached "plain") ".prepare-for-web-cache")%Z)
            (sources_of Sample.options Sample.config_plain)
  /\ fs (Sample.cached "plain") !! "public" = None
  /\ exists st',
       generateApp Sample.world Sample.options [FirstDone (FavOk Sample.response)]
                   (Sample.cached "plain") = (Ok tt, st')
       /\ fs st' !! "public" = Some (Dir 1700000000123%Z)
       /\ trace st'
          = [EConsoleLog "preparing from application.json to public...";
             EMkdir "public"].
Proof.
  split; [reflexivity |]. split.
  - repeat constructor; vm_compute; discriminate.
  - split; [reflexivity |]. eexists. split; [vm_compute; reflexivity |].
    split; reflexivity.
Qed.

(** ** A manifest that cannot be parsed (claim C6) *)

(** When the manifest cannot be read or parsed, the failure is reported
    and [manifest] stays [undefined]; the loop then throws at the first
    maskable icon whose file is present. *)
Lemma merge_manifest_undefined
    (W : World) (publicFolder faviconFolder : string)
    (maskableIcon : MaskableIconRef) (rest : list MaskableIconRef) (st : State) :
  (forall text t,
     fs st !! Path.join faviconFolder "manifest.json" = Some (File text t) ->
     JSON_parse W text = None) ->
  is_Some (fs st !! Path.join publicFolder (src maskableIcon)) ->
  exists msg st',
    merge_manifest W publicFolder faviconFolder (maskableIcon :: rest) st
    = (Throw (TypeError msg), st')
    /\ fs st' = fs st.
Proof.
  intros Hbad Hex. unfold merge_manifest.
  set (manifestPath := Path.join faviconFolder "manifest.json") in *.
  match goal with
  | |- context [bind (try_catch ?m ?h) ?k] =>
      assert (Hm : exists st1, try_catch m h st = (Ok JUndef, st1) /\ fs st1 = fs st)
  end.
  { unfold try_catch, bind at 1, readFileSync.
    destruct (fs st !! manifestPath) as [[text t | t] |] eqn:E;
      try (eexists; split; reflexivity).
    rewrite (Hbad text t eq_refl). eexists; split; reflexivity. }
  destruct Hm as (st1 & Hm & Hfs).
  rewrite (bind_Ok _ _ _ _ _ Hm).
  cbn [merge_icons]. unfold merge_icon at 1.
  rewrite !bind_assoc.
  rewrite (bind_Ok _ _ _ _ _ (existsSync_run _ st1)).
  rewrite Hfs, (bool_decide_eq_true_2 _ Hex).
  unfold find_in_manifest.
  destruct (Str.startsWith _ "pwa"); eexists _, st1; (split; [reflexivity | exact Hfs]).
Qed.

(** C6 (the code departs from the claim).  A first build whose
    configuration declares a maskable icon that is present, and whose
    renderer produces a manifest that is not JSON: the parse failure is
    reported, and then the run throws in the merge loop.  No path of the
    favicon folder is rewritten, no document and no cache marker is
    written. *)
Theorem unparsable_manifest_aborts_the_run :
  exists msg st',
    generateApp Sample.world Sample.options
                [FirstDone (FavOk Sample.response_with_broken_manifest)]
                Sample.first_build_with_icon
    = (Throw (TypeError msg), st')
    /\ last (trace st')
       = Some (EConsoleError
                 ("failed to parse manifest (" +:+ Str.dquote
                  +:+ "public/pwa/manifest.json" +:+ Str.dquote +:+ ")"))
    /\ fs st' !! "public/pwa/manifest.json"
       = Some (File "{ broken" 1700000003123%Z)
    /\ fs st' !! "public/pwa/browserconfig.xml"
       = Some (File Sample.browserconfig_text 1700000004123%Z)
    /\ fs st' !! "public/index.html" = None
    /\ fs st' !! ".prepare-for-web-cache" = None.
Proof.
  eexists _, _. split; [vm_compute; reflexivity |].
  repeat split; reflexivity.
Qed.

(** ** What a run can change on disk *)

Section Respects.

Variable R : State -> State -> Prop.
Hypothesis R_refl : forall st, R st st.
Hypothesis R_trans : forall a b c, R a b -> R b c -> R a c.

Lemma respects_ret {A} (a : A) : respects R (ret a).
Proof. intros st r st' [= _ <-]. apply R_refl. Qed.

Lemma respects_throw {A} (e : Error) : respects R (@throw A e).
Proof. intros st r st' [= _ <-]. apply R_refl. Qed.

Lemma respects_exit {A} (c : Z) : respects R (@process_exit A c).
Proof. intros st r st' [= _ <-]. apply R_refl. Qed.

Lemma respects_hang {A} : respects R (@hang A).
Proof. intros st r st' [= _ <-]. apply R_refl. Qed.

Lemma respects_bind {A B} (m : M A) (k : A -> M B) :
  respects R m -> (forall a, respects R (k a)) -> respects R (bind m k).
Proof.
  intros Hm Hk st r st' H. unfold bind in H.
  destruct (m st) as [[a | e | c |] st1] eqn:E; pose proof (Hm _ _ _ E) as H1.
  - eapply R_trans; [exact H1 | eapply Hk; exact H].
  - now injection H as _ <-.
  - now injection H as _ <-.
  - now injection H as _ <-.
Qed.

Lemma respects_try_catch {A} (m : M A) (h : Error -> M A) :
  respects R m -> (forall e, respects R (h e)) -> respects R (try_catch m h).
Proof.
  intros Hm Hh st r st' H. unfold try_catch in H.
  destruct (m st) as [[a | e | c |] st1] eqn:E; pose proof (Hm _ _ _ E) as H1.
  - now injection H as _ <-.
  - eapply R_trans; [exact H1 | eapply Hh; exact H].
  - now injection H as _ <-.
  - now injection H as _ <-.
Qed.

Lemma respects_for_each {A} (l : list A) (body : A -> M unit) :
  (forall x, x ∈ l -> respects R (body x)) -> respects R (for_each l body).
Proof.
  induction l as [|x l IH]; intros Hb; [apply respects_ret |].
  apply respects_bind; [apply Hb, list_elem_of_here | intros _].
  apply IH. intros y Hy. apply Hb. now apply list_elem_of_further.
Qed.

Lemma respects_map_M {A B} (f : A -> M B) (l : list A) :
  (forall x, respects R (f x)) -> respects R (map_M f l).
Proof.
  intros Hf. induction l as [|x l IH]; [apply respects_ret |].
  apply respects_bind; [apply Hf | intros y].
  apply respects_bind; [exact IH | intros ys; apply respects_ret].
Qed.

End Respects.

Section Frames.

Variable W : World.
Variable P : string -> Prop.

Local Abbreviation framed := (respects (same_outside P)).

Lemma same_outside_refl (st : State) : same_outside P st st.
Proof. intros p _. reflexivity. Qed.

Lemma same_outside_trans (a b c : State) :
  same_outside P a b -> same_outside P b c -> same_outside P a c.
Proof. intros H1 H2 p Hp. rewrite (H2 p Hp). apply H1, Hp. Qed.

(** A computation that leaves the filesystem alone. *)
Lemma framed_readonly {A} (m : M A) :
  (forall st r st', m st = (r, st') -> fs st' = fs st) -> framed m.
Proof. intros H st r st' Hrun p _. now rewrite (H _ _ _ Hrun). Qed.

Lemma framed_emit (e : Effect) : framed (emit e).
Proof. apply framed_readonly. intros st r st' [= _ <-]. reflexivity. Qed.

Lemma framed_existsSync (p : string) : framed (existsSync p).
Proof. apply framed_readonly. intros st r st' [= _ <-]. reflexivity. Qed.

Lemma framed_readFileSync (p : string) : framed (readFileSync p).
Proof.
  apply framed_readonly. intros st r st'. unfold readFileSync.
  destruct (fs st !! p) as [[? ? | ?] |]; intros [= _ <-]; reflexivity.
Qed.

Lemma framed_stat_mtime (p : string) : framed (stat_mtime p).
Proof.
  apply framed_readonly. intros st r st'. unfold stat_mtime.
  destruct (fs st !! p); intros [= _ <-]; reflexivity.
Qed.

Lemma framed_Date_now : framed (Date_now W).
Proof. apply framed_readonly. intros st r st' [= _ <-]. reflexivity. Qed.

Lemma framed_writeFileSync (p c : string) : P p -> framed (writeFileSync W p c).
Proof.
  intros HP st r st' H q Hq. unfold writeFileSync in H.
  destruct (fs st !! p) as [[? ? | ?] |]; try (now injection H as _ <-);
    destruct (writable W p); injection H as _ <-; try reflexivity;
    simpl; apply lookup_insert_ne; intros ->; contradiction.
Qed.

Lemma framed_writeFileSync_opt (p : string) (c : option string) :
  P p -> framed (writeFileSync_opt W p c).
Proof.
  intros HP. unfold writeFileSync_opt. destruct c as [c |].
  - now apply framed_writeFileSync.
  - destruct (write_undefined W); [now apply framed_writeFileSync |].
    apply respects_throw, same_outside_refl.
Qed.

Lemma framed_ensureDirSync (p : string) : P p -> framed (ensureDirSync W p).
Proof.
  intros HP st r st' H q Hq. unfold ensureDirSync in H.
  destruct (fs st !! p) as [[? ? | ?] |]; try (now injection H as _ <-).
  destruct (writable W p); injection H as _ <-; try reflexivity.
  simpl. apply lookup_insert_ne. intros ->. contradiction.
Qed.

Lemma framed_utimesSync (p : string) (t : Z) : P p -> framed (utimesSync W p t).
Proof.
  intros HP st r st' H q Hq. unfold utimesSync in H.
  destruct (touchable W p); [| now injection H as _ <-].
  destruct (fs st !! p) as [[? ? | ?] |]; injection H as _ <-; try reflexivity;
    simpl; apply lookup_insert_ne; intros ->; contradiction.
Qed.

End Frames.

(** Splits a sequence into its steps, and closes the steps that only read. *)
Ltac frame_step :=
  lazymatch goal with
  | |- respects _ (bind _ _) =>
      apply respects_bind; [apply same_outside_trans | | intros ?]
  | |- respects _ (try_catch _ _) =>
      apply respects_try_catch; [apply same_outside_trans | | intros ?]
  | |- respects _ (ret _) => apply respects_ret; apply same_outside_refl
  | |- respects _ (throw _) => apply respects_throw; apply same_outside_refl
  | |- respects _ (process_exit _) => apply respects_exit; apply same_outside_refl
  | |- respects _ hang => apply respects_hang; apply same_outside_refl
  | |- respects _ (emit _) => apply framed_emit
  | |- respects _ (existsSync _) => apply framed_existsSync
  | |- respects _ (readFileSync _) => apply framed_readFileSync
  | |- respects _ (stat_mtime _) => apply framed_stat_mtime
  | |- respects _ (Date_now _) => apply framed_Date_now
  end.
Ltac frame_steps := repeat frame_step.

Section BuildFrame.

Variable W : World.
Variable options : Options.

Let faviconFolder := Path.join (publicFolder options) "pwa".
Let P := fun p => is_build_output options p = true.

Lemma output_robots : P (Path.join (publicFolder options) "robots.txt").
Proof.
  unfold P, is_build_output, publicFolder. now rewrite String.eqb_refl.
Qed.

Lemma output_favicon_folder : P faviconFolder.
Proof.
  unfold P, is_build_output, faviconFolder, publicFolder.
  rewrite (String.eqb_refl (Path.join (targetFolder options) "pwa")).
  now rewrite orb_true_r.
Qed.

Lemma output_export (entry : string * string) : P (export_path faviconFolder entry).
Proof.
  unfold P, is_build_output, export_path, faviconFolder, publicFolder, Str.startsWith.
  rewrite <- StrFacts.app_assoc, StrFacts.is_prefix_app.
  now rewrite orb_true_r.
Qed.

Lemma output_rewritten (f : string) :
  f ∈ rewritten_files -> P (Path.join faviconFolder f).
Proof.
  intros Hf. unfold P, is_build_output, faviconFolder, publicFolder. cbv zeta.
  set (ff := Path.join (targetFolder options) "pwa").
  assert (H : existsb (fun g => String.eqb (Path.join ff f) (Path.join ff g))
                      rewritten_files = true).
  { apply existsb_exists. exists f. split; [now apply list_elem_of_In |].
    apply String.eqb_refl. }
  rewrite H. now rewrite orb_true_r.
Qed.

Lemma output_document :
  P (if Str.truthy_opt (targetFile options) then Str.of_opt (targetFile options)
     else Path.join (publicFolder options) "index.html").
Proof.
  unfold P, is_build_output, publicFolder.
  rewrite String.eqb_refl. now rewrite !orb_true_r.
Qed.

Local Abbreviation framed := (respects (same_outside P)).

Lemma framed_persist (response : FaviconResponse) :
  framed (persist W faviconFolder response).
Proof.
  unfold persist. frame_steps;
    apply (respects_for_each _ (same_outside_refl P) (same_outside_trans P));
    intros entry _; apply framed_writeFileSync, (output_export entry).
Qed.

Lemma framed_resolve (r : list string) (o : Orchestrator) : framed (resolve r o).
Proof.
  unfold resolve, print. destruct (promise o); frame_steps.
  destruct (timer o); frame_steps.
Qed.

Lemma framed_reject (e : Error) (o : Orchestrator) : framed (reject e o).
Proof. unfold reject. destruct (promise o); frame_steps. Qed.

Lemma framed_generateFav resolve' reject' (args : Error + FaviconResponse)
    (o : Orchestrator) :
  (forall h o, framed (resolve' h o)) -> (forall e o, framed (reject' e o)) ->
  framed (generateFav W faviconFolder resolve' reject' args o).
Proof.
  intros Hres Hrej. destruct args as [e | response]; cbn [generateFav];
    [apply Hrej |].
  frame_steps; [apply framed_persist | apply Hres].
Qed.

Lemma framed_called_back next (r : FavResult) (o : Orchestrator) :
  (forall args o, framed (next args o)) -> framed (called_back next r o).
Proof.
  intros Hnext. destruct r as [e | response]; cbn [called_back]; [apply Hnext |].
  frame_steps; apply Hnext.
Qed.

Lemma framed_on_event (icon : option string) (config : FaviconOptions)
    (ev : Event) (o : Orchestrator) :
  framed (on_event W faviconFolder icon config ev o).
Proof.
  destruct ev as [r | | r]; cbn [on_event].
  - destruct (first_running o); [| frame_steps].
    apply framed_called_back. intros args o'. apply framed_generateFav.
    + intros h o2. unfold guarded_resolve.
      destruct (timer o2); [apply framed_resolve | frame_steps].
    + intros e o2. unfold guarded_reject.
      destruct (timer o2); [apply framed_reject | frame_steps].
  - destruct (scheduled o); unfold console_log; frame_steps.
  - destruct (retry_running o); [| frame_steps].
    apply framed_called_back. intros args o'. apply framed_generateFav.
    + intros h o2. apply framed_resolve.
    + intros e o2. apply framed_reject.
Qed.

Lemma framed_await (icon : option string) (config : FaviconOptions)
    (sched : list Event) :
  forall o, framed (await W faviconFolder icon config sched o).
Proof.
  induction sched as [|ev rest IH]; intros o; cbn [await];
    destruct (promise o); frame_steps.
  - apply framed_on_event.
  - apply IH.
Qed.

Lemma framed_generateFavicons (icon : option string) (config : FaviconOptions)
    (sched : list Event) :
  framed (generateFavicons W faviconFolder icon config sched).
Proof.
  unfold generateFavicons, print, start. frame_steps. apply framed_await.
Qed.

Lemma framed_merge_icons (maskableIcons : list MaskableIconRef) :
  forall manifest, framed (merge_icons (publicFolder options) maskableIcons manifest).
Proof.
  induction maskableIcons as [|maskableIcon rest IH]; intros manifest;
    cbn [merge_icons]; frame_steps; [| apply IH].
  unfold merge_icon, find_in_manifest, console_warn. frame_steps.
  match goal with |- context [if ?b then _ else _] => destruct b end; frame_steps.
  - destruct (Str.startsWith _ "pwa"); [| frame_steps].
    destruct (manifest_icons manifest); [| frame_steps].
    destruct (scan_icons _ _) as [[? ?] |]; frame_steps.
  - match goal with |- context [if ?b then _ else _] => destruct b end; frame_steps.
    destruct (manifest_icons _); frame_steps.
Qed.

Lemma framed_merge_manifest (maskableIcons : list MaskableIconRef) :
  framed (merge_manifest W (publicFolder options) faviconFolder maskableIcons).
Proof.
  unfold merge_manifest, console_error. frame_steps.
  - destruct (JSON_parse W _); frame_steps.
  - apply framed_merge_icons.
  - apply framed_writeFileSync_opt.
    apply (output_rewritten "manifest.json"), list_elem_of_here.
Qed.

Lemma framed_replaceRootPaths :
  framed (replaceRootPaths W faviconFolder rewritten_files).
Proof.
  unfold replaceRootPaths.
  apply (respects_for_each _ (same_outside_refl P) (same_outside_trans P)).
  intros f Hf. unfold rewrite_one. frame_steps.
  match goal with |- context [if ?b then _ else _] => destruct b end; frame_steps.
  now apply framed_writeFileSync, output_rewritten.
Qed.

Lemma framed_generateBasicIndexHTML (title : string) (meta : list Attributes)
    (faviconsOutput : list string) (base : option string) :
  framed (generateBasicIndexHTML W (templateFilePath options) (publicFolder options)
            title meta faviconsOutput (targetFile options) base).
Proof.
  unfold generateBasicIndexHTML, print. frame_steps.
  - destruct (handlebars W _ _); frame_steps.
  - apply framed_writeFileSync, output_document.
Qed.

Lemma framed_prepare_assets (config : AppConfig) (sched : list Event) :
  framed (prepare_assets W options config sched).
Proof.
  unfold prepare_assets. frame_steps.
  - destruct (ens_name _ _); [| frame_steps].
    apply framed_writeFileSync, output_robots.
  - apply framed_ensureDirSync, output_favicon_folder.
  - apply framed_generateFavicons.
  - destruct (maskable_icons config); [apply framed_merge_manifest | frame_steps].
Qed.

(** The build writes nothing but its outputs. *)
Lemma framed_build (config : AppConfig) (sched : list Event) :
  framed (build W options config sched).
Proof.
  unfold build. frame_steps.
  - apply framed_prepare_assets.
  - apply framed_replaceRootPaths.
  - apply framed_generateBasicIndexHTML.
Qed.

End BuildFrame.

(** ** Where a run writes *)

Section WritesWithin.

Variable W : World.
Variable Q : string -> Prop.

Local Abbreviation within := (respects (writes_within Q)).

Lemma writes_within_refl (st : State) : writes_within Q st st.
Proof.
  exists []. split; [now rewrite app_nil_r |].
  intros e p He. now apply elem_of_nil in He.
Qed.

Lemma writes_within_trans (a b c : State) :
  writes_within Q a b -> writes_within Q b c -> writes_within Q a c.
Proof.
  intros (t1 & H1 & Q1) (t2 & H2 & Q2). exists (t1 ++ t2). split.
  - now rewrite H2, H1, app_assoc.
  - intros e p He. apply elem_of_app in He as [He | He]; eauto.
Qed.

(** A computation that adds nothing to the trace. *)
Lemma within_silent {A} (m : M A) :
  (forall st r st', m st = (r, st') -> trace st' = trace st) -> within m.
Proof.
  intros H st r st' Hrun. exists []. split.
  - rewrite (H _ _ _ Hrun). now rewrite app_nil_r.
  - intros e p He. now apply elem_of_nil in He.
Qed.

Lemma within_one (e : Effect) (st st' : State) :
  trace st' = trace st ++ [e] ->
  (forall p, touched e = Some p -> Q p) ->
  writes_within Q st st'.
Proof.
  intros Htr Hq. exists [e]. split; [exact Htr |].
  intros e' p He. apply list_elem_of_singleton in He as ->. apply Hq.
Qed.

Lemma within_emit (e : Effect) : touched e = None -> within (emit e).
Proof.
  intros He st r st' [= _ <-]. apply (within_one e); [reflexivity |].
  intros p Hp. congruence.
Qed.

Lemma within_existsSync (p : string) : within (existsSync p).
Proof. apply within_silent. intros st r st' [= _ <-]. reflexivity. Qed.

Lemma within_readFileSync (p : string) : within (readFileSync p).
Proof.
  apply within_silent. intros st r st'. unfold readFileSync.
  destruct (fs st !! p) as [[? ? | ?] |]; intros [= _ <-]; reflexivity.
Qed.

Lemma within_stat_mtime (p : string) : within (stat_mtime p).
Proof.
  apply within_silent. intros st r st'. unfold stat_mtime.
  destruct (fs st !! p); intros [= _ <-]; reflexivity.
Qed.

Lemma within_Date_now : within (Date_now W).
Proof. apply within_silent. intros st r st' [= _ <-]. reflexivity. Qed.

Lemma within_writeFileSync (p c : string) : Q p -> within (writeFileSync W p c).
Proof.
  intros HQ st r st' H. unfold writeFileSync in H.
  destruct (fs st !! p) as [[? ? | ?] |];
    try (injection H as _ <-; apply writes_within_refl);
    (destruct (writable W p);
     [| injection H as _ <-; apply writes_within_refl]);
    injection H as _ <-; apply (within_one (EWrite p c)); try reflexivity;
    now intros q [= <-].
Qed.

Lemma within_writeFileSync_opt (p : string) (c : option string) :
  Q p -> within (writeFileSync_opt W p c).
Proof.
  intros HQ. unfold writeFileSync_opt. destruct c as [c |].
  - now apply within_writeFileSync.
  - destruct (write_undefined W); [now apply within_writeFileSync |].
    apply respects_throw, writes_within_refl.
Qed.

Lemma within_ensureDirSync (p : string) : Q p -> within (ensureDirSync W p).
Proof.
  intros HQ st r st' H. unfold ensureDirSync in H.
  destruct (fs st !! p) as [[? ? | ?] |];
    try (injection H as _ <-; apply writes_within_refl).
  destruct (writable W p); [| injection H as _ <-; apply writes_within_refl].
  injection H as _ <-. apply (within_one (EMkdir p)); [reflexivity |].
  now intros q [= <-].
Qed.

Lemma within_utimesSync (p : string) (t : Z) : Q p -> within (utimesSync W p t).
Proof.
  intros HQ st r st' H. unfold utimesSync in H.
  destruct (touchable W p); [| injection H as _ <-; apply writes_within_refl].
  destruct (fs st !! p) as [[? ? | ?] |];
    try (injection H as _ <-; apply writes_within_refl);
    injection H as _ <-; apply (within_one (EUtimes p t)); try reflexivity;
    now intros q [= <-].
Qed.

End WritesWithin.

(** Splits a sequence into its steps, and closes the steps that write
    nothing. *)
Ltac within_step :=
  lazymatch goal with
  | |- respects _ (bind _ _) =>
      apply respects_bind; [apply writes_within_trans | | intros ?]
  | |- respects _ (try_catch _ _) =>
      apply respects_try_catch; [apply writes_within_trans | | intros ?]
  | |- respects _ (ret _) => apply respects_ret; apply writes_within_refl
  | |- respects _ (throw _) => apply respects_throw; apply writes_within_refl
  | |- respects _ (process_exit _) => apply respects_exit; apply writes_within_refl
  | |- respects _ hang => apply respects_hang; apply writes_within_refl
  | |- respects _ (emit _) => apply within_emit; reflexivity
  | |- respects _ (existsSync _) => apply within_existsSync
  | |- respects _ (readFileSync _) => apply within_readFileSync
  | |- respects _ (stat_mtime _) => apply within_stat_mtime
  | |- respects _ (Date_now _) => apply within_Date_now
  end.
Ltac within_steps := repeat within_step.

Section RunWrites.

Variable W : World.
Variable Q : string -> Prop.

Local Abbreviation within := (respects (writes_within Q)).

Lemma within_persist (exportFolder : string) (response : FaviconResponse) :
  (forall entry, entry ∈ response_entries response ->
                 Q (export_path exportFolder entry)) ->
  within (persist W exportFolder response).
Proof.
  intros HQ. unfold persist. within_steps;
    apply (respects_for_each _ (writes_within_refl Q) (writes_within_trans Q));
    intros entry Hin; apply within_writeFileSync, HQ;
    unfold response_entries; set_solver.
Qed.

Lemma within_resolve (r : list string) (o : Orchestrator) : within (resolve r o).
Proof.
  unfold resolve, print. destruct (promise o); within_steps.
  destruct (timer o); within_steps.
Qed.

Lemma within_reject (e : Error) (o : Orchestrator) : within (reject e o).
Proof. unfold reject. destruct (promise o); within_steps. Qed.

Lemma within_called_back (exportFolder : string) resolve' reject'
    (r : FavResult) (o : Orchestrator) :
  (forall h o, within (resolve' h o)) -> (forall e o, within (reject' e o)) ->
  (forall response entry,
     r = FavOk response -> entry ∈ response_entries response ->
     Q (export_path exportFolder entry)) ->
  within (called_back (generateFav W exportFolder resolve' reject') r o).
Proof.
  intros Hres Hrej HQ. destruct r as [e | response]; cbn [called_back generateFav];
    [apply Hrej |].
  within_steps; [| apply Hres | apply Hrej].
  apply within_persist. intros entry Hin. now apply (HQ response).
Qed.

Lemma within_on_event (exportFolder : string) (icon : option string)
    (config : FaviconOptions) (ev : Event) (o : Orchestrator) :
  (forall response entry,
     delivered ev = Some response -> entry ∈ response_entries response ->
     Q (export_path exportFolder entry)) ->
  within (on_event W exportFolder icon config ev o).
Proof.
  intros HQ. destruct ev as [r | | r]; cbn [on_event].
  - destruct (first_running o); [| within_steps].
    apply within_called_back.
    + intros h o2. unfold guarded_resolve.
      destruct (timer o2); [apply within_resolve | within_steps].
    + intros e o2. unfold guarded_reject.
      destruct (timer o2); [apply within_reject | within_steps].
    + intros response entry ->. now apply HQ.
  - destruct (scheduled o); unfold console_log; within_steps.
  - destruct (retry_running o); [| within_steps].
    apply within_called_back.
    + intros h o2. apply within_resolve.
    + intros e o2. apply within_reject.
    + intros response entry ->. now apply HQ.
Qed.

Lemma within_await (exportFolder : string) (icon : option string)
    (config : FaviconOptions) (sched : list Event) :
  (forall ev response entry,
     ev ∈ sched -> delivered ev = Some response ->
     entry ∈ response_entries response -> Q (export_path exportFolder entry)) ->
  forall o, within (await W exportFolder icon config sched o).
Proof.
  induction sched as [|ev rest IH]; intros HQ o; cbn [await];
    destruct (promise o); within_steps.
  - apply within_on_event. intros response entry. apply HQ, list_elem_of_here.
  - apply IH. intros ev' response entry Hin. apply HQ.
    now apply list_elem_of_further.
Qed.

Lemma within_generateFavicons (exportFolder : string) (icon : option string)
    (config : FaviconOptions) (sched : list Event) :
  (forall ev response entry,
     ev ∈ sched -> delivered ev = Some response ->
     entry ∈ response_entries response -> Q (export_path exportFolder entry)) ->
  within (generateFavicons W exportFolder icon config sched).
Proof.
  intros HQ. unfold generateFavicons, print, start. within_steps.
  now apply within_await.
Qed.

Lemma within_merge_icons (publicFolder : string)
    (maskableIcons : list MaskableIconRef) :
  forall manifest, within (merge_icons publicFolder maskableIcons manifest).
Proof.
  induction maskableIcons as [|maskableIcon rest IH]; intros manifest;
    cbn [merge_icons]; within_steps; [| apply IH].
  unfold merge_icon, find_in_manifest, console_warn. within_steps.
  match goal with |- context [if ?b then _ else _] => destruct b end; within_steps.
  - destruct (Str.startsWith _ "pwa"); [| within_steps].
    destruct (manifest_icons manifest); [| within_steps].
    destruct (scan_icons _ _) as [[? ?] |]; within_steps.
  - match goal with |- context [if ?b then _ else _] => destruct b end; within_steps.
    destruct (manifest_icons _); within_steps.
Qed.

Lemma within_merge_manifest (publicFolder faviconFolder : string)
    (maskableIcons : list MaskableIconRef) :
  Q (Path.join faviconFolder "manifest.json") ->
  within (merge_manifest W publicFolder faviconFolder maskableIcons).
Proof.
  intros HQ. unfold merge_manifest, console_error. within_steps.
  - destruct (JSON_parse W _); within_steps.
  - apply within_merge_icons.
  - now apply within_writeFileSync_opt.
Qed.

Lemma within_replaceRootPaths (folder : string) (files : list string) :
  (forall f, f ∈ files -> Q (Path.join folder f)) ->
  within (replaceRootPaths W folder files).
Proof.
  intros HQ. unfold replaceRootPaths.
  apply (respects_for_each _ (writes_within_refl Q) (writes_within_trans Q)).
  intros f Hf. unfold rewrite_one. within_steps.
  match goal with |- context [if ?b then _ else _] => destruct b end; within_steps.
  now apply within_writeFileSync, HQ.
Qed.

Lemma within_generateBasicIndexHTML (templateFilePath folder title : string)
    (meta : list Attributes) (faviconsOutput : list string)
    (targetFile base : option string) :
  Q (if Str.truthy_opt targetFile then Str.of_opt targetFile
     else Path.join folder "index.html") ->
  within (generateBasicIndexHTML W templateFilePath folder title meta
            faviconsOutput targetFile base).
Proof.
  intros HQ. unfold generateBasicIndexHTML, print. within_steps.
  - destruct (handlebars W _ _); within_steps.
  - now apply within_writeFileSync.
Qed.

Lemma within_commit (sources : list string) (CACHE_FILE : string) (now : Z) :
  (forall s, s ∈ sources -> Q s) -> Q CACHE_FILE ->
  within (commit W sources CACHE_FILE now).
Proof.
  intros Hs Hc. unfold commit. within_steps.
  - apply (respects_for_each _ (writes_within_refl Q) (writes_within_trans Q)).
    intros s Hin. within_steps. now apply within_utimesSync, Hs.
  - now apply within_writeFileSync.
  - now apply within_utimesSync.
Qed.

Lemma within_staleness_test (options : Options) :
  within (staleness_test W options).
Proof.
  unfold staleness_test, console_error. within_steps.
  match goal with |- context [if ?b then _ else _] => destruct b end; within_steps.
  match goal with |- context [if ?b then _ else _] => destruct b end; within_steps.
  - unfold cache_file. destruct (Str.truthy_opt _); within_steps.
    match goal with |- context [if ?b then _ else _] => destruct b end; within_steps.
  - destruct (parse_config W _); within_steps.
  - unfold max_time. within_steps.
    apply (respects_map_M _ (writes_within_refl Q) (writes_within_trans Q)).
    intros s. unfold source_time. within_steps.
  - unfold last_time. within_steps.
  - match goal with |- context [if ?b then _ else _] => destruct b end; within_steps.
Qed.

Lemma within_gate (options : Options) :
  Q (targetFolder options) -> within (gate W options).
Proof.
  intros HQ. unfold gate, prologue, console_log. within_steps.
  - now apply within_ensureDirSync.
  - apply within_staleness_test.
Qed.

Lemma within_prepare_assets (options : Options) (config : AppConfig)
    (sched : list Event) :
  Q (Path.join (targetFolder options) "robots.txt") ->
  Q (Path.join (targetFolder options) "pwa") ->
  (forall ev response entry,
     ev ∈ sched -> delivered ev = Some response ->
     entry ∈ response_entries response ->
     Q (export_path (Path.join (targetFolder options) "pwa") entry)) ->
  Q (Path.join (Path.join (targetFolder options) "pwa") "manifest.json") ->
  within (prepare_assets W options config sched).
Proof.
  intros Hrobots Hfolder Hexport Hmanifest. unfold prepare_assets. within_steps.
  - destruct (ens_name _ _); [| within_steps].
    now apply within_writeFileSync.
  - now apply within_ensureDirSync.
  - now apply within_generateFavicons.
  - destruct (maskable_icons config); [now apply within_merge_manifest | within_steps].
Qed.

End RunWrites.

(** ** The cache commit (claim C8) *)

Section CommitFacts.

Variable W : World.
Variable options : Options.

(** The statements up to the staleness test write nothing but the target
    folder. *)
Lemma framed_staleness_test (P : string -> Prop) :
  respects (same_outside P) (staleness_test W options).
Proof.
  unfold staleness_test, console_error. frame_steps.
  match goal with |- context [if ?b then _ else _] => destruct b end; frame_steps.
  match goal with |- context [if ?b then _ else _] => destruct b end; frame_steps.
  - unfold cache_file. destruct (Str.truthy_opt _); frame_steps.
    match goal with |- context [if ?b then _ else _] => destruct b end; frame_steps.
  - destruct (parse_config W _); frame_steps.
  - unfold max_time. frame_steps.
    apply (respects_map_M _ (same_outside_refl P) (same_outside_trans P)).
    intros s. unfold source_time. frame_steps.
  - unfold last_time. frame_steps.
  - match goal with |- context [if ?b then _ else _] => destruct b end; frame_steps.
Qed.

Lemma framed_gate :
  respects (same_outside (fun p => p = publicFolder options)) (gate W options).
Proof.
  unfold gate, prologue, console_log. frame_steps.
  - now apply framed_ensureDirSync.
  - apply framed_staleness_test.
Qed.

(** What the test hands on when it lets the run proceed. *)
Lemma staleness_test_proceeds (st st1 : State) (config : AppConfig)
    (sources : list string) (CACHE_FILE : string) (now : Z) :
  staleness_test W options st = (Ok (Proceed config sources CACHE_FILE now), st1) ->
  now = (date_now W (ticks st) / 1000)%Z
  /\ CACHE_FILE = cache_path_of options st
  /\ sources = sources_of options config.
Proof.
  unfold staleness_test. unfold bind at 1. cbn [existsSync].
  destruct (negb _); [intros [= ] |].
  unfold bind at 1. cbn [existsSync].
  destruct (negb _); [intros [= ] |].
  rewrite (bind_Ok _ _ _ _ _ (cache_file_run options st)).
  unfold bind at 1. cbn [Date_now].
  intros H.
  apply bind_inv_Ok in H as (text & st2 & _ & H).
  apply bind_inv_Ok in H as (config' & st3 & Hparse & H).
  apply bind_inv_Ok in H as (maxTime & st4 & _ & H).
  apply bind_inv_Ok in H as (lastTime & st5 & _ & H).
  destruct (negb (force options) && time_ge lastTime maxTime); [discriminate H |].
  injection H as -> <- <- <- _. auto.
Qed.

Lemma ticks_after_prologue (st0 st : State) :
  prologue W options st0 = (Ok tt, st) ->
  ticks st = ticks st0 \/ ticks st = S (ticks st0).
Proof.
  rewrite prologue_run. unfold ensureDirSync. simpl.
  destruct (fs st0 !! publicFolder options) as [[c t | t] |];
    try destruct (writable W (publicFolder options));
    intros [= <-]; auto.
Qed.

(** *** The loop that pins the sources *)

Local Abbreviation pin := (fun now source =>
  try_catch (utimesSync W source now) (fun _ => ret tt)).

Lemma pin_source (now : Z) (s0 : string) (st : State) :
  exists st1,
    pin now s0 st = (Ok tt, st1)
    /\ (forall p, p <> s0 -> fs st1 !! p = fs st !! p)
    /\ (forall p, is_Some (fs st !! p) -> is_Some (fs st1 !! p))
    /\ (touchable W s0 = true -> is_Some (fs st !! s0) ->
        exists n', fs st1 !! s0 = Some n' /\ node_mtime n' = (now * 1000)%Z)
    /\ (forall p n, fs st !! p = Some n -> node_mtime n = (now * 1000)%Z ->
                    exists n', fs st1 !! p = Some n'
                               /\ node_mtime n' = (now * 1000)%Z).
Proof.
  unfold try_catch, utimesSync.
  destruct (touchable W s0) eqn:Ht.
  - destruct (fs st !! s0) as [[c t | t] |] eqn:E;
      eexists; (split; [reflexivity |]); cbn [fs].
    + split; [intros p Hp; now apply lookup_insert_ne |].
      split.
      { intros p Hp. destruct (decide (s0 = p)) as [<- | Hne];
          [rewrite lookup_insert_eq; eauto | now rewrite lookup_insert_ne]. }
      split; [intros _ _; rewrite lookup_insert_eq; eauto |].
      intros p n Hn Hm. destruct (decide (s0 = p)) as [<- | Hne];
        [rewrite lookup_insert_eq; eauto | rewrite lookup_insert_ne; eauto].
    + split; [intros p Hp; now apply lookup_insert_ne |].
      split.
      { intros p Hp. destruct (decide (s0 = p)) as [<- | Hne];
          [rewrite lookup_insert_eq; eauto | now rewrite lookup_insert_ne]. }
      split; [intros _ _; rewrite lookup_insert_eq; eauto |].
      intros p n Hn Hm. destruct (decide (s0 = p)) as [<- | Hne];
        [rewrite lookup_insert_eq; eauto | rewrite lookup_insert_ne; eauto].
    + split; [reflexivity |]. split; [auto |].
      split; [intros _ [n Hn]; discriminate | eauto].
  - eexists. split; [reflexivity |]. split; [reflexivity |].
    split; [auto |]. split; [discriminate | eauto].
Qed.

(** The loop returns; it leaves every other path alone, removes nothing,
    and gives the time [now] to every source that exists and whose times
    can be set. *)
Lemma pin_sources (now : Z) (sources : list string) :
  forall st,
    exists st',
      for_each sources (pin now) st = (Ok tt, st')
      /\ (forall p, p ∉ sources -> fs st' !! p = fs st !! p)
      /\ (forall p, is_Some (fs st !! p) -> is_Some (fs st' !! p))
      /\ (forall s, s ∈ sources -> touchable W s = true -> is_Some (fs st !! s) ->
            exists n', fs st' !! s = Some n' /\ node_mtime n' = (now * 1000)%Z)
      /\ (forall p n, fs st !! p = Some n -> node_mtime n = (now * 1000)%Z ->
                      exists n', fs st' !! p = Some n'
                                 /\ node_mtime n' = (now * 1000)%Z).
Proof.
  induction sources as [|s0 rest IH]; intros st.
  - exists st. split; [reflexivity |]. split; [reflexivity |]. split; [auto |].
    split; [| eauto]. intros s Hs. now apply elem_of_nil in Hs.
  - destruct (pin_source now s0 st) as (st1 & Hstep & Hother & Hkeep & Hpinned & Hstay).
    destruct (IH st1) as (st' & Hrun & Hframe & Hkeep' & Hpin & Hstay').
    exists st'. split.
    { cbn [for_each]. rewrite (bind_Ok _ _ _ _ _ Hstep). exact Hrun. }
    split; [| split; [| split]].
    + intros p Hp. apply not_elem_of_cons in Hp as [Hp0 Hp].
      rewrite (Hframe p Hp). now apply Hother.
    + auto.
    + intros s Hs Ht Hex.
      apply elem_of_cons in Hs as [-> | Hs]; [| now apply Hpin; auto].
      destruct (Hpinned Ht Hex) as (n1 & Hn1 & Hm1).
      exact (Hstay' s0 n1 Hn1 Hm1).
    + intros p n Hn Hm. destruct (Hstay p n Hn Hm) as (n1 & Hn1 & Hm1).
      exact (Hstay' p n1 Hn1 Hm1).
Qed.

(** The commit statements.  The sources are pinned first; then the marker
    is written and pinned, and the commit fails when either of the two
    cannot be done. *)
Lemma commit_run (sources : list string) (CACHE_FILE : string) (now : Z)
    (st st' : State) (r : result unit) :
  commit W sources CACHE_FILE now st = (r, st') ->
  (forall s, s ∈ sources -> touchable W s = true -> is_Some (fs st !! s) ->
     exists n', fs st' !! s = Some n' /\ node_mtime n' = (now * 1000)%Z)
  /\ (forall p, p ∉ sources -> p <> CACHE_FILE -> fs st' !! p = fs st !! p)
  /\ ((r = Ok tt
       /\ exists k, fs st' !! CACHE_FILE
                    = Some (File (pretty (date_now W k)) (now * 1000)%Z))
      \/ (r = Throw (FsError "writeFileSync" CACHE_FILE)
          /\ (CACHE_FILE ∉ sources -> fs st' !! CACHE_FILE = fs st !! CACHE_FILE))
      \/ (r = Throw (FsError "utimesSync" CACHE_FILE)
          /\ touchable W CACHE_FILE = false
          /\ exists k k', fs st' !! CACHE_FILE
                          = Some (File (pretty (date_now W k)) (date_now W k')))).
Proof.
  unfold commit.
  destruct (pin_sources now sources st) as (st1 & Hloop & Hframe & _ & Hpin & _).
  rewrite (bind_Ok _ _ _ _ _ Hloop).
  unfold bind at 1. cbn [Date_now].
  set (st2 := mkState (fs st1) (trace st1) (S (ticks st1))).
  set (stamp := pretty (date_now W (ticks st1))).
  unfold bind at 1.
  destruct (writeFileSync W CACHE_FILE stamp st2) as [[[] | e | c |] st3] eqn:Ewrite.
  - assert (Hst3 : st3 = written W CACHE_FILE stamp st2).
    { unfold writeFileSync in Ewrite.
      destruct (fs st2 !! CACHE_FILE) as [[? ? | ?] |]; try discriminate;
        destruct (writable W CACHE_FILE); try discriminate;
        now injection Ewrite as <-. }
    unfold utimesSync. rewrite Hst3. unfold written. cbn [fs].
    rewrite lookup_insert_eq.
    destruct (touchable W CACHE_FILE) eqn:Ht.
    + intros [= <- <-]. cbn [fs]. rewrite insert_insert_eq.
      split; [| split].
      * intros s Hs Hts Hex.
        destruct (decide (CACHE_FILE = s)) as [<- | Hne];
          [rewrite lookup_insert_eq; eauto |].
        rewrite lookup_insert_ne by exact Hne. now apply Hpin.
      * intros p Hp Hc. rewrite lookup_insert_ne by congruence. now apply Hframe.
      * left. split; [reflexivity |]. exists (ticks st1). apply lookup_insert_eq.
    + intros [= <- <-]. cbn [fs].
      split; [| split].
      * intros s Hs Hts Hex.
        destruct (decide (CACHE_FILE = s)) as [<- | Hne]; [congruence |].
        rewrite lookup_insert_ne by exact Hne. now apply Hpin.
      * intros p Hp Hc. rewrite lookup_insert_ne by congruence. now apply Hframe.
      * right. right. split; [reflexivity |]. split; [reflexivity |].
        exists (ticks st1), (ticks st2). apply lookup_insert_eq.
  - assert (He : e = FsError "writeFileSync" CACHE_FILE /\ st3 = st2).
    { unfold writeFileSync in Ewrite.
      destruct (fs st2 !! CACHE_FILE) as [[? ? | ?] |];
        try destruct (writable W CACHE_FILE); try discriminate;
        injection Ewrite as <- <-; auto. }
    destruct He as [-> ->]. intros [= <- <-]. cbn [fs].
    split; [exact Hpin |]. split; [intros p Hp _; now apply Hframe |].
    right. left. split; [reflexivity | exact (Hframe CACHE_FILE)].
  - exfalso. unfold writeFileSync in Ewrite.
    destruct (fs st2 !! CACHE_FILE) as [[? ? | ?] |];
      try destruct (writable W CACHE_FILE); discriminate.
  - exfalso. unfold writeFileSync in Ewrite.
    destruct (fs st2 !! CACHE_FILE) as [[? ? | ?] |];
      try destruct (writable W CACHE_FILE); discriminate.
Qed.

(** *** The comparison of the staleness test *)

(** The times the test reads: one per source, the modification time of a
    source that is present. *)
Lemma source_times_run (sources : list string) :
forall st,
exists times st2,
map_M (source_time W) sources st = (Ok times, st2)
/\ fs st2 = fs st
/\ forall s n, s ∈ sources -> fs st !! s = Some n -> node_mtime n ∈ times.
Proof.
induction sources as [|s0 rest IH]; intros st.
- exists [], st. split; [reflexivity |]. split; [reflexivity |].
  intros s n Hs. now apply elem_of_nil in Hs.
- assert (Hstep : exists t st1,
             source_time W s0 st = (Ok t, st1) /\ fs st1 = fs st
             /\ forall n, fs st !! s0 = Some n -> t = node_mtime n).
  { unfold source_time, try_catch, stat_mtime.
    destruct (fs st !! s0) as [n0 |] eqn:E.
    - exists (node_mtime n0), st. split; [reflexivity |]. split; [reflexivity |].
      now intros n [= <-].
    - eexists _, _. split; [reflexivity |]. split; [reflexivity |]. discriminate. }
  destruct Hstep as (t & st1 & Hstep & Hfs1 & Ht).
  destruct (IH st1) as (times & st2 & Hrun & Hfs2 & Htimes).
  exists (t :: times), st2. split.
  { cbn [map_M]. rewrite (bind_Ok _ _ _ _ _ Hstep), (bind_Ok _ _ _ _ _ Hrun).
    reflexivity. }
  split; [congruence |].
  intros s n Hs Hn. apply elem_of_cons in Hs as [-> | Hs].
  + rewrite (Ht n Hn). apply list_elem_of_here.
  + apply list_elem_of_further. apply (Htimes s n Hs). now rewrite Hfs1.
Qed.

Lemma fold_max_ge_init (times : list Z) (t : Z) : (t <= fold_left Z.max times t)%Z.
Proof.
revert t. induction times as [|x rest IH]; intros t; [reflexivity |].
cbn [fold_left]. etransitivity; [apply Z.le_max_l | apply IH].
Qed.

Lemma fold_max_ge (times : list Z) (t x : Z) :
x ∈ times -> (x <= fold_left Z.max times t)%Z.
Proof.
revert t. induction times as [|y rest IH]; intros t Hx; [now apply elem_of_nil in Hx |].
cbn [fold_left]. apply elem_of_cons in Hx as [-> | Hx].
- etransitivity; [apply Z.le_max_r | apply fold_max_ge_init].
- now apply IH.
Qed.

(** A source that is present and newer than the cache marker makes the
    comparison of the staleness test fail, whatever the clock says. *)
Lemma newer_source_is_stale (sources : list string) (CACHE_FILE s : string)
  (n : Node) (st : State) :
s ∈ sources -> fs st !! s = Some n ->
(mtime_at st CACHE_FILE < node_mtime n)%Z ->
exists maxTime st2,
max_time W sources st = (Ok maxTime, st2)
/\ time_ge (mtime_at st CACHE_FILE) maxTime = false.
Proof.
intros Hs Hn Hlt.
destruct (source_times_run sources st) as (times & st2 & Hrun & _ & Htimes).
exists (Math_max times), st2. split.
{ unfold max_time. rewrite (bind_Ok _ _ _ _ _ Hrun). reflexivity. }
pose proof (Htimes s n Hs Hn) as Hin.
destruct times as [|t rest]; [now apply elem_of_nil in Hin |].
cbn [Math_max time_ge]. apply Z.leb_gt.
eapply Z.lt_le_trans; [exact Hlt |].
apply elem_of_cons in Hin as [-> | Hin];
  [apply fold_max_ge_init | now apply fold_max_ge].
Qed.

End CommitFacts.

(** The names of the sample response are plain. *)
Lemma sample_schedule_is_plain (rest : list Event) :
  (forall ev response, ev ∈ rest -> delivered ev = Some response ->
                       plain_names response) ->
  plain_schedule (FirstDone (FavOk Sample.response) :: rest).
Proof.
  intros Hrest ev response Hin Hdel.
  apply elem_of_cons in Hin as [-> | Hin]; [| now apply (Hrest ev)].
  injection Hdel as <-. intros entry Hentry.
  unfold response_entries in Hentry. simpl in Hentry.
  repeat (apply elem_of_cons in Hentry as [-> | Hentry]);
    try (now apply elem_of_nil in Hentry);
    repeat split; discriminate.
Qed.

(** C8, as the code has it.  The cache marker and the sources are re-timed
    by the last statements of [generateApp] alone, which run when the
    build (favicons, manifest, path rewriting, document) has returned; but
    they re-time the sources first and write the marker afterwards.  For a
    run that the staleness test lets proceed, with the time [now] read
    from the clock when the run began and the sources being the
    configuration, the template, the icon when one is named and the
    resolved path of each maskable icon:
    - if the build does not return, the run ends as the build did, and
      every path that is neither an output of the build nor the target
      folder, the cache marker and the sources among them, holds exactly
      what it held before the run; a source that was newer than the cache
      marker still is, so that the comparison of the staleness test fails
      again on the next run;
    - if the build returns, every source that exists then and whose times
      can be set has the modification time [now] when the run ends, whether
      the run returns or not, and the paths that are neither sources nor
      the marker, nor outputs of the build, are as they were.  The run
      then returns with the marker a file that holds a reading of the
      clock and has the modification time [now]; or it throws because the
      marker cannot be written, the marker being left as it was; or it
      throws because the times of the marker cannot be set, the marker
      being newly written with the time of its writing.
    A run that stops at or before the staleness test (missing input,
    unreadable configuration, or nothing to rebuild) leaves every path but
    the target folder as it was.  The responses of the renderer are taken
    to name plain files, which stay in the favicon folder. *)
Theorem cache_is_committed_only_on_success
    (W : World) (options : Options) (sched : list Event) (st0 : State)
    (r : result unit) (st' : State) :
  generateApp W options sched st0 = (r, st') ->
  plain_schedule sched ->
  (forall config sources CACHE_FILE now st1,
     gate W options st0 = (Ok (Proceed config sources CACHE_FILE now), st1) ->
     (exists k, (k = ticks st0 \/ k = S (ticks st0))
                /\ now = (date_now W k / 1000)%Z)
     /\ sources
        = [configPath options; templateFilePath options]
          ++ (if Str.truthy_opt (icon config) then [Str.of_opt (icon config)] else [])
          ++ match maskable_icons config with
             | Some l =>
                 map (fun maskableIcon =>
                        Path.join (targetFolder options) (src maskableIcon)) l
             | None => []
             end
     /\ exists rb sb,
          build W options config sched st1 = (rb, sb)
          /\ (rb <> Ok tt ->
              r = rb /\ st' = sb
              /\ (forall p,
                    is_build_output options p = false ->
                    p <> publicFolder options ->
                    fs st' !! p = fs st0 !! p)
              /\ (forall s n st2,
                    is_build_output options CACHE_FILE = false ->
                    CACHE_FILE <> publicFolder options ->
                    is_build_output options s = false ->
                    s <> publicFolder options ->
                    s ∈ sources -> fs st0 !! s = Some n ->
                    (mtime_at st0 CACHE_FILE < node_mtime n)%Z ->
                    fs st2 = fs st' ->
                    exists maxTime st3,
                      max_time W sources st2 = (Ok maxTime, st3)
                      /\ time_ge (mtime_at st2 CACHE_FILE) maxTime = false))
          /\ (rb = Ok tt ->
              (forall s, s ∈ sources -> touchable W s = true ->
                         is_Some (fs sb !! s) ->
                         exists n, fs st' !! s = Some n
                                   /\ node_mtime n = (now * 1000)%Z)
              /\ (forall p,
                    p ∉ sources -> p <> CACHE_FILE ->
                    is_build_output options p = false ->
                    p <> publicFolder options ->
                    fs st' !! p = fs st0 !! p)
              /\ ((r = Ok tt
                   /\ exists k,
                        fs st' !! CACHE_FILE
                        = Some (File (pretty (date_now W k)) (now * 1000)%Z))
                  \/ (r = Throw (FsError "writeFileSync" CACHE_FILE)
                      /\ (CACHE_FILE ∉ sources ->
                          is_build_output options CACHE_FILE = false ->
                          CACHE_FILE <> publicFolder options ->
                          fs st' !! CACHE_FILE = fs st0 !! CACHE_FILE))
                  \/ (r = Throw (FsError "utimesSync" CACHE_FILE)
                      /\ touchable W CACHE_FILE = false
                      /\ exists k k',
                           fs st' !! CACHE_FILE
                           = Some (File (pretty (date_now W k)) (date_now W k'))))))
  /\ (forall gr st1,
        gate W options st0 = (gr, st1) ->
        (forall config sources CACHE_FILE now,
           gr <> Ok (Proceed config sources CACHE_FILE now)) ->
        st' = st1
        /\ (r = Ok tt <-> gr = Ok Skip)
        /\ forall p, p <> publicFolder options -> fs st' !! p = fs st0 !! p).
Proof.
  intros Hrun _. split.
  - intros config sources CACHE_FILE now st1 Hgate.
    pose proof (framed_gate W options _ _ _ Hgate) as Hframe0.
    assert (Hnow : (exists k, (k = ticks st0 \/ k = S (ticks st0))
                              /\ now = (date_now W k / 1000)%Z)
                   /\ sources = sources_of options config).
    { unfold gate in Hgate. apply bind_inv_Ok in Hgate as ([] & st & Hpro & Htest).
      apply staleness_test_proceeds in Htest as (-> & _ & ->).
      split; [| reflexivity].
      exists (ticks st). split; [| reflexivity].
      exact (ticks_after_prologue W options st0 st Hpro). }
    destruct Hnow as [Hnow Hsources].
    split; [exact Hnow |]. split; [exact Hsources |].
    unfold generateApp in Hrun. rewrite (bind_Ok _ _ _ _ _ Hgate) in Hrun.
    unfold bind at 1 in Hrun.
    destruct (build W options config sched st1) as [rb sb] eqn:Ebuild.
    exists rb, sb. split; [reflexivity |].
    assert (Hbuilt : forall p,
               is_build_output options p = false -> p <> publicFolder options ->
               fs sb !! p = fs st0 !! p).
    { intros p Hout Hpf.
      rewrite (framed_build W options config sched _ _ _ Ebuild)
        by (rewrite Hout; discriminate).
      now apply Hframe0. }
    split.
    + (* the build did not return *)
      intros Hrb.
      assert (r = rb /\ st' = sb) as [-> ->].
      { destruct rb as [[] | e | c |]; [now destruct Hrb | | |];
          injection Hrun as <- <-; auto. }
      repeat split; [exact Hbuilt |].
      intros s n st2 HoutC HpfC Houts Hpfs Hs Hn Hlt Hst2.
      apply (newer_source_is_stale W sources CACHE_FILE s n st2 Hs).
      * rewrite Hst2, (Hbuilt s Houts Hpfs). exact Hn.
      * unfold mtime_at. rewrite Hst2, (Hbuilt CACHE_FILE HoutC HpfC).
        exact Hlt.
    + (* the build returned *)
      intros ->.
      unfold bind at 1 in Hrun. cbn [print emit] in Hrun.
      set (sb' := mkState (fs sb) (trace sb ++ [EStdout "caching..."]) (ticks sb)) in *.
      unfold bind at 1 in Hrun.
      destruct (commit W sources CACHE_FILE now sb') as [rc sc] eqn:Ecommit.
      destruct (commit_run W sources CACHE_FILE now sb' sc rc Ecommit)
        as (Hpinned & Hkept & Hmarker).
      assert (Hend : fs st' = fs sc /\ (rc <> Ok tt -> r = rc) /\ (rc = Ok tt -> r = Ok tt)).
      { destruct rc as [[] | e | c |]; injection Hrun as <- <-;
          repeat split; auto; now intros []. }
      destruct Hend as (Hfs & Hfail & Hok). rewrite Hfs.
      split; [exact Hpinned |]. split.
      * intros p Hsrc Hc Hout Hpf. rewrite (Hkept p Hsrc Hc).
        change (fs sb') with (fs sb). now apply Hbuilt.
      * destruct Hmarker as [[-> Hm] | [[-> Hm] | (-> & Ht & Hm)]].
        -- left. split; [now apply Hok | exact Hm].
        -- right. left. split; [now apply Hfail |].
           intros Hsrc Hout Hpf. rewrite (Hm Hsrc).
           change (fs sb') with (fs sb). now apply Hbuilt.
        -- right. right. split; [now apply Hfail |]. split; [exact Ht | exact Hm].
  - intros gr st1 Hgate Hstop.
    pose proof (framed_gate W options _ _ _ Hgate) as Hframe0.
    unfold generateApp, bind in Hrun. rewrite Hgate in Hrun.
    destruct gr as [[| config sources CACHE_FILE now] | e | c |].
    + injection Hrun as <- <-. repeat split; auto.
    + now destruct (Hstop config sources CACHE_FILE now).
    + injection Hrun as <- <-. repeat split; auto; discriminate.
    + injection Hrun as <- <-. repeat split; auto; discriminate.
    + injection Hrun as <- <-. repeat split; auto; discriminate.
Qed.

Lemma cache_is_committed_only_on_success_witness :
  (exists k,
     fs (snd (generateApp Sample.world Sample.options
                [FirstDone (FavOk Sample.response)] (Sample.fresh_build "plain")))
     !! ".prepare-for-web-cache"
     = Some (File (pretty (date_now Sample.world k)) 1700000001000%Z))
  /\ exists n,
       fs (snd (generateApp Sample.world Sample.options
                  [FirstDone (FavOk Sample.response)] (Sample.fresh_build "plain")))
       !! "icon.svg" = Some n
       /\ node_mtime n = 1700000001000%Z.
Proof.
  pose proof (cache_is_committed_only_on_success
                Sample.world Sample.options [FirstDone (FavOk Sample.response)]
                (Sample.fresh_build "plain") _ _ (surjective_pairing _)
                (sample_schedule_is_plain []
                   (fun ev response Hin => match not_elem_of_nil ev Hin with end)))
    as [H _].
  destruct (H Sample.config_plain
              ["application.json"; "index.template.html"; "icon.svg"]
              ".prepare-for-web-cache" 1700000001%Z
              (snd (gate Sample.world Sample.options (Sample.fresh_build "plain"))))
    as (_ & _ & rb & sb & Hbuild & _ & Hok).
  - vm_compute. reflexivity.
  - assert (E : fst (build Sample.world Sample.options Sample.config_plain
                       [FirstDone (FavOk Sample.response)]
                       (snd (gate Sample.world Sample.options
                               (Sample.fresh_build "plain")))) = Ok tt)
      by (vm_compute; reflexivity).
    assert (Hsb : is_Some (fs (snd (build Sample.world Sample.options
                                     Sample.config_plain
                                     [FirstDone (FavOk Sample.response)]
                                     (snd (gate Sample.world Sample.options
                                             (Sample.fresh_build "plain")))))
                           !! "icon.svg"))
      by (vm_compute; eauto).
    rewrite Hbuild in E, Hsb. cbn [fst snd] in E, Hsb.
    destruct (Hok E) as (Hsources & _ & Hmarker). split.
    + destruct Hmarker as [[_ Hm] | [[Hr _] | (Hr & _)]];
        [exact Hm | |]; exfalso; vm_compute in Hr; discriminate Hr.
    + apply (Hsources "icon.svg").
      * apply list_elem_of_further, list_elem_of_further, list_elem_of_here.
      * reflexivity.
      * exact Hsb.
Defined.

(** C8 as stated fails on the code.  The run below keeps its cache marker
    at the path of a directory.  The build returns, the sources are given
    the time of the start of the run, and then the marker cannot be
    written: the run throws, it has not completed, and yet the three
    sources, which had the times 1000, 2000 and 3000, are re-timed. *)
Lemma failed_marker_write_leaves_the_sources_retimed :
  fs Demo.with_node_modules !! "application.json" = Some (File "plain" 1000%Z)
  /\ fs Demo.with_node_modules !! "index.template.html" = Some (File "<html>" 2000%Z)
  /\ fs Demo.with_node_modules !! "icon.svg" = Some (File "svg" 3000%Z)
  /\ exists st',
       generateApp Sample.world Demo.marker_on_folder
         [FirstDone (FavOk Sample.response)] Demo.with_node_modules
       = (Throw (FsError "writeFileSync" "node_modules"), st')
       /\ fs st' !! "application.json" = Some (File "plain" 1700000001000%Z)
       /\ fs st' !! "index.template.html" = Some (File "<html>" 1700000001000%Z)
       /\ fs st' !! "icon.svg" = Some (File "svg" 1700000001000%Z)
       /\ fs st' !! "node_modules" = Some (Dir 100%Z).
Proof.
  split; [reflexivity |]. split; [reflexivity |]. split; [reflexivity |].
  eexists. split; [vm_compute; reflexivity |].
  repeat split; reflexivity.
Qed.

(** ** The persisted manifest (claim C9) *)

Section ManifestFacts.

Variable W : World.

(** *** A rewriting that returned *)

Lemma rewrite_one_returned (folder file : string) (st st1 : State) :
  rewrite_one W folder file st = (Ok tt, st1) ->
  rewritable W st (Path.join folder file)
  /\ forall p, rewritable W st1 p -> rewritable W st p.
Proof.
  unfold rewrite_one, rewritable. set (p0 := Path.join folder file).
  unfold bind at 1. cbn [existsSync].
  destruct (fs st !! p0) as [[c t | t] |] eqn:E.
  - rewrite bool_decide_eq_true_2 by eauto.
    rewrite (bind_Ok _ _ _ _ _ (readFileSync_file _ _ _ _ E)).
    unfold writeFileSync. rewrite E.
    destruct (writable W p0) eqn:Hw; [| discriminate].
    intros [= <-]. split; [reflexivity |].
    intros p. cbn [fs]. destruct (decide (p0 = p)) as [<- | Hne].
    + now rewrite lookup_insert_eq, E.
    + now rewrite lookup_insert_ne.
  - rewrite bool_decide_eq_true_2 by eauto.
    unfold bind, readFileSync. rewrite E. discriminate.
  - rewrite bool_decide_eq_false_2 by (intros [x Hx]; discriminate).
    intros [= <-]. auto.
Qed.

Lemma replaceRootPaths_returned (folder : string) (files : list string) :
  forall st st',
    replaceRootPaths W folder files st = (Ok tt, st') ->
    forall f, f ∈ files -> rewritable W st (Path.join folder f).
Proof.
  induction files as [|f0 rest IH]; intros st st' Hrun f Hf;
    [now apply elem_of_nil in Hf |].
  rewrite replaceRootPaths_cons in Hrun.
  apply bind_inv_Ok in Hrun as ([] & st1 & Hone & Hrest).
  apply rewrite_one_returned in Hone as [H0 Hback].
  apply elem_of_cons in Hf as [-> | Hf]; [exact H0 |].
  apply Hback. now apply (IH st1 st').
Qed.

(** What a rewriting that returned has done to [manifest.json]. *)
Lemma replaceRootPaths_on_manifest (folder : string) (st st' : State) :
  replaceRootPaths W folder rewritten_files st = (Ok tt, st') ->
  (forall c, holds st (Path.join folder "manifest.json") c ->
             holds st' (Path.join folder "manifest.json")
                   (rewrite_content "manifest.json" c))
  /\ (forall c', holds st' (Path.join folder "manifest.json") c' ->
                 exists c, holds st (Path.join folder "manifest.json") c
                           /\ c' = rewrite_content "manifest.json" c).
Proof.
  intros Hrun.
  pose proof (replaceRootPaths_returned folder rewritten_files st st' Hrun) as Hok.
  destruct (replaceRootPaths_rewrites_listed_files_aux W folder rewritten_files st
              Hok (rewritten_files_same_kind folder))
    as (st2 & Hrun2 & Hfiles & Habsent & _).
  assert (st2 = st') as -> by congruence.
  assert (Hin : "manifest.json" ∈ rewritten_files) by apply list_elem_of_here.
  split.
  - intros c [t Hc]. exact (Hfiles _ _ _ Hin Hc).
  - intros c' [t' Hc'].
    pose proof (Hok _ Hin) as Hr. unfold rewritable in Hr.
    destruct (fs st !! Path.join folder "manifest.json") as [[c t | t] |] eqn:E;
      [| contradiction |].
    + exists c. split; [now exists t |].
      destruct (Hfiles _ _ _ Hin E) as [t2 Ht2]. congruence.
    + rewrite (Habsent _ Hin E) in Hc'. discriminate.
Qed.

(** *** Steps that keep the text of a file *)

Lemma same_text_refl (p : string) (st : State) : same_text p st st.
Proof. intros c. reflexivity. Qed.

Lemma same_text_trans (p : string) (a b c : State) :
  same_text p a b -> same_text p b c -> same_text p a c.
Proof. intros H1 H2 x. now rewrite (H1 x). Qed.

Lemma same_text_outside (P : string -> Prop) (p : string) {A} (m : M A) :
  ~ P p -> respects (same_outside P) m -> respects (same_text p) m.
Proof.
  intros Hp Hm st r st' Hrun c. unfold holds.
  now rewrite (Hm st r st' Hrun p Hp).
Qed.

(** [utimesSync] changes a time, never a text. *)
Lemma same_text_utimesSync (p q : string) (t : Z) :
  respects (same_text p) (utimesSync W q t).
Proof.
  intros st r st' Hrun c. unfold utimesSync in Hrun. unfold holds.
  destruct (touchable W q); [| now injection Hrun as _ <-].
  destruct (fs st !! q) as [[c0 t0 | t0] |] eqn:E; injection Hrun as _ <-;
    cbn [fs]; try reflexivity;
    (destruct (decide (q = p)) as [<- | Hne];
     [rewrite lookup_insert_eq, E | now rewrite lookup_insert_ne]).
  - split; intros [x [= ->]]; eauto.
  - split; intros [x [=]].
Qed.

Lemma same_text_commit (p CACHE_FILE : string) (sources : list string) (now : Z) :
  p <> CACHE_FILE ->
  respects (same_text p) (commit W sources CACHE_FILE now).
Proof.
  intros Hp. unfold commit.
  apply respects_bind; [apply same_text_trans | | intros _].
  - apply (respects_for_each _ (same_text_refl p) (same_text_trans p)).
    intros s _.
    apply respects_try_catch; [apply same_text_trans | | intros e].
    + apply same_text_utimesSync.
    + apply respects_ret, same_text_refl.
  - apply (same_text_outside (fun q => q = CACHE_FILE)); [exact Hp |].
    frame_steps.
    + now apply framed_writeFileSync.
    + now apply framed_utimesSync.
Qed.

Lemma same_text_document (options : Options) (p title : string)
    (meta : list Attributes) (faviconsOutput : list string) (base : option string) :
  p <> document_path options ->
  respects (same_text p)
    (generateBasicIndexHTML W (templateFilePath options) (publicFolder options)
       title meta faviconsOutput (targetFile options) base).
Proof.
  intros Hp.
  apply (same_text_outside (fun q => q = document_path options)); [exact Hp |].
  unfold generateBasicIndexHTML, print. frame_steps.
  - destruct (handlebars W _ _); frame_steps.
  - now apply framed_writeFileSync.
Qed.

(** *** The manifest from the prepared assets to the end of the run *)

Lemma manifest_after_the_run (options : Options) (sched : list Event)
    (config : AppConfig) (sources : list string) (CACHE_FILE : string) (now : Z)
    (st0 st1 st' : State) :
  gate W options st0 = (Ok (Proceed config sources CACHE_FILE now), st1) ->
  generateApp W options sched st0 = (Ok tt, st') ->
  Path.join (Path.join (publicFolder options) "pwa") "manifest.json"
    <> document_path options ->
  Path.join (Path.join (publicFolder options) "pwa") "manifest.json" <> CACHE_FILE ->
  exists faviconsOutput mid,
    prepare_assets W options config sched st1 = (Ok faviconsOutput, mid)
    /\ (forall c,
          holds mid (Path.join (Path.join (publicFolder options) "pwa") "manifest.json") c ->
          holds st' (Path.join (Path.join (publicFolder options) "pwa") "manifest.json")
                (rewrite_content "manifest.json" c))
    /\ (forall c',
          holds st' (Path.join (Path.join (publicFolder options) "pwa") "manifest.json") c' ->
          exists c,
            holds mid (Path.join (Path.join (publicFolder options) "pwa") "manifest.json") c
            /\ c' = rewrite_content "manifest.json" c).
Proof.
  set (manifestPath := Path.join (Path.join (publicFolder options) "pwa") "manifest.json").
  intros Hgate Hrun Hdoc Hcache.
  unfold generateApp in Hrun. rewrite (bind_Ok _ _ _ _ _ Hgate) in Hrun.
  apply bind_inv_Ok in Hrun as ([] & sb & Hbuild & Hrun).
  apply bind_inv_Ok in Hrun as ([] & sb' & Hprint & Hrun).
  apply bind_inv_Ok in Hrun as ([] & sc & Hcommit & Hdone).
  unfold build in Hbuild.
  apply bind_inv_Ok in Hbuild as (faviconsOutput & mid & Hassets & Hbuild).
  apply bind_inv_Ok in Hbuild as ([] & s2 & Hrewrite & Hdocument).
  exists faviconsOutput, mid. split; [exact Hassets |].
  apply replaceRootPaths_on_manifest in Hrewrite as [Hfwd Hbwd].
  fold manifestPath in Hfwd, Hbwd.
  assert (Hsame : same_text manifestPath s2 st').
  { apply (same_text_trans _ _ sb);
      [exact (same_text_document options manifestPath _ _ _ _ Hdoc _ _ _ Hdocument) |].
    apply (same_text_trans _ _ sb').
    { injection Hprint as <-. intros c. reflexivity. }
    apply (same_text_trans _ _ sc);
      [exact (same_text_commit manifestPath CACHE_FILE sources now Hcache _ _ _ Hcommit) |].
    injection Hdone as <-. intros c. reflexivity. }
  split.
  - intros c Hc. apply Hsame. now apply Hfwd.
  - intros c' Hc'. apply Hbwd. now apply Hsame.
Qed.

End ManifestFacts.

(** C9.  The renderer is asked for a manifest whose [scope] and [start_url]
    are the root path.  After a run that rebuilt and returned, the
    manifest of the favicon folder (when it is neither the written
    document nor the cache marker) holds what the rewriting of every
    quoted root path, not only of icon sources, made of the manifest the
    renderer and the merge left: if that was the text of a manifest whose
    [scope] and [start_url] are the root path, the persisted manifest has
    the parent path as its [scope] and as its [start_url]; and whatever it
    was, the persisted manifest has the root path as neither. *)
Theorem manifest_scope_and_start_url_are_rewritten
    (W : World) (options : Options) (sched : list Event)
    (config : AppConfig) (sources : list string) (CACHE_FILE : string) (now : Z)
    (st0 st1 st' : State) :
  let faviconFolder := Path.join (publicFolder options) "pwa" in
  let manifestPath := Path.join faviconFolder "manifest.json" in
  gate W options st0 = (Ok (Proceed config sources CACHE_FILE now), st1) ->
  generateApp W options sched st0 = (Ok tt, st') ->
  manifestPath <> document_path options ->
  manifestPath <> CACHE_FILE ->
  fo_scope (favicon_options config (version options)) = "/"
  /\ fo_start_url (favicon_options config (version options)) = "/"
  /\ (exists faviconsOutput mid,
        prepare_assets W options config sched st1 = (Ok faviconsOutput, mid)
        /\ forall fields,
             Json.obj_get "scope" fields = JStr "/" ->
             Json.obj_get "start_url" fields = JStr "/" ->
             holds mid manifestPath (Json.print EmptyString (JObj fields)) ->
             exists text,
               holds st' manifestPath text
               /\ Str.occurs scope_parent text = true
               /\ Str.occurs start_url_parent text = true)
  /\ (forall text,
        holds st' manifestPath text ->
        Str.occurs scope_root text = false
        /\ Str.occurs start_url_root text = false).
Proof.
  intros faviconFolder manifestPath Hgate Hrun Hdoc Hcache.
  destruct (manifest_after_the_run W options sched config sources CACHE_FILE now
              st0 st1 st' Hgate Hrun Hdoc Hcache)
    as (faviconsOutput & mid & Hassets & Hfwd & Hbwd).
  split; [reflexivity |]. split; [reflexivity |]. split.
  - exists faviconsOutput, mid. split; [exact Hassets |].
    intros fields Hscope Hstart Hmid.
    exists (rewrite_content "manifest.json" (Json.print EmptyString (JObj fields))).
    split; [exact (Hfwd _ Hmid) |].
    exact (rewritten_manifest_text fields Hscope Hstart).
  - intros text Htext.
    destruct (Hbwd text Htext) as (c & _ & ->).
    exact (rewritten_manifest_clean c).
Qed.

Lemma manifest_scope_and_start_url_are_rewritten_witness :
  exists text,
    holds (snd (generateApp Sample.world Sample.options
                  [FirstDone (FavOk Sample.response)] (Sample.fresh_build "plain")))
          "public/pwa/manifest.json" text
    /\ Str.occurs scope_parent text = true
    /\ Str.occurs start_url_parent text = true
    /\ Str.occurs scope_root text = false
    /\ Str.occurs start_url_root text = false.
Proof.
  destruct (manifest_scope_and_start_url_are_rewritten
              Sample.world Sample.options [FirstDone (FavOk Sample.response)]
              Sample.config_plain
              ["application.json"; "index.template.html"; "icon.svg"]
              ".prepare-for-web-cache" 1700000001%Z
              (Sample.fresh_build "plain")
              (snd (gate Sample.world Sample.options (Sample.fresh_build "plain")))
              (snd (generateApp Sample.world Sample.options
                      [FirstDone (FavOk Sample.response)] (Sample.fresh_build "plain"))))
    as (_ & _ & (faviconsOutput & mid & Hassets & Hparent) & Hroot).
  - vm_compute. reflexivity.
  - vm_compute. reflexivity.
  - vm_compute. discriminate.
  - vm_compute. discriminate.
  - destruct (Hparent [("name", JStr "App"); ("scope", JStr "/"); ("start_url", JStr "/");
                       ("icons", JArr [JObj [("src", JStr "/pwa/a.png");
                                             ("sizes", JStr "1x1")]])]
                eq_refl eq_refl)
      as (text & Htext & Hscope & Hstart).
    + assert (E : mid = snd (prepare_assets Sample.world Sample.options Sample.config_plain
                               [FirstDone (FavOk Sample.response)]
                               (snd (gate Sample.world Sample.options
                                       (Sample.fresh_build "plain")))))
        by (now rewrite Hassets).
      rewrite E. vm_compute. eexists. reflexivity.
    + exists text. destruct (Hroot text Htext) as [H1 H2]. auto.
Defined.

(* ===================================================================== *)
(** * Part III.  Further properties of the code                           *)
(* ===================================================================== *)

(** ** How [generateApp] ends before the build *)

Section GateOutcomes.

Variable W : World.
Variable options : Options.

(** The times the staleness test compares the marker with: the
    modification time of a source that is present, a reading of the clock
    for one that is not. *)
Lemma source_times_shape (sources : list string) :
  forall st,
    exists times st2,
      map_M (source_time W) sources st = (Ok times, st2)
      /\ fs st2 = fs st /\ trace st2 = trace st /\ ticks st <= ticks st2
      /\ Forall2 (fun s t => source_reading W st s t) sources times.
Proof.
  induction sources as [|s0 rest IH]; intros st.
  - exists [], st. repeat split; auto; constructor.
  - assert (Hstep : exists t st1,
               source_time W s0 st = (Ok t, st1)
               /\ fs st1 = fs st /\ trace st1 = trace st /\ ticks st <= ticks st1
               /\ source_reading W st s0 t).
    { unfold source_time, try_catch, stat_mtime, source_reading.
      destruct (fs st !! s0) as [n0 |] eqn:E.
      - exists (node_mtime n0), st. repeat split; auto.
      - eexists _, _. split; [reflexivity |]. cbn.
        repeat split; auto. exists (ticks st). auto. }
    destruct Hstep as (t & st1 & Hstep & Hfs1 & Htr1 & Htk1 & Ht).
    destruct (IH st1) as (times & st2 & Hrun & Hfs2 & Htr2 & Htk2 & Hall).
    exists (t :: times), st2. split.
    { cbn [map_M]. rewrite (bind_Ok _ _ _ _ _ Hstep), (bind_Ok _ _ _ _ _ Hrun).
      reflexivity. }
    split; [congruence |]. split; [congruence |]. split; [lia |].
    constructor; [exact Ht |].
    eapply Forall2_impl; [exact Hall |].
    intros s t'. unfold source_reading. rewrite Hfs1.
    destruct (fs st !! s); [auto |].
    intros (k & Hk & ->). exists k. split; [lia | reflexivity].
Qed.

(** The staleness test on a configuration that is read and parsed and a
    template that is present: what it compares and what it decides. *)
Lemma staleness_test_run (st : State) (text : string) (tc : Z) (config : AppConfig) :
  fs st !! configPath options = Some (File text tc) ->
  parse_config W text = Some config ->
  is_Some (fs st !! templateFilePath options) ->
  exists times st1,
    staleness_test W options st
    = (Ok (if negb (force options)
              && time_ge (mtime_at st (cache_path_of options st)) (Math_max times)
           then Skip
           else Proceed config (sources_of options config)
                        (cache_path_of options st)
                        (date_now W (ticks st) / 1000)%Z),
       st1)
    /\ fs st1 = fs st /\ trace st1 = trace st
    /\ Forall2 (fun s t =>
                  source_reading W (mkState (fs st) (trace st) (S (ticks st))) s t)
               (sources_of options config) times.
Proof.
  intros Hconfig Hparse Htemplate.
  set (st' := mkState (fs st) (trace st) (S (ticks st))).
  destruct (source_times_shape (sources_of options config) st')
    as (times & st2 & Hrun & Hfs2 & Htr2 & _ & Hall).
  exists times, st2.
  split; [| split; [exact Hfs2 | split; [exact Htr2 | exact Hall]]].
  unfold staleness_test.
  unfold bind at 1. cbn [existsSync]. rewrite Hconfig.
  rewrite bool_decide_eq_true_2 by eauto. cbn [negb].
  unfold bind at 1. cbn [existsSync].
  rewrite bool_decide_eq_true_2 by exact Htemplate. cbn [negb].
  rewrite (bind_Ok _ _ _ _ _ (cache_file_run options st)).
  unfold bind at 1. cbn [Date_now]. fold st'.
  rewrite (bind_Ok _ _ _ _ _ (readFileSync_file _ _ _ st' Hconfig)).
  rewrite Hparse. unfold bind at 1. cbn [ret].
  unfold max_time.
  rewrite (bind_Ok _ _ _ _ _ (bind_Ok _ _ _ _ _ Hrun)).
  rewrite (bind_Ok _ _ _ _ _ (last_time_run _ st2)).
  assert (Hm : mtime_at st2 (cache_path_of options st)
               = mtime_at st (cache_path_of options st)).
  { unfold mtime_at. now rewrite Hfs2. }
  rewrite Hm.
  destruct (negb (force options) && time_ge _ _); reflexivity.
Qed.

(** A reading that exceeds the marker's time makes the comparison fail. *)
Lemma later_reading_is_stale (times : list Z) (t L : Z) :
  t ∈ times -> (L < t)%Z -> time_ge L (Math_max times) = false.
Proof.
  intros Hin Hlt. destruct times as [|t0 rest]; [now apply elem_of_nil in Hin |].
  cbn [Math_max time_ge]. apply Z.leb_gt.
  eapply Z.lt_le_trans; [exact Hlt |].
  apply elem_of_cons in Hin as [-> | Hin];
    [apply fold_max_ge_init | now apply fold_max_ge].
Qed.

Lemma Forall2_reading (sources : list string) (times : list Z) (st : State)
    (s : string) :
  Forall2 (fun s t => source_reading W st s t) sources times ->
  s ∈ sources ->
  exists t, t ∈ times /\ source_reading W st s t.
Proof.
  induction 1 as [|s0 t0 sources times H0 Hall IH]; intros Hin;
    [now apply elem_of_nil in Hin |].
  apply elem_of_cons in Hin as [-> | Hin].
  - exists t0. split; [apply list_elem_of_here | exact H0].
  - destruct (IH Hin) as (t & Ht & Hr). exists t.
    split; [now apply list_elem_of_further | exact Hr].
Qed.

End GateOutcomes.

(** X1.  [generateApp] requires its two input files.  Once the opening
    line is printed and the target folder ensured, a configuration path
    that does not exist makes the run print on the error stream that the
    file is required and end the process with exit code 1; so does, when
    the configuration exists, a template path that does not.  Nothing
    else is printed or written by then. *)
Theorem missing_input_exits_with_code_1
    (W : World) (options : Options) (sched : list Event) (st0 st : State) :
  prologue W options st0 = (Ok tt, st) ->
  (fs st !! configPath options = None ->
   generateApp W options sched st0
   = (Exit 1,
      mkState (fs st)
        (trace st
         ++ [EConsoleError ("The " +:+ configPath options
                            +:+ " file is required to prepare the web application")])
        (ticks st)))
  /\ (is_Some (fs st !! configPath options) ->
      fs st !! templateFilePath options = None ->
      generateApp W options sched st0
      = (Exit 1,
         mkState (fs st)
           (trace st
            ++ [EConsoleError ("The " +:+ templateFilePath options
                               +:+ " file is required to prepare the web application")])
           (ticks st))).
Proof.
  intros Hpro.
  assert (Hgen : forall d st1,
             staleness_test W options st = (Exit d, st1) ->
             generateApp W options sched st0 = (Exit d, st1)).
  { intros d st1 Htest. unfold generateApp, gate.
    rewrite bind_assoc, (bind_Ok _ _ _ _ _ Hpro).
    unfold bind at 1. unfold bind at 1. now rewrite Htest. }
  split.
  - intros Hconfig. apply Hgen.
    unfold staleness_test. unfold bind at 1. cbn [existsSync]. rewrite Hconfig.
    rewrite bool_decide_eq_false_2 by (intros [x Hx]; discriminate).
    reflexivity.
  - intros Hconfig Htemplate. apply Hgen.
    unfold staleness_test. unfold bind at 1. cbn [existsSync].
    rewrite bool_decide_eq_true_2 by exact Hconfig. cbn [negb].
    unfold bind at 1. cbn [existsSync]. rewrite Htemplate.
    rewrite bool_decide_eq_false_2 by (intros [x Hx]; discriminate).
    reflexivity.
Qed.

Lemma missing_input_exits_with_code_1_witness :
  generateApp Sample.world Sample.options [] (mkState ∅ [] 0)
  = (Exit 1,
     mkState (<["public" := Dir 1700000000123%Z]> ∅)
       [EConsoleLog "preparing from application.json to public...";
        EMkdir "public";
        EConsoleError
          "The application.json file is required to prepare the web application"]
       1).
Proof.
  exact (proj1 (missing_input_exits_with_code_1
                  Sample.world Sample.options [] (mkState ∅ [] 0)
                  (mkState (<["public" := Dir 1700000000123%Z]> ∅)
                     [EConsoleLog "preparing from application.json to public...";
                      EMkdir "public"] 1)
                  eq_refl)
               eq_refl).
Defined.

(** X2.  A configuration that cannot be read as JSON stops the run with
    an exception before anything is built: a configuration path that is a
    directory fails in [readFileSync], a text that does not parse fails in
    [JSON.parse].  By then the run has printed its opening line, ensured
    the target folder, and read the clock once. *)
Theorem unreadable_configuration_throws
    (W : World) (options : Options) (sched : list Event) (st0 st : State) :
  prologue W options st0 = (Ok tt, st) ->
  is_Some (fs st !! templateFilePath options) ->
  (forall t,
     fs st !! configPath options = Some (Dir t) ->
     generateApp W options sched st0
     = (Throw (FsError "readFileSync" (configPath options)),
        mkState (fs st) (trace st) (S (ticks st))))
  /\ (forall text tc,
        fs st !! configPath options = Some (File text tc) ->
        parse_config W text = None ->
        generateApp W options sched st0
        = (Throw (SyntaxError "JSON.parse"),
           mkState (fs st) (trace st) (S (ticks st)))).
Proof.
  intros Hpro Htemplate.
  assert (Hgen : forall e st1,
             staleness_test W options st = (Throw e, st1) ->
             generateApp W options sched st0 = (Throw e, st1)).
  { intros e st1 Htest. unfold generateApp, gate.
    rewrite bind_assoc, (bind_Ok _ _ _ _ _ Hpro).
    unfold bind at 1. unfold bind at 1. now rewrite Htest. }
  assert (Hhead : forall n,
             fs st !! configPath options = Some n ->
             staleness_test W options st
             = bind (readFileSync (configPath options))
                 (fun text =>
                    config <-
                      match parse_config W text with
                      | Some c => ret c
                      | None => throw (SyntaxError "JSON.parse")
                      end ;;
                    let sources := sources_of options config in
                    maxTime <- max_time W sources ;;
                    lastTime <- last_time (cache_path_of options st) ;;
                    if negb (force options) && time_ge lastTime maxTime then ret Skip
                    else ret (Proceed config sources (cache_path_of options st)
                                (date_now W (ticks st) / 1000)%Z))
                 (mkState (fs st) (trace st) (S (ticks st)))).
  { intros n Hn. unfold staleness_test.
    unfold bind at 1. cbn [existsSync]. rewrite Hn.
    rewrite bool_decide_eq_true_2 by eauto. cbn [negb].
    unfold bind at 1. cbn [existsSync].
    rewrite bool_decide_eq_true_2 by exact Htemplate. cbn [negb].
    rewrite (bind_Ok _ _ _ _ _ (cache_file_run options st)).
    unfold bind at 1. cbn [Date_now]. reflexivity. }
  split.
  - intros t Hdir. apply Hgen. rewrite (Hhead _ Hdir).
    unfold bind, readFileSync. cbn [fs]. now rewrite Hdir.
  - intros text tc Hfile Hparse. apply Hgen. rewrite (Hhead _ Hfile).
    rewrite (bind_Ok _ _ _ _ _
               (readFileSync_file _ _ _ (mkState (fs st) (trace st) (S (ticks st)))
                  Hfile)).
    rewrite Hparse. reflexivity.
Qed.

Lemma unreadable_configuration_throws_witness :
  generateApp Sample.world Sample.options [] (Sample.fresh_build "not json")
  = (Throw (SyntaxError "JSON.parse"),
     mkState (<["public" := Dir 1700000000123%Z]> (Sample.sources_only "not json"))
       [EConsoleLog "preparing from application.json to public..."; EMkdir "public"]
       2).
Proof.
  refine (proj2 (unreadable_configuration_throws
                   Sample.world Sample.options [] (Sample.fresh_build "not json")
                   (mkState (<["public" := Dir 1700000000123%Z]>
                               (Sample.sources_only "not json"))
                      [EConsoleLog "preparing from application.json to public...";
                       EMkdir "public"] 1)
                   eq_refl _)
                "not json" 1000%Z eq_refl eq_refl).
  vm_compute. eauto.
Defined.

(** X3.  The force flag overrides the cache.  When it is set and the
    inputs can be read, the staleness test lets the run proceed whatever
    the times of the cache marker and of the sources are, handing on the
    parsed configuration, the sources, the marker path and the clock
    reading of the start in seconds. *)
Theorem forced_run_always_rebuilds
    (W : World) (options : Options) (st0 st : State)
    (text : string) (tc : Z) (config : AppConfig) :
  prologue W options st0 = (Ok tt, st) ->
  fs st !! configPath options = Some (File text tc) ->
  parse_config W text = Some config ->
  is_Some (fs st !! templateFilePath options) ->
  force options = true ->
  exists st1,
    gate W options st0
    = (Ok (Proceed config (sources_of options config) (cache_path_of options st)
             (date_now W (ticks st) / 1000)%Z),
       st1)
    /\ fs st1 = fs st /\ trace st1 = trace st.
Proof.
  intros Hpro Hconfig Hparse Htemplate Hforce.
  destruct (staleness_test_run W options st text tc config Hconfig Hparse Htemplate)
    as (times & st1 & Htest & Hfs & Htr & _).
  exists st1. split; [| auto].
  unfold gate. rewrite (bind_Ok _ _ _ _ _ Hpro), Htest, Hforce. reflexivity.
Qed.

Lemma forced_run_always_rebuilds_witness :
  exists st1,
    gate Sample.world Sample.forced (Sample.cached "plain")
    = (Ok (Proceed Sample.config_plain
             ["application.json"; "index.template.html"; "icon.svg"]
             ".prepare-for-web-cache" 1700000001%Z),
       st1).
Proof.
  destruct (forced_run_always_rebuilds
              Sample.world Sample.forced (Sample.cached "plain")
              (snd (prologue Sample.world Sample.forced (Sample.cached "plain")))
              "plain" 1000%Z Sample.config_plain)
    as (st1 & Hgate & _).
  - reflexivity.
  - reflexivity.
  - reflexivity.
  - vm_compute. eauto.
  - reflexivity.
  - exists st1. exact Hgate.
Defined.

(** X4.  A source that is newer than the cache marker makes the build
    stale: when some source is present with a modification time greater
    than the marker's (zero when there is no marker), the staleness test
    lets the run proceed, forced or not. *)
Theorem newer_source_triggers_rebuild
    (W : World) (options : Options) (st0 st : State)
    (text : string) (tc : Z) (config : AppConfig) (s : string) (n : Node) :
  prologue W options st0 = (Ok tt, st) ->
  fs st !! configPath options = Some (File text tc) ->
  parse_config W text = Some config ->
  is_Some (fs st !! templateFilePath options) ->
  s ∈ sources_of options config ->
  fs st !! s = Some n ->
  (mtime_at st (cache_path_of options st) < node_mtime n)%Z ->
  exists st1,
    gate W options st0
    = (Ok (Proceed config (sources_of options config) (cache_path_of options st)
             (date_now W (ticks st) / 1000)%Z),
       st1)
    /\ fs st1 = fs st /\ trace st1 = trace st.
Proof.
  intros Hpro Hconfig Hparse Htemplate Hs Hn Hlt.
  destruct (staleness_test_run W options st text tc config Hconfig Hparse Htemplate)
    as (times & st1 & Htest & Hfs & Htr & Hall).
  exists st1. split; [| auto].
  unfold gate. rewrite (bind_Ok _ _ _ _ _ Hpro), Htest.
  destruct (Forall2_reading W _ _ _ s Hall Hs) as (t & Ht & Hr).
  unfold source_reading in Hr. cbn [fs] in Hr. rewrite Hn in Hr. subst t.
  rewrite (later_reading_is_stale times _ _ Ht Hlt).
  now rewrite andb_false_r.
Qed.

Lemma newer_source_triggers_rebuild_witness :
  exists st1,
    gate Sample.world Sample.options (Sample.fresh_build "plain")
    = (Ok (Proceed Sample.config_plain
             ["application.json"; "index.template.html"; "icon.svg"]
             ".prepare-for-web-cache" 1700000001%Z),
       st1).
Proof.
  destruct (newer_source_triggers_rebuild
              Sample.world Sample.options (Sample.fresh_build "plain")
              (snd (prologue Sample.world Sample.options (Sample.fresh_build "plain")))
              "plain" 1000%Z Sample.config_plain "icon.svg" (File "svg" 3000%Z))
    as (st1 & Hgate & _).
  - reflexivity.
  - reflexivity.
  - reflexivity.
  - vm_compute. eauto.
  - vm_compute. apply list_elem_of_further, list_elem_of_further, list_elem_of_here.
  - reflexivity.
  - vm_compute. reflexivity.
  - exists st1. exact Hgate.
Defined.

(** X5.  A source that cannot be examined counts as modified now.  When
    some source (the icon, say) does not exist, its time in the comparison
    is a reading of the clock; so when the clock is ahead of the cache
    marker's modification time, the staleness test lets the run proceed,
    however recent the marker is with regard to the sources that exist. *)
Theorem missing_source_triggers_rebuild
    (W : World) (options : Options) (st0 st : State)
    (text : string) (tc : Z) (config : AppConfig) (s : string) :
  prologue W options st0 = (Ok tt, st) ->
  fs st !! configPath options = Some (File text tc) ->
  parse_config W text = Some config ->
  is_Some (fs st !! templateFilePath options) ->
  s ∈ sources_of options config ->
  fs st !! s = None ->
  (forall k, (mtime_at st (cache_path_of options st) < date_now W k)%Z) ->
  exists st1,
    gate W options st0
    = (Ok (Proceed config (sources_of options config) (cache_path_of options st)
             (date_now W (ticks st) / 1000)%Z),
       st1)
    /\ fs st1 = fs st /\ trace st1 = trace st.
Proof.
  intros Hpro Hconfig Hparse Htemplate Hs Hn Hclock.
  destruct (staleness_test_run W options st text tc config Hconfig Hparse Htemplate)
    as (times & st1 & Htest & Hfs & Htr & Hall).
  exists st1. split; [| auto].
  unfold gate. rewrite (bind_Ok _ _ _ _ _ Hpro), Htest.
  destruct (Forall2_reading W _ _ _ s Hall Hs) as (t & Ht & Hr).
  unfold source_reading in Hr. cbn [fs] in Hr. rewrite Hn in Hr.
  destruct Hr as (k & _ & ->).
  rewrite (later_reading_is_stale times _ _ Ht (Hclock k)).
  now rewrite andb_false_r.
Qed.

Lemma missing_source_triggers_rebuild_witness :
  exists st1,
    gate Sample.world Sample.options Demo.cached_without_icon
    = (Ok (Proceed Sample.config_plain
             ["application.json"; "index.template.html"; "icon.svg"]
             ".prepare-for-web-cache" 1700000001%Z),
       st1).
Proof.
  destruct (missing_source_triggers_rebuild
              Sample.world Sample.options Demo.cached_without_icon
              (snd (prologue Sample.world Sample.options Demo.cached_without_icon))
              "plain" 1000%Z Sample.config_plain "icon.svg")
    as (st1 & Hgate & _).
  - reflexivity.
  - reflexivity.
  - reflexivity.
  - vm_compute. eauto.
  - vm_compute. apply list_elem_of_further, list_elem_of_further, list_elem_of_here.
  - reflexivity.
  - intros k. change (5000 < 1700000000123 + 1000 * Z.of_nat k)%Z. lia.
  - exists st1. exact Hgate.
Defined.

(** X6.  A target folder that cannot be ensured stops the run at once.
    When the target path is a file, or does not exist and cannot be
    created, [generateApp] throws in [ensureDirSync] right after printing
    its opening line, before it looks at the configuration: nothing is
    written and the process is not ended with an exit code. *)
Theorem target_folder_that_cannot_be_ensured_stops_the_run
    (W : World) (options : Options) (sched : list Event) (st0 : State) :
  (exists c t, fs st0 !! publicFolder options = Some (File c t))
  \/ (fs st0 !! publicFolder options = None
      /\ writable W (publicFolder options) = false) ->
  generateApp W options sched st0
  = (Throw (FsError "ensureDirSync" (publicFolder options)),
     mkState (fs st0) (trace st0 ++ [EConsoleLog (opening_line options)])
             (ticks st0)).
Proof.
  intros Hbad.
  assert (Hpro : prologue W options st0
                 = (Throw (FsError "ensureDirSync" (publicFolder options)),
                    mkState (fs st0)
                      (trace st0 ++ [EConsoleLog (opening_line options)])
                      (ticks st0))).
  { rewrite prologue_run. unfold ensureDirSync. cbn [fs].
    destruct Hbad as [(c & t & ->) | [-> ->]]; reflexivity. }
  unfold generateApp, gate. rewrite bind_assoc.
  now rewrite (bind_Throw _ _ _ _ _ Hpro).
Qed.

Lemma target_folder_that_cannot_be_ensured_stops_the_run_witness :
  generateApp Sample.world
    (mkOptions "application.json" "index.template.html" "icon.svg"
               None None None None false)
    [] (Sample.fresh_build "plain")
  = (Throw (FsError "ensureDirSync" "icon.svg"),
     mkState (Sample.sources_only "plain")
       [EConsoleLog "preparing from application.json to icon.svg..."] 0).
Proof.
  apply (target_folder_that_cannot_be_ensured_stops_the_run
           Sample.world
           (mkOptions "application.json" "index.template.html" "icon.svg"
                      None None None None false)
           [] (Sample.fresh_build "plain")).
  left. exists "svg", 3000%Z. reflexivity.
Defined.

(** ** The cache marker of a rebuild *)

(** The marker a commit leaves holds a reading of the clock, in decimal. *)
Lemma commit_stamp (W : World) (sources : list string) (CACHE_FILE : string)
    (now : Z) (st st' : State) :
  commit W sources CACHE_FILE now st = (Ok tt, st') ->
  exists k,
    fs st' !! CACHE_FILE = Some (File (pretty (date_now W k)) (now * 1000)%Z).
Proof.
  intros H.
  destruct (commit_run W sources CACHE_FILE now st st' (Ok tt) H)
    as (_ & _ & [[_ Hm] | [[Hr _] | (Hr & _)]]);
    [exact Hm | discriminate Hr | discriminate Hr].
Qed.

(** X7.  Where the cache marker is kept and what it holds.  The marker
    path of a run is the cache path of the options when that is a
    non-empty string; otherwise it lies in [node_modules] when, once the
    target folder is ensured, a path of that name exists, and in the
    working directory when not.  After a rebuild that returned, the
    marker is a file holding the decimal text of a reading of the clock,
    with the start of the run, in whole seconds, as its modification
    time. *)
Theorem cache_marker_path_and_content
    (W : World) (options : Options) (sched : list Event) (st0 st st1 st' : State)
    (config : AppConfig) (sources : list string) (CACHE_FILE : string) (now : Z) :
  prologue W options st0 = (Ok tt, st) ->
  gate W options st0 = (Ok (Proceed config sources CACHE_FILE now), st1) ->
  generateApp W options sched st0 = (Ok tt, st') ->
  CACHE_FILE
  = (if Str.truthy_opt (cachePath options) then Str.of_opt (cachePath options)
     else if bool_decide (is_Some (fs st !! "node_modules"))
          then "node_modules/.prepare-for-web-cache"
          else ".prepare-for-web-cache")
  /\ exists k,
       fs st' !! CACHE_FILE
       = Some (File (pretty (date_now W k)) (now * 1000)%Z).
Proof.
  intros Hpro Hgate Hrun. split.
  - unfold gate in Hgate. rewrite (bind_Ok _ _ _ _ _ Hpro) in Hgate.
    apply staleness_test_proceeds in Hgate as (_ & -> & _). reflexivity.
  - unfold generateApp in Hrun. rewrite (bind_Ok _ _ _ _ _ Hgate) in Hrun.
    apply bind_inv_Ok in Hrun as ([] & sb & _ & Hrun).
    apply bind_inv_Ok in Hrun as ([] & sb' & _ & Hrun).
    apply bind_inv_Ok in Hrun as ([] & sc & Hcommit & Hdone).
    injection Hdone as <-. cbn [fs].
    exact (commit_stamp W sources CACHE_FILE now sb' sc Hcommit).
Qed.

Lemma cache_marker_path_and_content_witness :
  exists k,
    fs (snd (generateApp Sample.world Sample.options
               [FirstDone (FavOk Sample.response)] Demo.with_node_modules))
    !! "node_modules/.prepare-for-web-cache"
    = Some (File (pretty (date_now Sample.world k)) 1700000001000%Z).
Proof.
  destruct (cache_marker_path_and_content
              Sample.world Sample.options [FirstDone (FavOk Sample.response)]
              Demo.with_node_modules
              (snd (prologue Sample.world Sample.options Demo.with_node_modules))
              (snd (gate Sample.world Sample.options Demo.with_node_modules))
              (snd (generateApp Sample.world Sample.options
                      [FirstDone (FavOk Sample.response)] Demo.with_node_modules))
              Sample.config_plain
              ["application.json"; "index.template.html"; "icon.svg"]
              "node_modules/.prepare-for-web-cache" 1700000001%Z)
    as (_ & k & Hk).
  - reflexivity.
  - vm_compute. reflexivity.
  - vm_compute. reflexivity.
  - exists k. exact Hk.
Defined.

(** ** The ENS name of [robots.txt] *)

Module EnsFacts.
Import Str StrFacts.

Lemma drop_app (p s : string) : drop (String.length p) (p +:+ s) = s.
Proof. induction p as [|c p IH]; [reflexivity |]. rewrite app_cons. exact IH. Qed.

Lemma take_app (p s : string) : take (String.length p) (p +:+ s) = p.
Proof.
  induction p as [|c p IH]; [now destruct s |].
  rewrite app_cons. cbn [String.length take]. now rewrite IH.
Qed.

Lemma endsWith_app (a b : string) : endsWith (a +:+ b) b = true.
Proof. apply endsWith_spec. now exists a. Qed.

Lemma truthy_app_r (a : string) (c : ascii) (b : string) :
  truthy (a +:+ String c b) = true.
Proof.
  unfold truthy. destruct a as [|d a]; [reflexivity |].
  rewrite app_cons. reflexivity.
Qed.

End EnsFacts.

(** The ENS name derived from a gateway address: the host with [.eth],
    the last five characters and the scheme being cut off. *)
Lemma ens_name_of_gateway_url
    (config : AppConfig) (scheme host tld : string) :
  Str.truthy_opt (ensName config) = false ->
  scheme = "https://" \/ scheme = "http://" \/ scheme = "" ->
  tld = ".link" \/ tld = ".limo" ->
  Str.startsWith (host +:+ ".eth") "https://" = false ->
  Str.startsWith (host +:+ ".eth") "http://" = false ->
  ens_name (Some (scheme +:+ host +:+ ".eth" +:+ tld)) config
  = Some (host +:+ ".eth").
Proof.
  intros Hnone Hscheme Htld Hs1 Hs2.
  set (body := host +:+ ".eth") in *.
  assert (Hu : scheme +:+ host +:+ ".eth" +:+ tld = (scheme +:+ body) +:+ tld).
  { unfold body. now rewrite !StrFacts.app_assoc. }
  rewrite Hu.
  assert (Hends : Str.endsWith ((scheme +:+ body) +:+ tld) ".eth.link"
                  || Str.endsWith ((scheme +:+ body) +:+ tld) ".eth.limo" = true).
  { unfold body. rewrite <- !StrFacts.app_assoc.
    destruct Htld as [-> | ->].
    - rewrite !StrFacts.app_assoc.
      change (".eth" +:+ ".link") with ".eth.link".
      rewrite <- StrFacts.app_assoc.
      now rewrite EnsFacts.endsWith_app.
    - rewrite !StrFacts.app_assoc.
      change (".eth" +:+ ".limo") with ".eth.limo".
      rewrite <- StrFacts.app_assoc.
      rewrite EnsFacts.endsWith_app. apply orb_true_r. }
  assert (Htake : Str.take (String.length ((scheme +:+ body) +:+ tld) - 5)
                           ((scheme +:+ body) +:+ tld)
                  = scheme +:+ body).
  { rewrite StrFacts.length_app.
    replace (String.length (scheme +:+ body) + String.length tld - 5)
      with (String.length (scheme +:+ body))
      by (destruct Htld as [-> | ->]; simpl; lia).
    apply EnsFacts.take_app. }
  assert (Htruthy : Str.truthy ((scheme +:+ body) +:+ tld) = true).
  { destruct Htld as [-> | ->]; apply EnsFacts.truthy_app_r. }
  assert (Hbody : Str.truthy (scheme +:+ body) = true).
  { unfold body. rewrite <- StrFacts.app_assoc. apply EnsFacts.truthy_app_r. }
  unfold ens_name.
  assert (Hname1 : Str.truthy_opt
                     match ensName config with
                     | Some n =>
                         if Str.truthy n && negb (Str.endsWith n ".eth")
                         then Some (n +:+ ".eth") else Some n
                     | None => None
                     end = false).
  { destruct (ensName config) as [n |]; [| reflexivity].
    cbn [Str.truthy_opt] in Hnone. rewrite Hnone. exact Hnone. }
  cbv zeta. rewrite Hname1. cbn [negb].
  rewrite Htruthy, Hends, Htake. cbn [andb]. rewrite Hbody.
  destruct Hscheme as [-> | [-> | ->]].
  - unfold Str.startsWith at 2. rewrite StrFacts.is_prefix_app.
    change 8 with (String.length "https://"). rewrite EnsFacts.drop_app.
    now rewrite Hs2.
  - change (Str.startsWith ("http://" +:+ body) "https://") with false.
    unfold Str.startsWith at 1. rewrite StrFacts.is_prefix_app.
    change 7 with (String.length "http://"). now rewrite EnsFacts.drop_app.
  - rewrite StrFacts.app_nil_l, Hs1, Hs2. reflexivity.
Qed.

(** X8.  The ENS site written to [robots.txt].  When the configuration
    names no ENS name and the address of the application (that of the
    options when it is a non-empty string, that of the configuration
    otherwise) is a host under [.eth.link] or [.eth.limo], with or without
    an [https://] or [http://] scheme, the first thing the build does is
    to write [robots.txt] of the target folder, holding [Dwebsite: ]
    followed by the host with [.eth]: the last five characters and the
    scheme are cut off.  When that file cannot be written, the build
    throws there and then.  (A host that itself begins with a scheme
    would lose that as well.) *)
Theorem robots_txt_names_the_ens_site
    (W : World) (options : Options) (config : AppConfig) (sched : list Event)
    (scheme host tld : string) (st : State) (r : result (list string))
    (st' : State) :
  Str.truthy_opt (ensName config) = false ->
  scheme = "https://" \/ scheme = "http://" \/ scheme = "" ->
  tld = ".link" \/ tld = ".limo" ->
  Str.startsWith (host +:+ ".eth") "https://" = false ->
  Str.startsWith (host +:+ ".eth") "http://" = false ->
  (if Str.truthy_opt (applicationURL options) then applicationURL options
   else url config)
  = Some (scheme +:+ host +:+ ".eth" +:+ tld) ->
  prepare_assets W options config sched st = (r, st') ->
  let robots := Path.join (targetFolder options) "robots.txt" in
  (writable W robots = true -> (forall t, fs st !! robots <> Some (Dir t)) ->
   exists added,
     trace st'
     = trace st ++ EWrite robots ("Dwebsite: " +:+ host +:+ ".eth") :: added)
  /\ (writable W robots = false \/ (exists t, fs st !! robots = Some (Dir t)) ->
      r = Throw (FsError "writeFileSync" robots) /\ st' = st).
Proof.
  intros Hnone Hscheme Htld Hs1 Hs2 Hurl Hrun robots.
  pose proof (ens_name_of_gateway_url config scheme host tld
                Hnone Hscheme Htld Hs1 Hs2) as Hens.
  unfold prepare_assets in Hrun. cbv zeta in Hrun.
  unfold effective_url in Hrun. rewrite Hurl, Hens in Hrun.
  change (Path.join (publicFolder options) "robots.txt") with robots in Hrun.
  unfold bind at 1 in Hrun.
  split.
  - intros Hw Hnd.
    rewrite (writeFileSync_ok W robots _ st (conj Hw Hnd)) in Hrun.
    set (text := "Dwebsite: " +:+ host +:+ ".eth") in *.
    assert (Hrest : writes_within (fun _ => True) (written W robots text st) st').
    { revert Hrun. generalize (written W robots text st) r st'.
      match goal with
      | |- forall s r0 s0, ?m s = (r0, s0) -> _ =>
          change (respects (writes_within (fun _ => True)) m)
      end.
      within_steps.
      - now apply within_ensureDirSync.
      - now apply within_generateFavicons.
      - destruct (maskable_icons config);
          [now apply within_merge_manifest | within_steps]. }
    destruct Hrest as (added & Htr & _). exists added.
    rewrite Htr. unfold written. cbn [trace]. now rewrite <- app_assoc.
  - intros Hbad. unfold writeFileSync in Hrun.
    destruct Hbad as [Hw | [t Hdir]].
    + rewrite Hw in Hrun.
      destruct (fs st !! robots) as [[? ? | ?] |]; now injection Hrun as <- <-.
    + rewrite Hdir in Hrun. now injection Hrun as <- <-.
Qed.

Lemma robots_txt_names_the_ens_site_witness :
  exists added,
    trace (snd (prepare_assets Sample.world Sample.options Sample.config_plain
                  [FirstDone (FavOk Sample.response)] (Sample.fresh_build "plain")))
    = EWrite "public/robots.txt" "Dwebsite: example.eth" :: added.
Proof.
  destruct (robots_txt_names_the_ens_site
              Sample.world Sample.options Sample.config_plain
              [FirstDone (FavOk Sample.response)] "https://" "example" ".link"
              (Sample.fresh_build "plain") _ _
              eq_refl (or_introl eq_refl) (or_introl eq_refl) eq_refl eq_refl
              eq_refl (surjective_pairing _))
    as [Hwritten _].
  destruct Hwritten as [added Htr].
  - reflexivity.
  - intros t. vm_compute. discriminate.
  - exists added. exact Htr.
Defined.

(** X9.  A configured ENS name wins over the address and is completed
    with [.eth] when it does not end with it.  (The name is taken here
    without a scheme, which the code would cut off.) *)
Theorem configured_ens_name_is_completed
    (config_url : option string) (config : AppConfig) (n : string) :
  ensName config = Some n ->
  Str.truthy n = true ->
  let name := if Str.endsWith n ".eth" then n else n +:+ ".eth" in
  Str.startsWith name "https://" = false ->
  Str.startsWith name "http://" = false ->
  ens_name config_url config = Some name.
Proof.
  intros Hn Htruthy name Hs1 Hs2. unfold ens_name. rewrite Hn, Htruthy.
  cbv zeta. subst name.
  destruct (Str.endsWith n ".eth") eqn:He; cbn [negb andb Str.truthy_opt].
  - rewrite Htruthy. cbn [negb]. rewrite Htruthy, Hs1, Hs2. reflexivity.
  - assert (Ht : Str.truthy (n +:+ ".eth") = true)
      by apply EnsFacts.truthy_app_r.
    rewrite Ht. cbn [negb]. rewrite Ht, Hs1, Hs2. reflexivity.
Qed.

Lemma configured_ens_name_is_completed_witness :
  ens_name (Some "https://example.com") Demo.config_ens = Some "wighawag.eth".
Proof.
  exact (configured_ens_name_is_completed (Some "https://example.com")
           Demo.config_ens "wighawag" eq_refl eq_refl eq_refl eq_refl).
Defined.

(** ** [generateFavicons]: the attempt that answers in time, and the one
       that cannot be stored *)

Section FaviconOutcomes.

Variable W : World.
Variables (exportFolder : string) (icon : option string) (config : FaviconOptions).

(** No event changes a promise that is settled. *)
Lemma on_event_keeps_settled (ev : Event) (o : Orchestrator) (st : State) :
  promise o <> Pending ->
  exists o' st',
    on_event W exportFolder icon config ev o st = (Ok o', st')
    /\ promise o' = promise o.
Proof.
  intros Hp. destruct ev as [r | | r]; cbn [on_event].
  - destruct (first_running o); [| eauto].
    unfold called_back, try_catch, generateFav, guarded_resolve, guarded_reject,
      resolve, reject, bind. cbn [timer promise].
    destruct r as [e | response].
    + destruct (timer o), (promise o); try (now destruct Hp);
        eexists _, _; split; reflexivity.
    + destruct (persist_end W exportFolder response st) as (rp & st1 & -> & Hrp).
      destruct Hrp as [-> | (entry & _ & ->)];
        destruct (timer o), (promise o); try (now destruct Hp);
        eexists _, _; split; reflexivity.
  - destruct (scheduled o); eexists _, _; split; reflexivity.
  - destruct (retry_running o); [| eauto].
    unfold called_back, try_catch, generateFav, resolve, reject, bind.
    cbn [timer promise].
    destruct r as [e | response].
    + destruct (promise o); try (now destruct Hp);
        eexists _, _; split; reflexivity.
    + destruct (persist_end W exportFolder response st) as (rp & st1 & -> & Hrp).
      destruct Hrp as [-> | (entry & _ & ->)];
        destruct (promise o); try (now destruct Hp);
        eexists _, _; split; reflexivity.
Qed.

Lemma run_events_keeps_settled (sched : list Event) :
  forall (o : Orchestrator) (st : State),
    promise o <> Pending ->
    exists o' st',
      run_events W exportFolder icon config sched o st = (Ok o', st')
      /\ promise o' = promise o.
Proof.
  induction sched as [|ev rest IH]; intros o st Hp.
  - exists o, st. split; reflexivity.
  - destruct (on_event_keeps_settled ev o st Hp) as (o1 & st1 & Hstep & Hp1).
    destruct (IH o1 st1) as (o' & st' & Hrun & Hp'); [congruence |].
    exists o', st'. split; [| congruence].
    cbn [run_events]. rewrite (bind_Ok _ _ _ _ _ Hstep). exact Hrun.
Qed.

(** Once the timeout is out of the queue the renderer is not called
    again. *)
Lemma run_events_unscheduled (sched : list Event) :
  forall (o : Orchestrator) (st : State),
    scheduled o = false ->
    exists o' st',
      run_events W exportFolder icon config sched o st = (Ok o', st')
      /\ scheduled o' = false
      /\ calls (trace st') = calls (trace st).
Proof.
  induction sched as [|ev rest IH]; intros o st Hs.
  - exists o, st. split; [reflexivity |]. auto.
  - destruct (on_event_calls W exportFolder icon config ev o st)
      as (o1 & st1 & Hstep & _ & Hle).
    destruct (quiet_on_event_unscheduled W exportFolder icon config ev o Hs
                _ _ _ Hstep) as (Hc & _).
    rewrite Hs in Hle.
    assert (Hs1 : scheduled o1 = false) by (destruct (scheduled o1); [lia | reflexivity]).
    destruct (IH o1 st1 Hs1) as (o' & st' & Hrun & Hs' & Hc').
    exists o', st'. split; [| split; [exact Hs' | congruence]].
    cbn [run_events]. rewrite (bind_Ok _ _ _ _ _ Hstep). exact Hrun.
Qed.

(** The callback of the first attempt, arriving in time with a response
    that can be stored. *)
Lemma first_callback_in_time (response : FaviconResponse) (st : State) :
  exportable W exportFolder st response ->
  exists st1,
    persist W exportFolder response st = (Ok tt, st1)
    /\ on_event W exportFolder icon config (FirstDone (FavOk response))
         (mkOrch true true Pending true false) st
       = (Ok (mkOrch true false (Fulfilled (html response)) false false),
          mkState (fs st1)
            ((trace st1 ++ [EStdout (" done" +:+ Json.nl)]) ++ [EClearTimeout])
            (ticks st1)).
Proof.
  intros Hex.
  destruct (persist_exportable W exportFolder response st Hex) as (st1 & Hrun & _).
  exists st1. split; [exact Hrun |].
  cbn [on_event first_running]. unfold called_back, try_catch, generateFav.
  rewrite (bind_Ok _ _ _ _ _ Hrun). reflexivity.
Qed.

(** The callback of the first attempt, arriving in time with a response
    one file of which cannot be stored: the files before it are written,
    and the exception of the write comes back to the callback as its
    error. *)
Lemma first_callback_fails (response : FaviconResponse)
    (pre : list (string * string)) (entry : string * string)
    (post : list (string * string)) (st : State) :
  response_entries response = pre ++ entry :: post ->
  (forall e, e ∈ pre ->
     writable W (export_path exportFolder e) = true
     /\ not_dir st (export_path exportFolder e)) ->
  unwritable W st (export_path exportFolder entry) ->
  exists st1,
    on_event W exportFolder icon config (FirstDone (FavOk response))
      (mkOrch true true Pending true false) st
    = (Ok (mkOrch true true
             (Rejected (FsError "writeFileSync" (export_path exportFolder entry)))
             false false),
       st1)
    /\ trace st1
       = trace st
         ++ map (fun e => EWrite (export_path exportFolder e) (snd e)) pre.
Proof.
  intros Hsplit Hpre Hbad.
  destruct (write_entries_stop W exportFolder pre entry post st Hpre Hbad)
    as (st1 & Hrun & Htr & _).
  exists st1. split; [| exact Htr].
  cbn [on_event first_running]. unfold called_back, try_catch, generateFav.
  unfold bind at 1. rewrite persist_entries, Hsplit, Hrun. reflexivity.
Qed.

End FaviconOutcomes.

(** X10.  The attempt that answers in time.  When the renderer calls back
    with a response before the timeout and the export folder takes every
    file, [generateFavicons] returns the HTML fragments of the response:
    it has printed its two progress messages, armed one timeout, called
    the renderer once, written the images and then the files in order,
    and cleared the timeout.  Whatever the event loop delivers afterwards,
    the renderer is not called a second time and the promise keeps its
    value. *)
Theorem first_attempt_in_time_needs_no_retry
    (W : World) (exportFolder : string) (icon : option string)
    (config : FaviconOptions) (response : FaviconResponse) (rest : list Event)
    (st : State) :
  exportable W exportFolder st response ->
  (exists st',
     generateFavicons W exportFolder icon config
       (FirstDone (FavOk response) :: rest) st
     = (Ok (html response), st')
     /\ trace st'
        = trace st
          ++ [EStdout "generating favicons..."; ESetTimeout timeout_ms;
              EFavicons icon config]
          ++ map (fun entry => EWrite (export_path exportFolder entry) (snd entry))
                 (response_entries response)
          ++ [EStdout (" done" +:+ Json.nl); EClearTimeout])
  /\ (exists o' st',
        bind (start icon config)
             (run_events W exportFolder icon config
                (FirstDone (FavOk response) :: rest)) st
        = (Ok o', st')
        /\ promise o' = Fulfilled (html response)
        /\ scheduled o' = false
        /\ calls (trace st') = calls (trace st) + 1).
Proof.
  intros Hex.
  set (st0 := mkState (fs st)
                ((trace st ++ [ESetTimeout timeout_ms]) ++ [EFavicons icon config])
                (ticks st)).
  set (sp := mkState (fs st) (trace st ++ [EStdout "generating favicons..."]) (ticks st)).
  set (sp0 := mkState (fs sp)
                ((trace sp ++ [ESetTimeout timeout_ms]) ++ [EFavicons icon config])
                (ticks sp)).
  split.
  - assert (Hex0 : exportable W exportFolder sp0 response) by exact Hex.
    destruct (first_callback_in_time W exportFolder icon config response sp0 Hex0)
      as (s1 & Hpersist & Hstep).
    destruct (persist_exportable W exportFolder response sp0 Hex0)
      as (s1' & Hpersist' & Htrace & _).
    assert (s1' = s1) as -> by congruence.
    eexists. split.
    + unfold generateFavicons. unfold bind at 1. cbn [print emit]. fold sp.
      rewrite (bind_Ok _ _ _ _ _ (start_run icon config sp)). fold sp0.
      cbn [await promise]. rewrite (bind_Ok _ _ _ _ _ Hstep).
      destruct rest; reflexivity.
    + cbn [trace]. rewrite Htrace. unfold sp0, sp. cbn [trace].
      rewrite <- !app_assoc. reflexivity.
  - assert (Hex0 : exportable W exportFolder st0 response) by exact Hex.
    destruct (first_callback_in_time W exportFolder icon config response st0 Hex0)
      as (s1 & Hpersist & Hstep).
    destruct (quiet_persist W exportFolder response _ _ _ Hpersist) as (Hc1 & _).
    match type of Hstep with
    | _ = (Ok ?o1, ?s2) =>
        destruct (run_events_unscheduled W exportFolder icon config rest o1 s2 eq_refl)
          as (o' & st' & Hrun & Hs' & Hc');
        destruct (run_events_keeps_settled W exportFolder icon config rest o1 s2)
          as (o'' & st'' & Hrun' & Hp'); [discriminate |]
    end.
    assert (o'' = o') as -> by congruence.
    exists o', st'. split.
    + rewrite (bind_Ok _ _ _ _ _ (start_run icon config st)). fold st0.
      cbn [run_events]. rewrite (bind_Ok _ _ _ _ _ Hstep). exact Hrun.
    + split; [exact Hp' |]. split; [exact Hs' |].
      rewrite Hc'. cbn [trace]. rewrite !calls_app, Hc1.
      unfold st0. cbn [trace]. rewrite !calls_app. simpl. lia.
Qed.

Lemma first_attempt_in_time_needs_no_retry_witness :
  exists st',
    generateFavicons Sample.world "public/pwa" (Some "icon.svg")
      (favicon_options Sample.config_plain None)
      [FirstDone (FavOk Sample.response); TimerFires] Sample.rendered
    = (Ok (html Sample.response), st')
    /\ calls (trace st') = 1.
Proof.
  destruct (first_attempt_in_time_needs_no_retry
              Sample.world "public/pwa" (Some "icon.svg")
              (favicon_options Sample.config_plain None) Sample.response
              [TimerFires] Sample.rendered)
    as [(st' & Hrun & Htrace) _].
  - intros entry Hin. unfold response_entries in Hin. simpl in Hin.
    repeat (apply elem_of_cons in Hin as [-> | Hin]);
      try (now apply elem_of_nil in Hin);
      (split; [reflexivity | intros t; vm_compute; discriminate]).
  - exists st'. split; [exact Hrun |]. rewrite Htrace. reflexivity.
Defined.

(** X11.  A promise settles once.  When the promise of [generateFavicons]
    is fulfilled or rejected, nothing the event loop delivers afterwards
    (a callback of either attempt, with a response or an error, or the
    timeout) changes its value or its error. *)
Theorem settled_promise_is_final
    (W : World) (exportFolder : string) (icon : option string)
    (config : FaviconOptions) (sched : list Event) (o : Orchestrator) (st : State) :
  promise o <> Pending ->
  exists o' st',
    run_events W exportFolder icon config sched o st = (Ok o', st')
    /\ promise o' = promise o.
Proof.
  revert o st. induction sched as [|ev rest IH]; intros o st Hp.
  - exists o, st. split; reflexivity.
  - destruct (on_event_keeps_settled W exportFolder icon config ev o st Hp)
      as (o1 & st1 & Hstep & Hp1).
    destruct (IH o1 st1) as (o' & st' & Hrun & Hp'); [congruence |].
    exists o', st'. split; [| congruence].
    cbn [run_events]. rewrite (bind_Ok _ _ _ _ _ Hstep). exact Hrun.
Qed.

Lemma settled_promise_is_final_witness :
  exists o' st',
    run_events Sample.world "public/pwa" (Some "icon.svg")
      (favicon_options Sample.config_plain None)
      [RetryDone (FavError "late"); FirstDone (FavOk Sample.response); TimerFires]
      (mkOrch false false (Fulfilled ["<first>"]) true true) Sample.rendered
    = (Ok o', st')
    /\ promise o' = Fulfilled ["<first>"].
Proof.
  apply (settled_promise_is_final Sample.world "public/pwa" (Some "icon.svg")
           (favicon_options Sample.config_plain None)
           [RetryDone (FavError "late"); FirstDone (FavOk Sample.response); TimerFires]
           (mkOrch false false (Fulfilled ["<first>"]) true true) Sample.rendered).
  discriminate.
Defined.

(** X12.  A response that cannot be stored is a failure of the run.  When
    the first response arrives in time and one of its files cannot be
    written (the filesystem refuses it, or a directory stands at its
    path), the files before it are written and stay, and the exception of
    the write that failed comes back to the callback as its error, since
    the renderer hands the rejection of the callback to the callback
    again: the promise is rejected with that exception and
    [generateFavicons] throws it, without the closing message.  As after
    any rejection, the timeout stays armed and is not cleared; and when it
    fires, the renderer is called a second time. *)
Theorem unwritable_response_rejects_with_the_write_error
    (W : World) (exportFolder : string) (icon : option string)
    (config : FaviconOptions) (response : FaviconResponse)
    (pre : list (string * string)) (entry : string * string)
    (post : list (string * string)) (rest : list Event) (st : State) :
  images response ++ files response = pre ++ entry :: post ->
  (forall e, e ∈ pre ->
     writable W (export_path exportFolder e) = true
     /\ not_dir st (export_path exportFolder e)) ->
  unwritable W st (export_path exportFolder entry) ->
  (exists st',
     generateFavicons W exportFolder icon config
       (FirstDone (FavOk response) :: rest) st
     = (Throw (FsError "writeFileSync" (export_path exportFolder entry)), st')
     /\ trace st'
        = trace st
          ++ [EStdout "generating favicons..."; ESetTimeout timeout_ms;
              EFavicons icon config]
          ++ map (fun e => EWrite (export_path exportFolder e) (snd e)) pre)
  /\ (exists o1 st1,
        bind (start icon config)
             (on_event W exportFolder icon config (FirstDone (FavOk response))) st
        = (Ok o1, st1)
        /\ promise o1
           = Rejected (FsError "writeFileSync" (export_path exportFolder entry))
        /\ timer o1 = true /\ scheduled o1 = true
        /\ clears (trace st1) = clears (trace st)
        /\ calls (trace st1) = calls (trace st) + 1
        /\ exists o2 st2,
             on_event W exportFolder icon config TimerFires o1 st1 = (Ok o2, st2)
             /\ retry_running o2 = true
             /\ calls (trace st2) = calls (trace st) + 2).
Proof.
  intros Hsplit Hpre Hbad.
  assert (Hcount : forall l : list (string * string),
             calls (map (fun e => EWrite (export_path exportFolder e) (snd e)) l) = 0
             /\ clears (map (fun e => EWrite (export_path exportFolder e) (snd e)) l)
                = 0).
  { induction l as [|e l [IH1 IH2]]; split; auto. }
  split.
  - set (sp := mkState (fs st) (trace st ++ [EStdout "generating favicons..."])
                 (ticks st)).
    set (s0 := mkState (fs sp)
                 ((trace sp ++ [ESetTimeout timeout_ms]) ++ [EFavicons icon config])
                 (ticks sp)).
    destruct (first_callback_fails W exportFolder icon config response pre entry post
                s0 Hsplit Hpre Hbad) as (s1 & Hrun & Htr).
    exists s1. split.
    + unfold generateFavicons. unfold bind at 1. cbn [print emit]. fold sp.
      rewrite (bind_Ok _ _ _ _ _ (start_run icon config sp)). fold s0.
      cbn [await promise]. rewrite (bind_Ok _ _ _ _ _ Hrun).
      destruct rest; reflexivity.
    + rewrite Htr. unfold s0, sp. cbn [trace]. now rewrite <- !app_assoc.
  - set (s0 := mkState (fs st)
                 ((trace st ++ [ESetTimeout timeout_ms]) ++ [EFavicons icon config])
                 (ticks st)).
    destruct (first_callback_fails W exportFolder icon config response pre entry post
                s0 Hsplit Hpre Hbad) as (s1 & Hrun & Htr).
    eexists _, s1.
    split; [rewrite (bind_Ok _ _ _ _ _ (start_run icon config st)); exact Hrun |].
    destruct (Hcount pre) as [Hc Hcl].
    assert (Hc1 : calls (trace s1) = calls (trace st) + 1)
      by (rewrite Htr; unfold s0; cbn [trace]; rewrite !calls_app, Hc; simpl; lia).
    assert (Hcl1 : clears (trace s1) = clears (trace st))
      by (rewrite Htr; unfold s0; cbn [trace]; rewrite !clears_app, Hcl; simpl; lia).
    cbn [promise timer scheduled].
    repeat split; try assumption.
    eexists _, _. split; [reflexivity |]. cbn [retry_running trace].
    rewrite !calls_app. simpl. split; [reflexivity | lia].
Qed.

Lemma unwritable_response_rejects_with_the_write_error_witness :
  exists st',
    generateFavicons Sample.world "public" (Some "icon.svg")
      (favicon_options Sample.config_plain None)
      [FirstDone (FavOk Demo.response_onto_folder)] Sample.rendered
    = (Throw (FsError "writeFileSync" "public/pwa"), st')
    /\ trace st'
       = [EStdout "generating favicons..."; ESetTimeout 30000%Z;
          EFavicons (Some "icon.svg") (favicon_options Sample.config_plain None);
          EWrite "public/first.png" "PNG"].
Proof.
  refine (proj1 (unwritable_response_rejects_with_the_write_error
                   Sample.world "public" (Some "icon.svg")
                   (favicon_options Sample.config_plain None)
                   Demo.response_onto_folder
                   [("first.png", "PNG")] ("pwa", "PNG") [] [] Sample.rendered
                   eq_refl _ _)).
  - intros e He. apply list_elem_of_singleton in He as ->.
    split; [reflexivity | intros t; vm_compute; discriminate].
  - right. exists 4000%Z. reflexivity.
Defined.

(** ** The manifest merge as a whole *)

Section MergeLoop.

Variable publicFolder : string.

Lemma obj_set_same (key : string) (v : json) (fields : list (string * json)) :
  Json.obj_get key fields = v -> v <> JUndef ->
  Json.obj_set key v fields = fields.
Proof.
  intros Hget Hv. induction fields as [|[k x] rest IH];
    cbn [Json.obj_get Json.obj_set] in *; [congruence |].
  destruct (String.eqb k key); [now subst x | now rewrite IH].
Qed.

Lemma set_icons_same (manifest : json) (icons : list json) :
  manifest_icons manifest = Some icons -> set_icons icons manifest = manifest.
Proof.
  destruct manifest as [| | | | | |fields]; try discriminate.
  cbn [manifest_icons set_icons].
  destruct (Json.obj_get "icons" fields) as [| | | | |items|] eqn:E; try discriminate.
  intros [= ->]. now rewrite obj_set_same.
Qed.

Lemma state_eta (st : State) : mkState (fs st) (trace st) (ticks st) = st.
Proof. now destruct st. Qed.

(** The loop over icons none of whose paths the scan applies to. *)
Lemma merge_icons_unscanned (maskableIcons : list MaskableIconRef) :
  forall (manifest : json) (icons : list json) (st : State),
    manifest_icons manifest = Some icons ->
    (forall m, m ∈ maskableIcons ->
       Str.startsWith (Path.join publicFolder (src m)) "pwa" = false) ->
    merge_icons publicFolder maskableIcons manifest st
    = (Ok (set_icons
             (icons ++ map maskable_entry
                         (List.filter (present_icon publicFolder (fs st)) maskableIcons))
             manifest),
       mkState (fs st)
         (trace st
          ++ map (missing_icon_effect publicFolder)
               (List.filter (fun m => negb (present_icon publicFolder (fs st) m))
                  maskableIcons))
         (ticks st)).
Proof.
  induction maskableIcons as [|m rest IH]; intros manifest icons st Hicons Hpwa.
  - cbn [merge_icons List.filter map]. rewrite !app_nil_r, state_eta.
    now rewrite set_icons_same.
  - assert (Hrest : forall m', m' ∈ rest ->
               Str.startsWith (Path.join publicFolder (src m')) "pwa" = false)
      by (intros m' Hm'; apply Hpwa; now apply list_elem_of_further).
    cbn [merge_icons List.filter].
    destruct (present_icon publicFolder (fs st) m) eqn:Ep; unfold present_icon in Ep.
    + apply bool_decide_eq_true_1 in Ep.
      rewrite (bind_Ok _ _ _ _ _
                 (merge_icon_unscanned publicFolder m manifest icons st Ep
                    (Hpwa m (list_elem_of_here _ _)) Hicons)).
      rewrite (IH _ (icons ++ [maskable_entry m]) st
                 (manifest_icons_set icons _ manifest Hicons) Hrest).
      cbn [negb map]. rewrite set_icons_set, <- app_assoc. reflexivity.
    + apply bool_decide_eq_false_1 in Ep.
      assert (Hnone : fs st !! Path.join publicFolder (src m) = None).
      { destruct (fs st !! Path.join publicFolder (src m)) eqn:E; [| reflexivity].
        destruct Ep. eauto. }
      rewrite (bind_Ok _ _ _ _ _ (merge_icon_missing publicFolder m manifest st Hnone)).
      rewrite (IH _ icons _ Hicons Hrest).
      cbn [fs trace ticks negb map]. rewrite <- app_assoc. reflexivity.
Qed.

(** The loop over icons whose files are all missing. *)
Lemma merge_icons_all_missing (maskableIcons : list MaskableIconRef) :
  forall (manifest : json) (st : State),
    (forall m, m ∈ maskableIcons ->
       fs st !! Path.join publicFolder (src m) = None) ->
    merge_icons publicFolder maskableIcons manifest st
    = (Ok manifest,
       mkState (fs st)
         (trace st ++ map (missing_icon_effect publicFolder) maskableIcons)
         (ticks st)).
Proof.
  induction maskableIcons as [|m rest IH]; intros manifest st Hmissing.
  - cbn [merge_icons map]. now rewrite app_nil_r, state_eta.
  - cbn [merge_icons].
    rewrite (bind_Ok _ _ _ _ _
               (merge_icon_missing publicFolder m manifest st
                  (Hmissing m (list_elem_of_here _ _)))).
    rewrite IH by (intros m' Hm'; apply Hmissing; now apply list_elem_of_further).
    cbn [fs trace ticks map]. rewrite <- app_assoc. reflexivity.
Qed.

End MergeLoop.

(** X13.  The merge loop appends in configuration order.  When the
    manifest has an icons array and no resolved icon path begins with
    [pwa] (so that no entry is searched for), the loop over the maskable
    icons returns the manifest with one new entry for each icon whose
    file exists, in the order of the configuration, behind the entries it
    had; it prints one warning for each icon whose file is missing, in
    that order; every other property of the manifest and the filesystem
    are as they were. *)
Theorem merge_appends_present_icons_in_order
    (publicFolder : string) (maskableIcons : list MaskableIconRef)
    (manifest : json) (icons : list json) (st : State) :
  manifest_icons manifest = Some icons ->
  (forall m, m ∈ maskableIcons ->
     Str.startsWith (Path.join publicFolder (src m)) "pwa" = false) ->
  exists manifest',
    merge_icons publicFolder maskableIcons manifest st
    = (Ok manifest',
       mkState (fs st)
         (trace st
          ++ map (missing_icon_effect publicFolder)
               (List.filter (fun m => negb (present_icon publicFolder (fs st) m))
                  maskableIcons))
         (ticks st))
    /\ manifest_icons manifest'
       = Some (icons
               ++ map maskable_entry
                    (List.filter (present_icon publicFolder (fs st)) maskableIcons))
    /\ forall fields fields',
         manifest = JObj fields -> manifest' = JObj fields' ->
         forall key, key <> "icons" ->
           Json.obj_get key fields' = Json.obj_get key fields.
Proof.
  intros Hicons Hpwa. eexists. split.
  - exact (merge_icons_unscanned publicFolder maskableIcons manifest icons st
             Hicons Hpwa).
  - split; [now apply (manifest_icons_set icons) |].
    intros fields fields' -> Hm' key Hkey.
    cbn [set_icons] in Hm'. injection Hm' as <-.
    clear -Hkey. induction fields as [|[k x] rest IH]; cbn [Json.obj_set Json.obj_get].
    + destruct (String.eqb "icons" key) eqn:E; [| reflexivity].
      apply String.eqb_eq in E. congruence.
    + destruct (String.eqb k "icons") eqn:Ek; cbn [Json.obj_get].
      * apply String.eqb_eq in Ek. subst k.
        destruct (String.eqb "icons" key) eqn:E; [| reflexivity].
        apply String.eqb_eq in E. congruence.
      * destruct (String.eqb k key); [reflexivity | exact IH].
Qed.

Lemma merge_appends_present_icons_in_order_witness :
  exists manifest' st',
    merge_icons "public" [Demo.absent_icon; Sample.maskable] Sample.manifest
                Demo.rendered_with_icon
    = (Ok manifest', st')
    /\ trace st'
       = [EConsoleWarn (missing_icon_warning "public/missing.png")]
    /\ manifest_icons manifest'
       = Some [JObj [("src", JStr "/pwa/a.png"); ("sizes", JStr "1x1")];
               JObj [("src", JStr "../maskable.png"); ("sizes", JStr "512x512");
                     ("type", JStr "image/png"); ("purpose", JStr "maskable")]].
Proof.
  destruct (merge_appends_present_icons_in_order
              "public" [Demo.absent_icon; Sample.maskable] Sample.manifest
              [JObj [("src", JStr "/pwa/a.png"); ("sizes", JStr "1x1")]]
              Demo.rendered_with_icon eq_refl)
    as (manifest' & Hrun & Hicons & _).
  - intros m Hm.
    repeat (apply elem_of_cons in Hm as [-> | Hm]); try reflexivity.
    now apply elem_of_nil in Hm.
  - eexists _, _. split; [exact Hrun |]. split; [reflexivity | exact Hicons].
Defined.

(** X14.  The merged manifest is written back, and a failed write does
    not stop the run.  When [manifest.json] parses to a manifest with an
    icons array (and no resolved icon path begins with [pwa]), the block
    returns normally in every case: if the file can be overwritten it
    then holds the merged manifest printed with an indentation of two
    spaces; if the filesystem refuses the write, the file is as it was
    and the last thing printed is the report of the failure on the error
    stream. *)
Theorem merged_manifest_is_written_or_the_failure_reported
    (W : World) (publicFolder faviconFolder : string)
    (maskableIcons : list MaskableIconRef) (st : State)
    (text : string) (t : Z) (manifest : json) (icons : list json) :
  let manifestPath := Path.join faviconFolder "manifest.json" in
  let merged :=
    set_icons
      (icons ++ map maskable_entry
                  (List.filter (present_icon publicFolder (fs st)) maskableIcons))
      manifest in
  fs st !! manifestPath = Some (File text t) ->
  JSON_parse W text = Some manifest ->
  manifest_icons manifest = Some icons ->
  (forall m, m ∈ maskableIcons ->
     Str.startsWith (Path.join publicFolder (src m)) "pwa" = false) ->
  exists st',
    merge_manifest W publicFolder faviconFolder maskableIcons st = (Ok tt, st')
    /\ (writable W manifestPath = true ->
        exists t',
          fs st' = <[manifestPath := File (Json.print EmptyString merged) t']> (fs st))
    /\ (writable W manifestPath = false ->
        fs st' = fs st
        /\ last (trace st') = Some (write_failure_report manifestPath)).
Proof.
  intros manifestPath merged Hfile Hparse Hicons Hpwa.
  unfold merge_manifest. fold manifestPath.
  assert (Hread :
            try_catch
              (text <- readFileSync manifestPath ;;
               match JSON_parse W text with
               | Some v => ret v
               | None => throw (SyntaxError "JSON.parse")
               end)
              (fun _ =>
                 console_error ("failed to parse manifest (" +:+ Str.dquote
                                +:+ manifestPath +:+ Str.dquote +:+ ")") ;;;
                 ret JUndef) st
            = (Ok manifest, st)).
  { unfold try_catch.
    rewrite (bind_Ok _ _ _ _ _ (readFileSync_file _ _ _ st Hfile)).
    now rewrite Hparse. }
  rewrite (bind_Ok _ _ _ _ _ Hread).
  rewrite (bind_Ok _ _ _ _ _
             (merge_icons_unscanned publicFolder maskableIcons manifest icons st
                Hicons Hpwa)).
  fold merged.
  assert (Hstr : Json.stringify merged = Some (Json.print EmptyString merged)).
  { unfold merged. destruct manifest as [| | | | | |fields]; try discriminate.
    reflexivity. }
  rewrite Hstr. cbn [writeFileSync_opt].
  unfold try_catch, writeFileSync. cbn [fs]. rewrite Hfile.
  destruct (writable W manifestPath) eqn:Hw.
  - eexists. split; [reflexivity |]. split; [| discriminate].
    intros _. eexists. reflexivity.
  - eexists. split; [reflexivity |]. split; [discriminate |].
    intros _. cbn [console_error emit fs trace]. split; [reflexivity |].
    unfold write_failure_report. now rewrite last_snoc.
Qed.

Lemma merged_manifest_is_written_or_the_failure_reported_witness :
  exists st' t',
    merge_manifest Sample.world "public" "public/pwa"
      [Demo.absent_icon; Sample.maskable] Demo.rendered_with_icon
    = (Ok tt, st')
    /\ fs st'
       = <["public/pwa/manifest.json" :=
             File (Json.print EmptyString
                     (set_icons
                        [JObj [("src", JStr "/pwa/a.png"); ("sizes", JStr "1x1")];
                         maskable_entry Sample.maskable]
                        Sample.manifest)) t']>
           (fs Demo.rendered_with_icon).
Proof.
  destruct (merged_manifest_is_written_or_the_failure_reported
              Sample.world "public" "public/pwa" [Demo.absent_icon; Sample.maskable]
              Demo.rendered_with_icon Sample.manifest_text 4000%Z Sample.manifest
              [JObj [("src", JStr "/pwa/a.png"); ("sizes", JStr "1x1")]]
              eq_refl eq_refl eq_refl)
    as (st' & Hrun & Hwritten & _).
  - intros m Hm.
    repeat (apply elem_of_cons in Hm as [-> | Hm]); try reflexivity.
    now apply elem_of_nil in Hm.
  - destruct (Hwritten eq_refl) as [t' Ht']. exists st', t'.
    split; [exact Hrun | exact Ht'].
Defined.

(** X15.  A manifest that cannot be parsed is survived when no icon file
    exists.  When [manifest.json] is missing, unreadable or not JSON, and
    none of the configured maskable icons has its file (or none is
    configured), nothing touches the undefined manifest: the block prints
    the parse failure, one warning for each icon, and, since there is
    nothing to serialise, the write failure; it returns normally and
    leaves the filesystem as it was.  (On a Node release that writes the
    text for an undefined content, see the field [write_undefined], the
    file would be overwritten instead.) *)
Theorem unparsable_manifest_without_icon_files_is_survived
    (W : World) (publicFolder faviconFolder : string)
    (maskableIcons : list MaskableIconRef) (st : State) :
  let manifestPath := Path.join faviconFolder "manifest.json" in
  (forall text t,
     fs st !! manifestPath = Some (File text t) -> JSON_parse W text = None) ->
  (forall m, m ∈ maskableIcons ->
     fs st !! Path.join publicFolder (src m) = None) ->
  write_undefined W = false ->
  merge_manifest W publicFolder faviconFolder maskableIcons st
  = (Ok tt,
     mkState (fs st)
       (trace st
        ++ [parse_failure_report manifestPath]
        ++ map (missing_icon_effect publicFolder) maskableIcons
        ++ [write_failure_report manifestPath])
       (ticks st)).
Proof.
  intros manifestPath Hbad Hmissing Hwu.
  unfold merge_manifest. fold manifestPath.
  match goal with
  | |- context [bind (try_catch ?m ?h) ?k] =>
      assert (Hm : try_catch m h st
                   = (Ok JUndef,
                      mkState (fs st) (trace st ++ [parse_failure_report manifestPath])
                              (ticks st)))
  end.
  { unfold try_catch, bind at 1, readFileSync.
    destruct (fs st !! manifestPath) as [[text t | t] |] eqn:E; try reflexivity.
    rewrite (Hbad text t eq_refl). reflexivity. }
  rewrite (bind_Ok _ _ _ _ _ Hm).
  rewrite (bind_Ok _ _ _ _ _
             (merge_icons_all_missing publicFolder maskableIcons JUndef
                (mkState (fs st) (trace st ++ [parse_failure_report manifestPath])
                         (ticks st))
                Hmissing)).
  cbn [Json.stringify Json.is_undef writeFileSync_opt]. rewrite Hwu.
  unfold try_catch, throw, console_error, emit. cbn [fs trace ticks].
  rewrite <- !app_assoc. reflexivity.
Qed.

Lemma unparsable_manifest_without_icon_files_is_survived_witness :
  fst (merge_manifest Sample.world "public" "public/pwa" [Demo.absent_icon]
         (mkState ∅ [] 0))
  = Ok tt.
Proof.
  rewrite (unparsable_manifest_without_icon_files_is_survived
             Sample.world "public" "public/pwa" [Demo.absent_icon] (mkState ∅ [] 0)).
  - reflexivity.
  - intros text t H. discriminate H.
  - intros m Hm. reflexivity.
  - reflexivity.
Defined.

(** ** [replaceRootPaths] run again, and stopped half way *)

Section RewriteAgain.

Variable W : World.
Variable folder : string.

(** A listed path that is a directory stops one turn of the loop. *)
Lemma rewrite_one_directory (file : string) (t : Z) (st : State) :
  fs st !! Path.join folder file = Some (Dir t) ->
  rewrite_one W folder file st
  = (Throw (FsError "readFileSync" (Path.join folder file)), st).
Proof.
  intros H. unfold rewrite_one, bind, existsSync. cbn [fst snd]. rewrite H.
  rewrite bool_decide_eq_true_2 by eauto.
  unfold readFileSync. now rewrite H.
Qed.

End RewriteAgain.

(** X16.  Rewriting twice is rewriting once.  After [replaceRootPaths] has
    returned, a second call on the same list returns as well and changes
    the text of no file: the replacement texts contain no occurrence of
    the patterns, so no path climbs a second level. *)
Theorem replaceRootPaths_again_changes_no_text
    (W : World) (folder : string) (files : list string) (st : State) :
  (forall f, f ∈ files -> rewritable W st (Path.join folder f)) ->
  same_kind folder files ->
  exists st1 st2,
    replaceRootPaths W folder files st = (Ok tt, st1)
    /\ replaceRootPaths W folder files st1 = (Ok tt, st2)
    /\ forall p, same_text p st1 st2.
Proof.
  intros Hok Hkind.
  destruct (replaceRootPaths_loop W folder files Hkind st Hok)
    as (st1 & Hrun1 & Hframe1 & Hfiles1 & Habsent1).
  assert (Hok1 : forall f, f ∈ files -> rewritable W st1 (Path.join folder f)).
  { intros f Hf. pose proof (Hok f Hf) as H. unfold rewritable in *.
    destruct (fs st !! Path.join folder f) as [[c t | t] |] eqn:E; [| contradiction |].
    - destruct (Hfiles1 f c t Hf E) as [t' ->]. exact H.
    - now rewrite (Habsent1 f Hf E). }
  destruct (replaceRootPaths_loop W folder files Hkind st1 Hok1)
    as (st2 & Hrun2 & Hframe2 & Hfiles2 & Habsent2).
  exists st1, st2. split; [exact Hrun1 |]. split; [exact Hrun2 |].
  intros p c. unfold holds.
  destruct (decide (p ∈ (Path.join folder <$> files))) as [Hin | Hout].
  - apply list_elem_of_fmap in Hin as (f & -> & Hf).
    pose proof (Hok f Hf) as H. unfold rewritable in H.
    destruct (fs st !! Path.join folder f) as [[c0 t0 | t0] |] eqn:E; [| contradiction |].
    + destruct (Hfiles1 f c0 t0 Hf E) as [t1 H1].
      destruct (Hfiles2 f _ t1 Hf H1) as [t2 H2].
      rewrite H1, H2, rewrite_content_idem.
      split; intros [x [= ->]]; eauto.
    + pose proof (Habsent1 f Hf E) as H1.
      rewrite H1, (Habsent2 f Hf H1). reflexivity.
  - rewrite Hframe2; [reflexivity |].
    intros f Hf Heq. apply Hout. apply list_elem_of_fmap. eauto.
Qed.

Lemma replaceRootPaths_again_changes_no_text_witness :
  exists st1 st2,
    replaceRootPaths Sample.world "public/pwa" rewritten_files Sample.rendered
    = (Ok tt, st1)
    /\ replaceRootPaths Sample.world "public/pwa" rewritten_files st1 = (Ok tt, st2)
    /\ same_text "public/pwa/manifest.json" st1 st2.
Proof.
  destruct (replaceRootPaths_again_changes_no_text
              Sample.world "public/pwa" rewritten_files Sample.rendered)
    as (st1 & st2 & H1 & H2 & Hsame).
  - intros f Hf. unfold rewritten_files in Hf.
    repeat (apply elem_of_cons in Hf as [-> | Hf]); try (vm_compute; tauto).
    now apply elem_of_nil in Hf.
  - apply rewritten_files_same_kind.
  - exists st1, st2. auto.
Defined.

(** X17.  A directory in the list stops the rewriting half way.  When a
    listed path is a directory, [replaceRootPaths] throws at that entry:
    the files listed before it have been rewritten and stay so, and every
    other path, the directory and the files listed after it included, is
    as it was. *)
Theorem replaceRootPaths_stops_at_a_directory
    (W : World) (folder : string) (before : list string) (file : string)
    (after : list string) (t : Z) (st : State) :
  (forall f, f ∈ before -> rewritable W st (Path.join folder f)) ->
  same_kind folder before ->
  fs st !! Path.join folder file = Some (Dir t) ->
  exists st',
    replaceRootPaths W folder (before ++ file :: after) st
    = (Throw (FsError "readFileSync" (Path.join folder file)), st')
    /\ (forall f c t0,
          f ∈ before -> fs st !! Path.join folder f = Some (File c t0) ->
          exists t', fs st' !! Path.join folder f
                     = Some (File (rewrite_content f c) t'))
    /\ (forall p,
          (forall f, f ∈ before -> Path.join folder f <> p) ->
          fs st' !! p = fs st !! p).
Proof.
  intros Hok Hkind Hdir.
  destruct (replaceRootPaths_loop W folder before Hkind st Hok)
    as (st' & Hrun & Hframe & Hfiles & _).
  exists st'. split; [| split; [exact Hfiles | exact Hframe]].
  unfold replaceRootPaths in *. rewrite for_each_app.
  rewrite (bind_Ok _ _ _ _ _ Hrun). cbn [for_each].
  assert (Hdir' : fs st' !! Path.join folder file = Some (Dir t)).
  { rewrite Hframe; [exact Hdir |].
    intros f Hf Heq. pose proof (Hok f Hf) as H.
    unfold rewritable in H. rewrite Heq, Hdir in H. exact H. }
  now rewrite (bind_Throw _ _ _ _ _ (rewrite_one_directory W folder file t st' Hdir')).
Qed.

Lemma replaceRootPaths_stops_at_a_directory_witness :
  exists st',
    replaceRootPaths Sample.world "public"
      ["pwa/manifest.json"; "pwa"; "pwa/browserconfig.xml"] Sample.rendered
    = (Throw (FsError "readFileSync" "public/pwa"), st')
    /\ fs st' !! "public/pwa/browserconfig.xml"
       = Some (File Sample.browserconfig_text 4000%Z).
Proof.
  destruct (replaceRootPaths_stops_at_a_directory
              Sample.world "public" ["pwa/manifest.json"] "pwa"
              ["pwa/browserconfig.xml"] 4000%Z Sample.rendered)
    as (st' & Hrun & _ & Hframe).
  - intros f Hf. apply list_elem_of_singleton in Hf as ->. vm_compute. reflexivity.
  - intros f g Hf Hg _. apply list_elem_of_singleton in Hf as ->.
    now apply list_elem_of_singleton in Hg as ->.
  - reflexivity.
  - exists st'. split; [exact Hrun |].
    rewrite Hframe; [reflexivity |].
    intros f Hf. apply list_elem_of_singleton in Hf as ->. vm_compute. discriminate.
Defined.

(** ** The base of [generateBasicIndexHTML] *)

Module RebaseFacts.
Import Str StrFacts.

(** A pattern that begins [x +:+ w] begins [x], or [x] is the beginning of
    the pattern and [w] continues it. *)
Lemma is_prefix_split (pat x w : string) :
  is_prefix pat (x +:+ w) = true ->
  is_prefix pat x = true
  \/ exists p2, p2 <> EmptyString /\ pat = x +:+ p2 /\ is_prefix p2 w = true.
Proof.
  revert pat. induction x as [|c x IH]; intros pat H.
  - rewrite app_nil_l in H. destruct pat as [|d pat]; [now left |].
    right. exists (String d pat). split; [discriminate | auto].
  - destruct pat as [|d pat]; [now left |].
    rewrite app_cons in H. cbn [is_prefix] in H |- *.
    apply andb_true_iff in H as [Hc H].
    destruct (IH pat H) as [Hp | (p2 & Hne & -> & Hp2)].
    + left. now rewrite Hc.
    + right. exists p2. split; [exact Hne |].
      apply Ascii.eqb_eq in Hc. subst d. rewrite app_cons. auto.
Qed.

Lemma endsWith_refl (s : string) : endsWith s s = true.
Proof. apply endsWith_spec. now exists EmptyString. Qed.

Lemma no_straddle_tail (pat : string) (c : ascii) (a w : string) :
  no_straddle pat (String c a) w -> no_straddle pat a w.
Proof.
  intros H p1 p2 Hpat H1 H2 He Hp. apply (H p1 p2 Hpat H1 H2); [| exact Hp].
  cbn [endsWith]. rewrite He. apply orb_true_r.
Qed.

(** The replacement works piecewise when no occurrence lies across the
    cut. *)
Lemma replace_from_cut (pat rep a w : string) (k : nat) :
  no_straddle pat a w -> k <= String.length a ->
  replace_from pat rep k (a +:+ w)
  = replace_from pat rep k a +:+ replace_from pat rep 0 w.
Proof.
  revert k. induction a as [|c a IH]; intros k Hcut Hk.
  - simpl in Hk. now replace k with 0 by lia.
  - pose proof (no_straddle_tail pat c a w Hcut) as Hcut'.
    destruct k as [|k].
    + rewrite app_cons. cbn [replace_from]. rewrite <- app_cons.
      assert (E : is_prefix pat (String c a +:+ w) = is_prefix pat (String c a)).
      { destruct (is_prefix pat (String c a +:+ w)) eqn:E1.
        - destruct (is_prefix_split pat (String c a) w E1)
            as [Hp | (p2 & Hne & Hpat & Hp2)]; [now rewrite Hp |].
          exfalso.
          apply (Hcut (String c a) p2 Hpat);
            [discriminate | exact Hne | apply endsWith_refl | exact Hp2].
        - destruct (is_prefix pat (String c a)) eqn:E2; [| reflexivity].
          apply is_prefix_spec in E2 as [rest E2].
          rewrite E2, app_assoc, is_prefix_app in E1. discriminate. }
      rewrite E. destruct (is_prefix pat (String c a)) eqn:Em.
      * apply is_prefix_length in Em. simpl in Em.
        rewrite IH by (auto; lia). now rewrite app_assoc.
      * rewrite IH by (auto; lia). reflexivity.
    + rewrite app_cons. cbn [replace_from]. apply IH; [exact Hcut' |].
      simpl in Hk. lia.
Qed.

Lemma replace_all_cut (pat rep a w : string) :
  no_straddle pat a w ->
  replace_all pat rep (a +:+ w) = replace_all pat rep a +:+ replace_all pat rep w.
Proof. intros H. apply replace_from_cut; [exact H | lia]. Qed.

(** A character the pattern does not begin at is copied. *)
Lemma replace_all_miss (pat rep : string) (c : ascii) (s : string) :
  is_prefix pat (String c s) = false ->
  replace_all pat rep (String c s) = String c (replace_all pat rep s).
Proof. intros H. unfold replace_all. cbn [replace_from]. now rewrite H. Qed.

(** A text that ends with two one-character texts ends with one
    character. *)
Lemma endsWith_char_inj (s : string) (c d : ascii) :
  endsWith s (String c EmptyString) = true ->
  endsWith s (String d EmptyString) = true -> c = d.
Proof.
  intros Hc Hd. apply endsWith_spec in Hc as [pre1 H1].
  apply endsWith_spec in Hd as [pre2 H2]. subst s.
  revert pre2 H2. induction pre1 as [|x pre1 IH]; intros pre2 H2.
  - rewrite app_nil_l in H2. destruct pre2 as [|y pre2].
    + rewrite app_nil_l in H2. congruence.
    + rewrite app_cons in H2. injection H2 as _ H2.
      destruct pre2; discriminate.
  - destruct pre2 as [|y pre2].
    + rewrite app_cons, app_nil_l in H2. injection H2 as _ H2.
      destruct pre1; discriminate.
    + rewrite !app_cons in H2. injection H2 as _ H2. now apply IH in H2.
Qed.

Lemma has_char_app (c : ascii) (a b : string) :
  has_char c (a +:+ b) = has_char c a || has_char c b.
Proof.
  induction a as [|x a IH]; [reflexivity |].
  rewrite app_cons. cbn [has_char]. now rewrite IH, orb_assoc.
Qed.

(** A text without a quote holds no pattern that has one. *)
Lemma quoteless_clean (pat b : string) :
  has_char dq pat = true -> has_char dq b = false -> occurs pat b = false.
Proof.
  intros Hpat Hb. destruct (occurs pat b) eqn:E; [| reflexivity].
  apply occurs_spec in E as (pre & post & ->).
  rewrite !has_char_app, Hpat, orb_true_r in Hb. discriminate.
Qed.

(** A proper beginning of [attr +:+ "/"] is a beginning of [attr]. *)
Lemma proper_prefix (p1 p2 attr : string) :
  attr +:+ "/" = p1 +:+ p2 -> p2 <> EmptyString -> exists r, attr = p1 +:+ r.
Proof.
  revert attr. induction p1 as [|c p1 IH]; intros attr H Hne; [now exists attr |].
  destruct attr as [|d attr].
  - rewrite app_nil_l, app_cons in H. injection H as _ H.
    destruct p1; [now destruct p2 | discriminate].
  - rewrite !app_cons in H. injection H as -> H.
    destruct (IH attr H Hne) as [r ->]. now exists r.
Qed.

Lemma last_char_split (s : string) :
  s <> EmptyString -> exists q c, s = q +:+ String c EmptyString.
Proof.
  induction s as [|x s IH]; intros H; [now destruct H |].
  destruct s as [|y s].
  - now exists EmptyString, x.
  - destruct IH as (q & c & Hq); [discriminate |].
    exists (String x q), c. now rewrite app_cons, <- Hq.
Qed.

Section Base.

Variable b : string.
Hypothesis b_quoteless : has_char dq b = false.
Hypothesis b_closed : endsWith b "/" = true.

(** No proper beginning of the three patterns ends the base. *)
Lemma base_cut (attr w : string) :
  attr ∈ rebased_attributes -> no_straddle (attr +:+ "/") b w.
Proof.
  intros Hattr p1 p2 Hpat H1 H2 He _.
  destruct (proper_prefix p1 p2 attr Hpat H2) as [r Hr].
  destruct (last_char_split p1 H1) as (q & c & Hq).
  assert (c = "/"%char).
  { rewrite Hq in He. apply endsWith_tail in He.
    exact (endsWith_char_inj b c "/" He b_closed). }
  subst c.
  assert (Hslash : has_char "/" attr = true).
  { rewrite Hr, Hq, !has_char_app. cbn [has_char]. rewrite Ascii.eqb_refl.
    now rewrite orb_true_r. }
  unfold rebased_attributes in Hattr.
  repeat (apply elem_of_cons in Hattr as [-> | Hattr]);
    try (now apply elem_of_nil in Hattr); discriminate Hslash.
Qed.

(** The base goes through each of the three replacements untouched, and
    what follows it is rewritten on its own. *)
Lemma base_kept (attr rep w : string) :
  attr ∈ rebased_attributes ->
  replace_all (attr +:+ "/") rep (b +:+ w) = b +:+ replace_all (attr +:+ "/") rep w.
Proof.
  intros Hattr. rewrite (replace_all_cut _ _ _ _ (base_cut attr w Hattr)).
  f_equal. unfold replace_all.
  assert (Hclean : occurs (attr +:+ "/") b = false).
  { apply quoteless_clean; [| exact b_quoteless].
    unfold rebased_attributes in Hattr.
    repeat (apply elem_of_cons in Hattr as [-> | Hattr]);
      try (now apply elem_of_nil in Hattr); reflexivity. }
  clear -Hclean. induction b as [|c s IH]; [reflexivity |].
  cbn [occurs] in Hclean. apply orb_false_iff in Hclean as [H1 H2].
  cbn [replace_from]. rewrite H1. now rewrite IH.
Qed.

End Base.

End RebaseFacts.

Module RebasePasses.
Import Str StrFacts RebaseFacts.

(** A cut is safe when no proper ending of the pattern begins what
    follows. *)
Lemma no_straddle_by_endings (pat a w : string) :
  (forall k, 0 < k < String.length pat -> is_prefix (drop k pat) w = false) ->
  no_straddle pat a w.
Proof.
  intros Hk p1 p2 Hpat H1 H2 _ Hp.
  assert (Hd : drop (String.length p1) pat = p2).
  { rewrite Hpat. apply EnsFacts.drop_app. }
  rewrite <- Hd, Hk in Hp; [discriminate |].
  rewrite Hpat, length_app.
  destruct p1; [now destruct H1 |]. destruct p2; [now destruct H2 |].
  simpl. lia.
Qed.

(** A literal text at no position of which the pattern begins is
    copied. *)
Lemma replace_all_skip (pat rep lit z : string) :
  (forall k, k < String.length lit -> is_prefix pat (drop k lit +:+ z) = false) ->
  replace_all pat rep (lit +:+ z) = lit +:+ replace_all pat rep z.
Proof.
  induction lit as [|c lit IH]; intros Hk; [reflexivity |].
  rewrite !app_cons. rewrite replace_all_miss.
  - f_equal. apply IH. intros k Hlt. apply (Hk (S k)). simpl. lia.
  - rewrite <- app_cons. apply (Hk 0). simpl. lia.
Qed.

(** A pass over a literal text that the pattern neither begins in nor
    reaches into. *)
Lemma foreign_pass (pat rep lit a z : string) :
  (forall k, 0 < k < String.length pat ->
     is_prefix (drop k pat) (lit +:+ z) = false) ->
  (forall k, k < String.length lit -> is_prefix pat (drop k lit +:+ z) = false) ->
  replace_all pat rep (a +:+ (lit +:+ z))
  = replace_all pat rep a +:+ (lit +:+ replace_all pat rep z).
Proof.
  intros H1 H2.
  rewrite (replace_all_cut _ _ _ _ (no_straddle_by_endings pat a _ H1)).
  now rewrite replace_all_skip.
Qed.

End RebasePasses.

Ltac bounded_cases k :=
  do 12 (destruct k as [|k]; [try (exfalso; simpl in *; lia); try reflexivity |]);
  exfalso; simpl in *; lia.

Section Rebase.

Import Str StrFacts RebaseFacts RebasePasses.

Variable base : string.
Hypothesis base_quoteless : has_char dq base = false.
Hypothesis base_closed : endsWith base "/" = true.

Let asrc : string := "src=" +:+ dquote.
Let ahref : string := "href=" +:+ dquote.
Let acontent : string := "content=" +:+ dquote.

Let S := replace_all findSrc ("src=" +:+ dquote +:+ base).
Let H := replace_all findHref ("href=" +:+ dquote +:+ base).
Let C := replace_all findContent ("content=" +:+ dquote +:+ base).

Lemma rebase_passes (t : string) : rebase base t = C (H (S t)).
Proof. reflexivity. Qed.

Lemma S_own (a z : string) :
  S (a +:+ (asrc +:+ ("/" +:+ z))) = S a +:+ (asrc +:+ (base +:+ S z)).
Proof. exact (replace_all_at "s" src_tail _ eq_refl a z). Qed.

Lemma H_own (a z : string) :
  H (a +:+ (ahref +:+ ("/" +:+ z))) = H a +:+ (ahref +:+ (base +:+ H z)).
Proof.
  exact (replace_all_at "h" (drop 1 findHref) _ eq_refl a z).
Qed.

Lemma C_own (a z : string) :
  C (a +:+ (acontent +:+ ("/" +:+ z))) = C a +:+ (acontent +:+ (base +:+ C z)).
Proof.
  exact (replace_all_at "c" (drop 1 findContent) _ eq_refl a z).
Qed.

Lemma H_base (w : string) : H (base +:+ w) = base +:+ H w.
Proof.
  apply (base_kept base base_quoteless base_closed ahref).
  unfold rebased_attributes. apply list_elem_of_further, list_elem_of_here.
Qed.

Lemma C_base (w : string) : C (base +:+ w) = base +:+ C w.
Proof.
  apply (base_kept base base_quoteless base_closed acontent).
  unfold rebased_attributes.
  apply list_elem_of_further, list_elem_of_further, list_elem_of_here.
Qed.

(** The passes over an attribute that is not theirs. *)
Lemma S_over_href (a z : string) :
  S (a +:+ (ahref +:+ ("/" +:+ z))) = S a +:+ (ahref +:+ ("/" +:+ S z)).
Proof.
  change (ahref +:+ ("/" +:+ z)) with (findHref +:+ z).
  change (ahref +:+ ("/" +:+ S z)) with (findHref +:+ S z).
  apply foreign_pass; intros k Hk; bounded_cases k.
Qed.

Lemma S_over_content (a z : string) :
  S (a +:+ (acontent +:+ ("/" +:+ z))) = S a +:+ (acontent +:+ ("/" +:+ S z)).
Proof.
  change (acontent +:+ ("/" +:+ z)) with (findContent +:+ z).
  change (acontent +:+ ("/" +:+ S z)) with (findContent +:+ S z).
  apply foreign_pass; intros k Hk; bounded_cases k.
Qed.

Lemma H_over_content (a z : string) :
  H (a +:+ (acontent +:+ ("/" +:+ z))) = H a +:+ (acontent +:+ ("/" +:+ H z)).
Proof.
  change (acontent +:+ ("/" +:+ z)) with (findContent +:+ z).
  change (acontent +:+ ("/" +:+ H z)) with (findContent +:+ H z).
  apply foreign_pass; intros k Hk; bounded_cases k.
Qed.

Lemma H_over_src (a y : string) :
  H (a +:+ (asrc +:+ (base +:+ y))) = H a +:+ (asrc +:+ (base +:+ H y)).
Proof.
  rewrite <- H_base. apply foreign_pass; intros k Hk; bounded_cases k.
Qed.

Lemma C_over_src (a y : string) :
  C (a +:+ (asrc +:+ (base +:+ y))) = C a +:+ (asrc +:+ (base +:+ C y)).
Proof.
  rewrite <- C_base. apply foreign_pass; intros k Hk; bounded_cases k.
Qed.

Lemma C_over_href (a y : string) :
  C (a +:+ (ahref +:+ (base +:+ y))) = C a +:+ (ahref +:+ (base +:+ C y)).
Proof.
  rewrite <- C_base. apply foreign_pass; intros k Hk; bounded_cases k.
Qed.

Lemma rebase_src (a z : string) :
  rebase base (a +:+ (asrc +:+ ("/" +:+ z)))
  = rebase base a +:+ (asrc +:+ (base +:+ rebase base z)).
Proof. rewrite !rebase_passes, S_own, H_over_src, C_over_src. reflexivity. Qed.

Lemma rebase_href (a z : string) :
  rebase base (a +:+ (ahref +:+ ("/" +:+ z)))
  = rebase base a +:+ (ahref +:+ (base +:+ rebase base z)).
Proof. rewrite !rebase_passes, S_over_href, H_own, C_over_href. reflexivity. Qed.

Lemma rebase_content (a z : string) :
  rebase base (a +:+ (acontent +:+ ("/" +:+ z)))
  = rebase base a +:+ (acontent +:+ (base +:+ rebase base z)).
Proof.
  rewrite !rebase_passes, S_over_content, H_over_content, C_own. reflexivity.
Qed.

End Rebase.

(** A text without a quoted root path holds none of the three patterns. *)
Lemma rebase_without_root_paths (base t : string) :
  Str.occurs findDirect t = false -> rebase base t = t.
Proof.
  intros Hclean.
  assert (Hnone : forall pat, Str.occurs findDirect pat = true ->
                              Str.occurs pat t = false).
  { intros pat Hpat. destruct (Str.occurs pat t) eqn:E; [| reflexivity].
    now rewrite (JsonFacts.occurs_trans _ _ _ Hpat E) in Hclean. }
  assert (Hid : forall pat rep c0 ptail,
             pat = String c0 ptail -> Str.occurs pat t = false ->
             Str.replace_all pat rep t = t).
  { intros pat rep c0 ptail -> Hocc. unfold Str.replace_all.
    clear -Hocc. induction t as [|c s IH]; [reflexivity |].
    cbn [Str.occurs] in Hocc. apply orb_false_iff in Hocc as [H1 H2].
    cbn [Str.replace_from]. rewrite H1. now rewrite IH. }
  unfold rebase.
  rewrite (Hid findSrc _ "s"%char src_tail eq_refl) by (now apply Hnone).
  rewrite (Hid findHref _ "h"%char (Str.drop 1 findHref) eq_refl) by (now apply Hnone).
  now rewrite (Hid findContent _ "c"%char (Str.drop 1 findContent) eq_refl)
    by (now apply Hnone).
Qed.

(** X18.  The base of the document.  With a base that holds no quote and
    no dollar sign (which [replace] would read as a reference to the
    match) and ends with a slash, the rebasing of [generateBasicIndexHTML]
    turns each [src], [href] or [content] attribute whose value begins at
    the root into the same attribute beginning at the base, the texts
    before and after it being rebased on their own; and a text in which no
    quote is followed by a slash is left as it is. *)
Theorem rebase_puts_root_paths_under_the_base (base : string) :
  Str.has_char Str.dq base = false ->
  Str.has_char "$" base = false ->
  Str.endsWith base "/" = true ->
  (forall attr a z,
     attr ∈ rebased_attributes ->
     rebase base (a +:+ (attr +:+ ("/" +:+ z)))
     = rebase base a +:+ (attr +:+ (base +:+ rebase base z)))
  /\ (forall t, Str.occurs findDirect t = false -> rebase base t = t).
Proof.
  intros Hq _ Hc. split; [| apply rebase_without_root_paths].
  intros attr a z Hattr. unfold rebased_attributes in Hattr.
  apply elem_of_cons in Hattr as [-> | Hattr];
    [exact (rebase_src base Hq Hc a z) |].
  apply elem_of_cons in Hattr as [-> | Hattr];
    [exact (rebase_href base Hq Hc a z) |].
  apply elem_of_cons in Hattr as [-> | Hattr];
    [exact (rebase_content base a z) |].
  now apply elem_of_nil in Hattr.
Qed.

Lemma rebase_puts_root_paths_under_the_base_witness :
  rebase "/app/"
    ("<link rel=icon " +:+ (("href=" +:+ Str.dquote)
                            +:+ ("/" +:+ ("pwa/a.png" +:+ Str.dquote +:+ ">"))))
  = "<link rel=icon " +:+ (("href=" +:+ Str.dquote)
                           +:+ ("/app/" +:+ ("pwa/a.png" +:+ Str.dquote +:+ ">"))).
Proof.
  rewrite (proj1 (rebase_puts_root_paths_under_the_base "/app/" eq_refl eq_refl eq_refl)
             ("href=" +:+ Str.dquote) "<link rel=icon "
             ("pwa/a.png" +:+ Str.dquote +:+ ">")).
  - reflexivity.
  - unfold rebased_attributes. apply list_elem_of_further, list_elem_of_here.
Defined.
(** ** The written document *)

Section Document.

Variable W : World.

(** A promise is fulfilled with the fragments of a response that an
    event delivers. *)
Lemma on_event_fulfils (exportFolder : string) (icon : option string)
    (config : FaviconOptions) (ev : Event) (o o' : Orchestrator) (st st' : State)
    (r : list string) :
  on_event W exportFolder icon config ev o st = (Ok o', st') ->
  promise o' = Fulfilled r ->
  promise o = Fulfilled r
  \/ exists response, delivered ev = Some response /\ r = html response.
Proof.
  destruct ev as [res | | res]; cbn [on_event].
  - destruct (first_running o); [| intros [= <- _]; auto].
    unfold called_back, try_catch, generateFav, guarded_resolve, guarded_reject,
      resolve, reject, bind, print, emit. cbn [timer promise].
    destruct res as [e | response].
    + destruct (timer o), (promise o) eqn:Ep; intros [= <- _]; cbn [promise];
        rewrite ?Ep; intros [=]; subst; auto.
    + destruct (persist W exportFolder response st) as [[[] | e | c |] st1];
        try discriminate;
        destruct (timer o), (promise o) eqn:Ep; intros [= <- _]; cbn [promise];
        rewrite ?Ep; intros [=]; subst; eauto.
  - destruct (scheduled o); intros [= <- _]; cbn [promise]; auto.
  - destruct (retry_running o); [| intros [= <- _]; auto].
    unfold called_back, try_catch, generateFav, resolve, reject, bind, print, emit.
    cbn [timer promise].
    destruct res as [e | response].
    + destruct (promise o) eqn:Ep; intros [= <- _]; cbn [promise];
        rewrite ?Ep; intros [=]; subst; auto.
    + destruct (persist W exportFolder response st) as [[[] | e | c |] st1];
        try discriminate;
        destruct (timer o), (promise o) eqn:Ep; intros [= <- _]; cbn [promise];
        rewrite ?Ep; intros [=]; subst; eauto.
Qed.

Lemma await_fulfilled (exportFolder : string) (icon : option string)
    (config : FaviconOptions) (sched : list Event) :
  forall (o : Orchestrator) (st st' : State) (r : list string),
    await W exportFolder icon config sched o st = (Ok r, st') ->
    promise o = Fulfilled r
    \/ exists ev response,
         ev ∈ sched /\ delivered ev = Some response /\ r = html response.
Proof.
  induction sched as [|ev rest IH]; intros o st st' r; cbn [await].
  - destruct (promise o); [discriminate | | discriminate].
    intros [= <- _]. now left.
  - destruct (promise o) eqn:Ep; [| intros [= <- _]; now left | discriminate].
    intros H. apply bind_inv_Ok in H as (o1 & st1 & Hstep & Hrest).
    destruct (IH o1 st1 st' r Hrest) as [Hful | (ev' & response & Hin & Hd & Hr)].
    + destruct (on_event_fulfils _ _ _ _ _ _ _ _ _ Hstep Hful)
        as [Hold | (response & Hd & Hr)]; [congruence |].
      right. exists ev, response. split; [apply list_elem_of_here | auto].
    + right. exists ev', response. split; [now apply list_elem_of_further | auto].
Qed.

(** What [generateFavicons] returns are the fragments of a response of
    the schedule. *)
Lemma generateFavicons_returned (exportFolder : string) (icon : option string)
    (config : FaviconOptions) (sched : list Event) (st st' : State)
    (r : list string) :
  generateFavicons W exportFolder icon config sched st = (Ok r, st') ->
  exists ev response,
    ev ∈ sched /\ delivered ev = Some response /\ r = html response.
Proof.
  unfold generateFavicons. intros H.
  apply bind_inv_Ok in H as ([] & s1 & _ & H).
  apply bind_inv_Ok in H as (o & s2 & Hstart & H).
  injection Hstart as <- _.
  destruct (await_fulfilled _ _ _ _ _ _ _ _ H) as [Hful | Hev];
    [discriminate Hful | exact Hev].
Qed.

(** The object the template is applied to. *)
Lemma generateBasicIndexHTML_context
    (title : string) (meta : list Attributes) (faviconsOutput : list string)
    (base : option string) :
  let favicons :=
    fold_left (fun acc faviconHTML => acc +:+ faviconHTML +:+ Json.nl)
              faviconsOutput EmptyString in
  let metaTags :=
    Str.join Json.nl
      (map (fun input => "<meta" +:+ makeHtmlAttributes input +:+ ">") meta)
    +:+ Json.nl +:+ Json.nl in
  let rebased :=
    match base with
    | Some b => negb (String.eqb b "/")
    | None => false
    end in
  let adjust := fun text =>
    match base with
    | Some b => if String.eqb b "/" then text else rebase b text
    | None => text
    end in
  mkRender title
    (if rebased then rebase (Str.of_opt base) metaTags else metaTags)
    (if rebased then rebase (Str.of_opt base) favicons else favicons)
    ((if rebased then rebase (Str.of_opt base) metaTags else metaTags)
     +:+ Json.nl +:+ (if rebased then rebase (Str.of_opt base) favicons else favicons))
  = mkRender title (adjust metaTags) (adjust favicons)
      (adjust metaTags +:+ Json.nl +:+ adjust favicons).
Proof.
  cbv zeta. destruct base as [b |]; [| reflexivity].
  cbn [Str.of_opt]. now destruct (String.eqb b "/").
Qed.

(** A call of [generateBasicIndexHTML] that returned has read the
    template and written what the template made of the context. *)
Lemma generateBasicIndexHTML_returned
    (templateFilePath folder title : string) (meta : list Attributes)
    (faviconsOutput : list string) (targetFile base : option string)
    (st st' : State) :
  generateBasicIndexHTML W templateFilePath folder title meta faviconsOutput
    targetFile base st = (Ok tt, st') ->
  let adjust := fun text =>
    match base with
    | Some b => if String.eqb b "/" then text else rebase b text
    | None => text
    end in
  let metaTags :=
    adjust (Str.join Json.nl
              (map (fun input => "<meta" +:+ makeHtmlAttributes input +:+ ">") meta)
            +:+ Json.nl +:+ Json.nl) in
  let favicons :=
    adjust (fold_left (fun acc faviconHTML => acc +:+ faviconHTML +:+ Json.nl)
                      faviconsOutput EmptyString) in
  exists templateContent html,
    holds st templateFilePath templateContent
    /\ handlebars W templateContent
         (mkRender title metaTags favicons (metaTags +:+ Json.nl +:+ favicons))
       = Some html
    /\ exists t,
         fs st'
         = <[(if Str.truthy_opt targetFile then Str.of_opt targetFile
              else Path.join folder "index.html") := File html t]> (fs st).
Proof.
  unfold generateBasicIndexHTML. intros H.
  apply bind_inv_Ok in H as ([] & s1 & Hprint & H).
  apply bind_inv_Ok in H as (templateContent & s2 & Hread & H).
  cbv zeta in H.
  rewrite generateBasicIndexHTML_context in H.
  apply bind_inv_Ok in H as (html & s3 & Hhb & H).
  apply bind_inv_Ok in H as ([] & s4 & Hwrite & Hdone).
  cbv zeta. exists templateContent, html.
  destruct (handlebars W templateContent _) as [text |] eqn:Ehb;
    [| discriminate Hhb].
  injection Hhb as -> <-.
  injection Hprint as <-. injection Hdone as <-.
  unfold readFileSync in Hread. cbn [fs] in Hread.
  destruct (fs st !! templateFilePath) as [[c t | t] |] eqn:Et;
    try discriminate Hread.
  injection Hread as -> <-.
  split; [now exists t |]. split; [reflexivity |].
  unfold writeFileSync in Hwrite. cbn [fs ticks] in Hwrite.
  match type of Hwrite with
  | context [fs st !! ?d] =>
      destruct (fs st !! d) as [[c0 t0 | t0] |]; try discriminate Hwrite;
        destruct (writable W d); try discriminate Hwrite
  end;
    injection Hwrite as <-; cbn [fs]; eauto.
Qed.

End Document.

(** X19.  [generateBasicIndexHTML] writes the document or nothing.  A call
    either returns, and then the only change on disk is the document,
    written at the target file when that is a non-empty string and at
    [index.html] of the folder otherwise.  The document is what the
    template, read from the template path, makes of four values: the
    title; the meta tags, one [<meta ...>] line per attribute list in
    order, followed by an empty line; the favicon fragments in order, each
    followed by a newline; and the two texts together, the tags first,
    with a newline between them.  When a base other than [/] is given,
    the tags and the fragments are rebased before that.  Or the call
    throws (no template, a template that does not compile, a document
    that cannot be written), and then it has written nothing.  (A base is
    taken to hold no dollar sign, which the replacement would read as a
    pattern.) *)
Theorem generateBasicIndexHTML_writes_the_document_or_nothing
    (W : World) (templateFilePath folder title : string) (meta : list Attributes)
    (faviconsOutput : list string) (targetFile base : option string)
    (st : State) (r : result unit) (st' : State) :
  generateBasicIndexHTML W templateFilePath folder title meta faviconsOutput
    targetFile base st = (r, st') ->
  (forall b, base = Some b -> Str.has_char "$" b = false) ->
  let dest :=
    if Str.truthy_opt targetFile then Str.of_opt targetFile
    else Path.join folder "index.html" in
  let adjust := fun text =>
    match base with
    | Some b => if String.eqb b "/" then text else rebase b text
    | None => text
    end in
  let metaTags :=
    adjust (Str.join Json.nl
              (map (fun input => "<meta" +:+ makeHtmlAttributes input +:+ ">") meta)
            +:+ Json.nl +:+ Json.nl) in
  let favicons :=
    adjust (fold_left (fun acc faviconHTML => acc +:+ faviconHTML +:+ Json.nl)
                      faviconsOutput EmptyString) in
  (r = Ok tt
   /\ exists templateContent html,
        holds st templateFilePath templateContent
        /\ handlebars W templateContent
             (mkRender title metaTags favicons (metaTags +:+ Json.nl +:+ favicons))
           = Some html
        /\ fs st' = <[dest := File html (date_now W (ticks st))]> (fs st)
        /\ trace st'
           = trace st
             ++ [EStdout "generating html..."; EWrite dest html;
                 EStdout (" done" +:+ Json.nl)])
  \/ ((exists e, r = Throw e)
      /\ fs st' = fs st
      /\ trace st' = trace st ++ [EStdout "generating html..."]).
Proof.
  intros Hrun _. revert Hrun.
  unfold generateBasicIndexHTML.
  unfold bind at 1. cbn [print emit].
  unfold bind at 1. unfold readFileSync at 1. cbn [fs].
  destruct (fs st !! templateFilePath) as [[templateContent t | t] |] eqn:Etpl;
    cbv beta iota zeta;
    [| intros [= <- <-]; right; split; [eauto | split; reflexivity] ..].
  pose proof (generateBasicIndexHTML_context title meta faviconsOutput base) as Hctx.
  cbv zeta in Hctx. rewrite Hctx. clear Hctx.
  match goal with
  | |- context [handlebars W templateContent ?c] => set (context := c)
  end.
  destruct (handlebars W templateContent context) as [html |] eqn:Ehb.
  - unfold bind at 1. cbn [ret].
    set (dest := if Str.truthy_opt targetFile then Str.of_opt targetFile
                 else Path.join folder "index.html").
    assert (Hdone : forall s, r = Ok tt -> st' = s ->
               fs s = <[dest := File html (date_now W (ticks st))]> (fs st) ->
               trace s = trace st
                         ++ [EStdout "generating html..."; EWrite dest html;
                             EStdout (" done" +:+ Json.nl)] ->
               r = Ok tt
               /\ exists templateContent html,
                    holds st templateFilePath templateContent
                    /\ handlebars W templateContent context = Some html
                    /\ fs st' = <[dest := File html (date_now W (ticks st))]> (fs st)
                    /\ trace st'
                       = trace st
                         ++ [EStdout "generating html..."; EWrite dest html;
                             EStdout (" done" +:+ Json.nl)]).
    { intros s Hr -> Hfs Htr. split; [exact Hr |].
      exists templateContent, html.
      split; [now exists t |]. split; [exact Ehb |]. auto. }
    unfold bind at 1. unfold writeFileSync at 1. cbn [fs].
    destruct (fs st !! dest) as [[c0 t0 | t0] |] eqn:Edest.
    + destruct (writable W dest).
      * intros [= <- <-]. left. eapply Hdone; try reflexivity.
        cbn [trace]. now rewrite <- !app_assoc.
      * intros [= <- <-]. right. split; [eauto | split; reflexivity].
    + intros [= <- <-]. right. split; [eauto | split; reflexivity].
    + destruct (writable W dest).
      * intros [= <- <-]. left. eapply Hdone; try reflexivity.
        cbn [trace]. now rewrite <- !app_assoc.
      * intros [= <- <-]. right. split; [eauto | split; reflexivity].
  - unfold bind at 1. unfold throw.
    intros [= <- <-]. right. split; [eauto | split; reflexivity].
Qed.

Lemma generateBasicIndexHTML_writes_the_document_or_nothing_witness :
  exists t,
    fs (snd (generateBasicIndexHTML Sample.world "index.template.html" "public"
               "App" [[("charset", Some "utf-8")]] ["<link rel=icon href=/pwa/a.png>"]
               None None (Sample.fresh_build "plain")))
    !! "public/index.html"
    = Some (File ("<html>" +:+ "App" +:+ "<meta charset=" +:+ Str.dquote +:+ "utf-8"
                  +:+ Str.dquote +:+ ">" +:+ Json.nl +:+ Json.nl +:+ Json.nl
                  +:+ "<link rel=icon href=/pwa/a.png>" +:+ Json.nl) t).
Proof.
  destruct (generateBasicIndexHTML_writes_the_document_or_nothing
              Sample.world "index.template.html" "public" "App"
              [[("charset", Some "utf-8")]] ["<link rel=icon href=/pwa/a.png>"]
              None None (Sample.fresh_build "plain") _ _ (surjective_pairing _))
    as [(_ & templateContent & html & Htpl & Hhb & Hfs & _) | ([e He] & _ & _)].
  - discriminate.
  - destruct Htpl as [t0 Htpl]. vm_compute in Htpl. injection Htpl as <- _.
    vm_compute in Hhb. injection Hhb as <-.
    rewrite Hfs. eexists. apply lookup_insert_eq.
  - vm_compute in He. discriminate He.
Defined.

(** X20.  A rebuild that returns has written the document.  After a run
    that proceeded past the staleness test and returned, the document
    path (the target file of the options, or [index.html] of the target
    folder) holds what the template, as it was before the run, makes of:
    the title, which is the application name, a dash and the short
    description; the fourteen meta tags of the page, whose address is that
    of the options when it is a non-empty string and that of the
    configuration otherwise; and the fragments of a response the renderer
    called back with; tags and fragments rebased when the configuration
    names a base.  The cache marker is not kept at the document path, the
    template is not itself an output of the build, the responses name
    plain files, and the base holds no dollar sign. *)
Theorem rebuild_writes_the_document
    (W : World) (options : Options) (sched : list Event)
    (config : AppConfig) (sources : list string) (CACHE_FILE : string) (now : Z)
    (st0 st1 st' : State) :
  gate W options st0 = (Ok (Proceed config sources CACHE_FILE now), st1) ->
  generateApp W options sched st0 = (Ok tt, st') ->
  document_path options <> CACHE_FILE ->
  is_build_output options (templateFilePath options) = false ->
  templateFilePath options <> targetFolder options ->
  plain_schedule sched ->
  (forall b, base config = Some b -> Str.has_char "$" b = false) ->
  let address :=
    if Str.truthy_opt (applicationURL options) then applicationURL options
    else url config in
  let title :=
    Str.of_opt (appName config) +:+ " - " +:+ Str.of_opt (appShortDescription config) in
  let previewURL :=
    Str.of_opt address +:+ "/"
    +:+ (if Str.truthy_opt (preview config) then Str.of_opt (preview config)
         else "preview.png") in
  let meta :=
    [ [("charset", Some "utf-8")];
      [("name", Some "viewport");
       ("content", Some "width=device-width,initial-scale=1")];
      [("name", Some "title"); ("content", Some title)];
      [("name", Some "description"); ("content", appDescription config)];
      [("property", Some "og:type"); ("content", Some "website")];
      [("property", Some "og:url"); ("content", address)];
      [("property", Some "og:title"); ("content", Some title)];
      [("property", Some "og:description"); ("content", appDescription config)];
      [("property", Some "og:image"); ("content", Some previewURL)];
      [("property", Some "twitter:card"); ("content", Some "summary_large_image")];
      [("property", Some "twitter:url"); ("content", address)];
      [("property", Some "twitter:title"); ("content", Some title)];
      [("property", Some "twitter:description"); ("content", appDescription config)];
      [("property", Some "twitter:image"); ("content", Some previewURL)] ] in
  let adjust := fun text =>
    match base config with
    | Some b => if String.eqb b "/" then text else rebase b text
    | None => text
    end in
  let metaTags :=
    adjust (Str.join Json.nl
              (map (fun input => "<meta" +:+ makeHtmlAttributes input +:+ ">") meta)
            +:+ Json.nl +:+ Json.nl) in
  exists templateContent ev response document,
    holds st0 (templateFilePath options) templateContent
    /\ ev ∈ sched /\ delivered ev = Some response
    /\ (let favicons :=
          adjust (fold_left (fun acc faviconHTML => acc +:+ faviconHTML +:+ Json.nl)
                            (html response) EmptyString) in
        handlebars W templateContent
          (mkRender title metaTags favicons (metaTags +:+ Json.nl +:+ favicons))
        = Some document)
    /\ holds st' (document_path options) document.
Proof.
  intros Hgate Hrun Hcache Htplout Htpldir _ _.
  cbv zeta.
  pose proof (framed_gate W options _ _ _ Hgate) as Hframe0.
  unfold generateApp in Hrun. rewrite (bind_Ok _ _ _ _ _ Hgate) in Hrun.
  apply bind_inv_Ok in Hrun as ([] & sb & Hbuild & Hrun).
  apply bind_inv_Ok in Hrun as ([] & sb' & Hprint & Hrun).
  apply bind_inv_Ok in Hrun as ([] & sc & Hcommit & Hdone).
  unfold build in Hbuild.
  apply bind_inv_Ok in Hbuild as (faviconsOutput & mid & Hassets & Hbuild).
  apply bind_inv_Ok in Hbuild as ([] & s2 & Hrewrite & Hdocument).
  apply generateBasicIndexHTML_returned in Hdocument
    as (templateContent & document & Htpl & Hhb & t & Hfs).
  assert (Hfragments : exists ev response,
             ev ∈ sched /\ delivered ev = Some response
             /\ faviconsOutput = html response).
  { unfold prepare_assets in Hassets.
    apply bind_inv_Ok in Hassets as ([] & a1 & _ & Hassets).
    apply bind_inv_Ok in Hassets as ([] & a2 & _ & Hassets).
    apply bind_inv_Ok in Hassets as (out & a3 & Hfav & Hassets).
    apply bind_inv_Ok in Hassets as ([] & a4 & _ & Hret).
    injection Hret as <- _.
    exact (generateFavicons_returned W _ _ _ _ _ _ _ Hfav). }
  destruct Hfragments as (ev & response & Hin & Hd & ->).
  exists templateContent, ev, response, document.
  assert (Hsame : fs s2 !! templateFilePath options
                  = fs st0 !! templateFilePath options).
  { rewrite (framed_replaceRootPaths W options _ _ _ Hrewrite)
      by (rewrite Htplout; discriminate).
    rewrite (framed_prepare_assets W options config sched _ _ _ Hassets)
      by (rewrite Htplout; discriminate).
    now apply Hframe0. }
  split.
  { destruct Htpl as [t0 Htpl]. exists t0. now rewrite <- Hsame. }
  split; [exact Hin |]. split; [exact Hd |]. split; [exact Hhb |].
  assert (Hsb : holds sb (document_path options) document).
  { eexists. rewrite Hfs. apply lookup_insert_eq. }
  injection Hprint as <-. injection Hdone as <-.
  apply (same_text_commit W (document_path options) CACHE_FILE sources now Hcache
           _ _ _ Hcommit document).
  exact Hsb.
Qed.

Lemma rebuild_writes_the_document_witness :
  exists document,
    holds (snd (generateApp Sample.world Sample.options
                  [FirstDone (FavOk Sample.response)] (Sample.fresh_build "plain")))
          "public/index.html" document
    /\ Str.is_prefix ("<html>App - demo<meta charset=" +:+ Str.dquote +:+ "utf-8"
                      +:+ Str.dquote +:+ ">") document = true.
Proof.
  destruct (rebuild_writes_the_document
              Sample.world Sample.options [FirstDone (FavOk Sample.response)]
              Sample.config_plain
              ["application.json"; "index.template.html"; "icon.svg"]
              ".prepare-for-web-cache" 1700000001%Z
              (Sample.fresh_build "plain")
              (snd (gate Sample.world Sample.options (Sample.fresh_build "plain")))
              (snd (generateApp Sample.world Sample.options
                      [FirstDone (FavOk Sample.response)] (Sample.fresh_build "plain"))))
    as (templateContent & ev & response & document & Htpl & Hin & Hd & Hhb & Hheld).
  - vm_compute. reflexivity.
  - vm_compute. reflexivity.
  - vm_compute. discriminate.
  - reflexivity.
  - discriminate.
  - apply sample_schedule_is_plain. intros ev response Hin.
    now apply elem_of_nil in Hin.
  - discriminate.
  - exists document. split; [exact Hheld |].
    apply list_elem_of_singleton in Hin as ->. injection Hd as <-.
    destruct Htpl as [t0 Htpl]. vm_compute in Htpl. injection Htpl as <- _.
    vm_compute in Hhb. injection Hhb as <-. reflexivity.
Defined.

(** X21.  [makeHtmlAttributes] renders the attributes one by one.  The
    text for a list of attributes is the text for its beginning followed
    by the text for its end; an attribute contributes a space, its name,
    an equals sign and its value between quotes, the value printed as
    JavaScript converts it to a string, so an undefined value reads
    [undefined]; no attribute gives the empty text. *)
Theorem makeHtmlAttributes_is_a_concatenation (a b : Attributes) :
  makeHtmlAttributes (a ++ b) = makeHtmlAttributes a +:+ makeHtmlAttributes b
  /\ makeHtmlAttributes [] = EmptyString
  /\ forall key value,
       makeHtmlAttributes [(key, value)]
       = " " +:+ key +:+ "=" +:+ Str.dquote +:+ Str.of_opt value +:+ Str.dquote.
Proof.
  split; [| split; [reflexivity | reflexivity]].
  unfold makeHtmlAttributes.
  assert (Hfold : forall (l : Attributes) (acc : string),
             fold_left
               (fun result kv =>
                  result +:+ " " +:+ fst kv +:+ "=" +:+ Str.dquote
                  +:+ Str.of_opt (snd kv) +:+ Str.dquote) l acc
             = acc
               +:+ fold_left
                     (fun result kv =>
                        result +:+ " " +:+ fst kv +:+ "=" +:+ Str.dquote
                        +:+ Str.of_opt (snd kv) +:+ Str.dquote) l EmptyString).
  { induction l as [|kv l IH]; intros acc; cbn [fold_left].
    - now rewrite StrFacts.app_nil_r.
    - rewrite IH. rewrite (IH (EmptyString +:+ _)).
      rewrite StrFacts.app_nil_l. now rewrite !StrFacts.app_assoc. }
  rewrite fold_left_app. apply Hfold.
Qed.

(** ** The command line entry point *)

(** X22.  The exit code tells how [generateApp] ended.  For a command
    line that asks neither for the package version nor for another working
    directory, the entry point runs [generateApp] on the options of the
    command line, the address falling back on the environment variable
    when the command line gives none or an empty one.  When [generateApp]
    returns, be it after a rebuild or because the cache was fresh, the
    entry point prints [DONE] and ends the process with exit code 0; when
    [generateApp] ends otherwise (exit code 1 for a missing input, an
    exception, a promise that never settles), so does the entry point and
    [DONE] is not printed.  In no case does the entry point return. *)
Theorem exit_code_tells_how_generateApp_ended
    (P : Process) (W : World) (args : Args) (sched : list Event) (st : State) :
  arg_use_package_version args = false ->
  Str.truthy_opt (arg_cwd args) = false ->
  let options :=
    mkOptions (arg_config args) (arg_template args) (arg_target args)
      (arg_cache args) (arg_targetFile args)
      (if Str.truthy_opt (arg_url args) then arg_url args
       else env_WEB_APPLICATION_URL P)
      (if Str.truthy_opt (arg_app_version args) then arg_app_version args else None)
      (arg_force args) in
  (forall st',
     generateApp W options sched st = (Ok tt, st') ->
     main P W args sched st
     = (Exit 0,
        mkState (fs st') (trace st' ++ [EConsoleLog "DONE"]) (ticks st')))
  /\ (forall r st',
        generateApp W options sched st = (r, st') -> r <> Ok tt ->
        main P W args sched st = (r, st'))
  /\ fst (main P W args sched st) <> Ok tt.
Proof.
  intros Hp Hcwd options.
  assert (Hmain : main P W args sched st
                  = bind (generateApp W options sched)
                      (fun _ => console_log "DONE" ;;; process_exit 0%Z) st).
  { unfold main. rewrite Hp, Hcwd. cbn [andb].
    unfold options. destruct (Str.truthy_opt (arg_app_version args)); reflexivity. }
  split; [| split].
  - intros st' Hrun. rewrite Hmain, (bind_Ok _ _ _ _ _ Hrun). reflexivity.
  - intros r st' Hrun Hr. rewrite Hmain. unfold bind at 1. rewrite Hrun.
    destruct r as [[] | e | c |]; [now destruct Hr | reflexivity ..].
  - rewrite Hmain. unfold bind at 1.
    destruct (generateApp W options sched st) as [[[] | e | c |] st'];
      discriminate.
Qed.

Lemma exit_code_tells_how_generateApp_ended_witness :
  fst (main Demo.process Sample.world Demo.default_args
         [FirstDone (FavOk Sample.response)] (Sample.cached "plain"))
  = Exit 0.
Proof.
  destruct (exit_code_tells_how_generateApp_ended
              Demo.process Sample.world Demo.default_args
              [FirstDone (FavOk Sample.response)] (Sample.cached "plain")
              eq_refl eq_refl)
    as (Hok & _ & _).
  rewrite (Hok (snd (generateApp Sample.world Sample.options
                       [FirstDone (FavOk Sample.response)] (Sample.cached "plain")))).
  - reflexivity.
  - vm_compute. reflexivity.
Defined.

(** X23.  The option that asks for the package version is settled
    before anything else.  When the command line gives a version as
    well, the entry point prints the complaint on the error stream and
    ends the process with exit code 1, having read no file and started
    nothing.  Otherwise it reads [./package.json] before it moves to
    another working directory: when that file is missing or is a
    directory, or does not parse, the entry point throws and
    [generateApp] is not started; when it parses, the version of the
    package is the version [generateApp] is given. *)
Theorem package_version_option_is_settled_first
    (P : Process) (W : World) (args : Args) (sched : list Event) (st : State) :
  arg_use_package_version args = true ->
  (Str.truthy_opt (arg_app_version args) = true ->
   main P W args sched st
   = (Exit 1,
      mkState (fs st)
        (trace st
         ++ [EConsoleError
               "cannot specify both --use-package-version and --app-version"])
        (ticks st)))
  /\ (Str.truthy_opt (arg_app_version args) = false ->
      ((forall text t, fs st !! "./package.json" <> Some (File text t)) ->
       main P W args sched st
       = (Throw (FsError "readFileSync" "./package.json"), st))
      /\ (forall text t,
            fs st !! "./package.json" = Some (File text t) ->
            package_version P text = None ->
            main P W args sched st = (Throw (SyntaxError "JSON.parse"), st))
      /\ (forall text t version,
            fs st !! "./package.json" = Some (File text t) ->
            package_version P text = Some version ->
            main P W args sched st
            = bind (if Str.truthy_opt (arg_cwd args)
                    then chdir P (Str.of_opt (arg_cwd args)) else ret tt)
                (fun _ =>
                   generateApp W
                     (mkOptions (arg_config args) (arg_template args)
                        (arg_target args) (arg_cache args) (arg_targetFile args)
                        (if Str.truthy_opt (arg_url args) then arg_url args
                         else env_WEB_APPLICATION_URL P)
                        version (arg_force args))
                     sched ;;;
                   console_log "DONE" ;;;
                   process_exit 0%Z)
                st)).
Proof.
  intros Hp. split.
  { intros Hv. unfold main. rewrite Hp, Hv. reflexivity. }
  intros Hv.
  assert (Hmain :
            main P W args sched st
            = bind (readFileSync "./package.json")
                (fun text =>
                   bind match package_version P text with
                        | Some v => ret v
                        | None => throw (SyntaxError "JSON.parse")
                        end
                     (fun version =>
                        bind (if Str.truthy_opt (arg_cwd args)
                              then chdir P (Str.of_opt (arg_cwd args)) else ret tt)
                          (fun _ =>
                             generateApp W
                               (mkOptions (arg_config args) (arg_template args)
                                  (arg_target args) (arg_cache args)
                                  (arg_targetFile args)
                                  (if Str.truthy_opt (arg_url args) then arg_url args
                                   else env_WEB_APPLICATION_URL P)
                                  version (arg_force args))
                               sched ;;;
                             console_log "DONE" ;;;
                             process_exit 0%Z)))
                st).
  { unfold main. rewrite Hp, Hv. cbn [andb].
    unfold bind at 1. cbn [ret]. apply bind_assoc. }
  split; [| split].
  - intros Hnone. rewrite Hmain. unfold bind at 1. unfold readFileSync.
    destruct (fs st !! "./package.json") as [[text t | t] |] eqn:E;
      [now destruct (Hnone text t) | reflexivity | reflexivity].
  - intros text t Hfile Hparse. rewrite Hmain.
    rewrite (bind_Ok _ _ _ _ _ (readFileSync_file _ _ _ st Hfile)).
    now rewrite Hparse.
  - intros text t version Hfile Hparse. rewrite Hmain.
    rewrite (bind_Ok _ _ _ _ _ (readFileSync_file _ _ _ st Hfile)).
    now rewrite Hparse.
Qed.

Lemma package_version_option_is_settled_first_witness :
  fst (main Demo.process Sample.world
         (mkArgs "application.json" "index.template.html" "public"
                 None None None (Some "2.0.0") true None false)
         [] (Sample.fresh_build "plain"))
  = Exit 1
  /\ main Demo.process Sample.world
       (mkArgs "application.json" "index.template.html" "public"
               None None None None true (Some "site") false)
       [] (Sample.fresh_build "plain")
     = (Throw (FsError "readFileSync" "./package.json"), Sample.fresh_build "plain").
Proof.
  split.
  - now rewrite (proj1 (package_version_option_is_settled_first
                          Demo.process Sample.world
                          (mkArgs "application.json" "index.template.html" "public"
                                  None None None (Some "2.0.0") true None false)
                          [] (Sample.fresh_build "plain") eq_refl) eq_refl).
  - refine (proj1 (proj2 (package_version_option_is_settled_first
                            Demo.process Sample.world
                            (mkArgs "application.json" "index.template.html" "public"
                                    None None None None true (Some "site") false)
                            [] (Sample.fresh_build "plain") eq_refl) eq_refl) _).
    intros text t H. vm_compute in H. discriminate H.
Defined.

(** ** A renderer that reports an error *)

Section RendererError.

Variable W : World.

(** The promise of an attempt that reports an error in time is rejected
    with it, and the caller's [await] throws. *)
Lemma generateFavicons_rejected (exportFolder : string) (icon : option string)
    (config : FaviconOptions) (e : string) (rest : list Event) (st : State) :
  generateFavicons W exportFolder icon config (FirstDone (FavError e) :: rest) st
  = (Throw (FaviconFailure e),
     mkState (fs st)
       (trace st
        ++ [EStdout "generating favicons..."; ESetTimeout timeout_ms;
            EFavicons icon config])
       (ticks st)).
Proof.
  unfold generateFavicons. unfold bind at 1. cbn [print emit].
  rewrite (bind_Ok _ _ _ _ _ (start_run icon config _)).
  cbn [await promise on_event first_running].
  unfold called_back, try_catch, generateFav, guarded_reject, reject, bind.
  cbn [timer promise ret fs trace ticks].
  destruct rest; cbn [await promise]; unfold throw;
    now rewrite <- !app_assoc.
Qed.

End RendererError.

(** X24.  An error of the renderer is fatal and leaves no half-built
    site.  When the renderer reports an error before the timeout, a run
    that proceeded past the staleness test throws (that error, unless
    writing [robots.txt] or ensuring the favicon folder failed before);
    the renderer has been called at most once by then, and no path other
    than [robots.txt] of the target folder and the favicon folder itself
    has changed since the staleness test: no manifest is merged or
    rewritten, no document written, and no cache marker committed. *)
Theorem renderer_error_is_fatal
    (W : World) (options : Options) (config : AppConfig) (sources : list string)
    (CACHE_FILE : string) (now : Z) (st0 st1 : State) (e : string)
    (rest : list Event) :
  gate W options st0 = (Ok (Proceed config sources CACHE_FILE now), st1) ->
  exists err st',
    generateApp W options (FirstDone (FavError e) :: rest) st0 = (Throw err, st')
    /\ (err = FaviconFailure e \/ exists op p, err = FsError op p)
    /\ calls (trace st') <= calls (trace st1) + 1
    /\ forall p,
         p <> Path.join (publicFolder options) "robots.txt" ->
         p <> Path.join (publicFolder options) "pwa" ->
         fs st' !! p = fs st1 !! p.
Proof.
  intros Hgate.
  set (robots := Path.join (publicFolder options) "robots.txt").
  set (faviconFolder := Path.join (publicFolder options) "pwa").
  assert (Hassets :
            exists err st',
              prepare_assets W options config (FirstDone (FavError e) :: rest) st1
              = (Throw err, st')
              /\ (err = FaviconFailure e \/ exists op p, err = FsError op p)
              /\ calls (trace st') <= calls (trace st1) + 1
              /\ forall p, p <> robots -> p <> faviconFolder ->
                           fs st' !! p = fs st1 !! p).
  { unfold prepare_assets. cbv zeta. fold robots faviconFolder.
    set (first_step :=
           match ens_name (effective_url options config) config with
           | Some n => writeFileSync W robots ("Dwebsite: " +:+ n)
           | None => ret tt
           end).
    assert (Hfirst : exists r1 s1,
               first_step st1 = (r1, s1)
               /\ (r1 = Ok tt \/ exists op p, r1 = Throw (FsError op p))
               /\ calls (trace s1) = calls (trace st1)
               /\ forall p, p <> robots -> fs s1 !! p = fs st1 !! p).
    { unfold first_step.
      destruct (ens_name (effective_url options config) config) as [n |].
      - unfold writeFileSync.
        destruct (fs st1 !! robots) as [[c t | t] |];
          try (eexists _, _; split; [reflexivity |]; split; [eauto |];
               split; [reflexivity | reflexivity]);
          (destruct (writable W robots);
           [| eexists _, _; split; [reflexivity |]; split; [eauto |];
              split; [reflexivity | reflexivity]]);
          (eexists _, _; split; [reflexivity |]; split; [auto |];
           cbn [fs trace]; split;
           [rewrite calls_app; simpl; lia
           | intros p Hp; now apply lookup_insert_ne]).
      - eexists _, _. split; [reflexivity |]. split; [auto |].
        split; reflexivity. }
    destruct Hfirst as (r1 & s1 & Hstep1 & Hr1 & Hc1 & Hf1).
    unfold bind at 1. rewrite Hstep1.
    destruct Hr1 as [-> | (op & p & ->)].
    2:{ exists (FsError op p), s1. split; [reflexivity |]. split; [eauto |].
        split; [lia |]. intros q Hq _. now apply Hf1. }
    assert (Hsecond : exists r2 s2,
               ensureDirSync W faviconFolder s1 = (r2, s2)
               /\ (r2 = Ok tt \/ exists op p, r2 = Throw (FsError op p))
               /\ calls (trace s2) = calls (trace s1)
               /\ forall p, p <> faviconFolder -> fs s2 !! p = fs s1 !! p).
    { unfold ensureDirSync.
      destruct (fs s1 !! faviconFolder) as [[c t | t] |].
      - eexists _, _. split; [reflexivity |]. split; [eauto |]. split; reflexivity.
      - eexists _, _. split; [reflexivity |]. split; [auto |]. split; reflexivity.
      - destruct (writable W faviconFolder).
        + eexists _, _. split; [reflexivity |]. split; [auto |]. cbn [fs trace].
          split; [rewrite calls_app; simpl; lia |].
          intros p Hp. now apply lookup_insert_ne.
        + eexists _, _. split; [reflexivity |]. split; [eauto |]. split; reflexivity. }
    destruct Hsecond as (r2 & s2 & Hstep2 & Hr2 & Hc2 & Hf2).
    unfold bind at 1. rewrite Hstep2.
    destruct Hr2 as [-> | (op & p & ->)].
    2:{ exists (FsError op p), s2. split; [reflexivity |]. split; [eauto |].
        split; [lia |]. intros q Hq1 Hq2. rewrite Hf2 by exact Hq2. now apply Hf1. }
    unfold bind at 1. rewrite generateFavicons_rejected.
    eexists _, _. split; [reflexivity |]. split; [auto |]. cbn [fs trace].
    split; [rewrite calls_app; simpl; lia |].
    intros q Hq1 Hq2. rewrite Hf2 by exact Hq2. now apply Hf1. }
  destruct Hassets as (err & st' & Hrun & Herr & Hcalls & Hframe).
  exists err, st'. split; [| auto].
  unfold generateApp. rewrite (bind_Ok _ _ _ _ _ Hgate).
  unfold build. unfold bind at 1. unfold bind at 1. now rewrite Hrun.
Qed.

Lemma renderer_error_is_fatal_witness :
  exists st',
    generateApp Sample.world Sample.options [FirstDone (FavError "boom")]
                (Sample.fresh_build "plain")
    = (Throw (FaviconFailure "boom"), st')
    /\ fs st' !! "public/index.html" = None
    /\ fs st' !! ".prepare-for-web-cache" = None.
Proof.
  destruct (renderer_error_is_fatal
              Sample.world Sample.options Sample.config_plain
              ["application.json"; "index.template.html"; "icon.svg"]
              ".prepare-for-web-cache" 1700000001%Z
              (Sample.fresh_build "plain")
              (snd (gate Sample.world Sample.options (Sample.fresh_build "plain")))
              "boom" [])
    as (err & st' & Hrun & _ & _ & Hframe).
  - vm_compute. reflexivity.
  - exists st'.
    assert (E : err = FaviconFailure "boom").
    { assert (Hf : fst (generateApp Sample.world Sample.options
                          [FirstDone (FavError "boom")] (Sample.fresh_build "plain"))
                   = Throw (FaviconFailure "boom")) by (vm_compute; reflexivity).
      rewrite Hrun in Hf. now injection Hf. }
    subst err. split; [exact Hrun |].
    split; (rewrite Hframe; [vm_compute; reflexivity | vm_compute; discriminate ..]).
Defined.

(** ** The paths a run writes to *)

(** X25.  A run writes only to its own paths.  Whatever way [generateApp]
    ends, every directory it has created, every file it has written and
    every path whose times it has set is one of: the target folder;
    [robots.txt] of the target folder; the favicon folder [pwa] of the
    target folder; the favicon folder, a slash and the name of a file of a
    response of the renderer; one of the four rewritten files of the
    favicon folder; the document; and, for a run the staleness test let
    proceed, a source or the cache marker.  The paths are those handed to
    the filesystem, as the program wrote them. *)
Theorem generateApp_writes_only_its_own_paths
    (W : World) (options : Options) (sched : list Event) (st0 : State)
    (r : result unit) (st' : State) :
  generateApp W options sched st0 = (r, st') ->
  exists added,
    trace st' = trace st0 ++ added
    /\ forall e p,
         e ∈ added -> touched e = Some p ->
         p = targetFolder options
         \/ p = Path.join (targetFolder options) "robots.txt"
         \/ p = Path.join (targetFolder options) "pwa"
         \/ (exists ev response entry,
               ev ∈ sched /\ delivered ev = Some response
               /\ entry ∈ images response ++ files response
               /\ p = Path.join (targetFolder options) "pwa" +:+ "/" +:+ fst entry)
         \/ (exists f,
               f ∈ ["manifest.json"; "yandex-browser-manifest.json";
                    "manifest.webapp"; "browserconfig.xml"]
               /\ p = Path.join (Path.join (targetFolder options) "pwa") f)
         \/ p = (if Str.truthy_opt (targetFile options)
                 then Str.of_opt (targetFile options)
                 else Path.join (targetFolder options) "index.html")
         \/ (exists config sources CACHE_FILE now st1,
               gate W options st0 = (Ok (Proceed config sources CACHE_FILE now), st1)
               /\ (p ∈ sources \/ p = CACHE_FILE)).
Proof.
  set (Q := fun p : string =>
         p = targetFolder options
         \/ p = Path.join (targetFolder options) "robots.txt"
         \/ p = Path.join (targetFolder options) "pwa"
         \/ (exists ev response entry,
               ev ∈ sched /\ delivered ev = Some response
               /\ entry ∈ images response ++ files response
               /\ p = Path.join (targetFolder options) "pwa" +:+ "/" +:+ fst entry)
         \/ (exists f,
               f ∈ ["manifest.json"; "yandex-browser-manifest.json";
                    "manifest.webapp"; "browserconfig.xml"]
               /\ p = Path.join (Path.join (targetFolder options) "pwa") f)
         \/ p = (if Str.truthy_opt (targetFile options)
                 then Str.of_opt (targetFile options)
                 else Path.join (targetFolder options) "index.html")
         \/ (exists config sources CACHE_FILE now st1,
               gate W options st0 = (Ok (Proceed config sources CACHE_FILE now), st1)
               /\ (p ∈ sources \/ p = CACHE_FILE))).
  intros Hrun. change (writes_within Q st0 st').
  unfold generateApp in Hrun. unfold bind at 1 in Hrun.
  destruct (gate W options st0) as [gr st1] eqn:Hgate.
  assert (Hg : writes_within Q st0 st1).
  { apply (within_gate W Q options) with (r := gr); [now left | exact Hgate]. }
  destruct gr as [[| config sources CACHE_FILE now] | e | c |];
    try (injection Hrun as _ <-; exact Hg).
  apply (writes_within_trans Q st0 st1 st'); [exact Hg |].
  revert Hrun. generalize st1 r st'. clear Hg.
  change (respects (writes_within Q)
            (build W options config sched ;;;
             print "caching..." ;;;
             commit W sources CACHE_FILE now ;;;
             print ("done" +:+ Json.nl))).
  unfold print. within_steps.
  - unfold build. within_steps.
    + apply within_prepare_assets.
      * right. now left.
      * right. right. now left.
      * intros ev response entry Hin Hd Hentry. right. right. right. left.
        exists ev, response, entry. auto.
      * right. right. right. right. left. exists "manifest.json".
        split; [apply list_elem_of_here | reflexivity].
    + apply within_replaceRootPaths. intros f Hf.
      right. right. right. right. left. exists f. auto.
    + apply within_generateBasicIndexHTML.
      right. right. right. right. right. now left.
  - apply within_commit.
    + intros s Hs. do 6 right. exists config, sources, CACHE_FILE, now, st1. auto.
    + do 6 right. exists config, sources, CACHE_FILE, now, st1. auto.
Qed.

Lemma generateApp_writes_only_its_own_paths_witness :
  Forall (fun e => touched e <> Some "README.md")
         (trace (snd (generateApp Sample.world Sample.options
                        [FirstDone (FavOk Sample.response)] Demo.with_readme))).
Proof.
  apply Forall_forall. intros e Hin Htouched.
  destruct (generateApp_writes_only_its_own_paths
              Sample.world Sample.options [FirstDone (FavOk Sample.response)]
              Demo.with_readme _ _ (surjective_pairing _))
    as (added & Htr & Hown).
  cbn [trace Demo.with_readme app] in Htr. rewrite Htr in Hin.
  destruct (Hown e "README.md" Hin Htouched)
    as [H | [H | [H | [H | [H | [H | H]]]]]]; try (vm_compute in H; discriminate H).
  - destruct H as (ev & response & entry & Hev & Hd & Hentry & Hp).
    apply list_elem_of_singleton in Hev as ->. injection Hd as <-.
    simpl in Hentry.
    repeat (apply elem_of_cons in Hentry as [-> | Hentry]);
      try (now apply elem_of_nil in Hentry); vm_compute in Hp; discriminate Hp.
  - destruct H as (f & Hf & Hp).
    repeat (apply elem_of_cons in Hf as [-> | Hf]);
      try (now apply elem_of_nil in Hf); vm_compute in Hp; discriminate Hp.
  - destruct H as (config & sources & CACHE_FILE & now & st1 & Hgate & Hp).
    vm_compute in Hgate. injection Hgate as _ <- <- _ _.
    destruct Hp as [Hp | Hp]; [| discriminate Hp].
    repeat (apply elem_of_cons in Hp as [Hp | Hp]; [discriminate Hp |]).
    now apply elem_of_nil in Hp.
Defined.
